(** * MusicOrganizer: normalisation and apply phase

    A shallow embedding of [MusicOrganizer/utils.py] and
    [MusicOrganizer/Organizer.py], and the properties of the tag
    normalisation pipeline and of the apply phase. *)

From Stdlib Require Import NArith Ascii String DecimalString List Bool Lia.
From stdpp Require Import base option list gmap.

Local Open Scope N_scope.

(** ** Python strings

    A Python [str] is a sequence of Unicode code points. *)

Abbreviation pystr := (list N).

Definition py (s : string) : pystr := map N_of_ascii (list_ascii_of_string s).

(** ** pandas cells and columns

    A cell of an object column is null ([None] or [NaN]), a string, or
    another Python object (the empty list of a tag without values, the
    [dict] of the miscellaneous column, a number typed into the sheet).
    Of such an object the program only ever uses its [str()] text and its
    truth value.  A [pd.Series] is the list of its cells, in index order. *)
Inductive cell :=
| Null
| Str (s : pystr)
| Obj (text : pystr) (truthy : bool).

#[global] Instance cell_eq_dec : EqDecision cell.
Proof. solve_decision. Defined.

#[global] Instance cell_inhabited : Inhabited cell := populate Null.

Abbreviation Series := (list cell).

(** [pd.isnull] of one cell. *)
Definition isnull (x : cell) : bool :=
  match x with
  | Null => true
  | _ => false
  end.

(** ** The interpreter

    The interpreter's Unicode database and its [repr] and [json] modules
    are not part of the repository.  On ASCII the character tables are
    written out below; outside ASCII they are left to an arbitrary instance
    of this class. *)
Class Python := {
  uni_alnum : N -> bool;          (* str.isalnum, one code point *)
  uni_space : N -> bool;          (* str.isspace, one code point *)
  uni_numeric : N -> bool;        (* str.isnumeric, one code point *)
  uni_decimal : N -> bool;        (* str.isdecimal, one code point *)
  uni_caseless : N -> N -> bool;  (* re.IGNORECASE: pattern literal, text *)
  uni_lower : pystr -> pystr;     (* str.lower of a non-ASCII string *)
  repr_dict : list (pystr * cell) -> pystr;           (* str(d) of a dict *)
  json_loads : pystr -> option (list (pystr * cell))  (* None: it raises *)
}.

Module Char.

Definition is_ascii (c : N) : bool := c <? 128.

Definition between (lo hi c : N) : bool := (lo <=? c) && (c <=? hi).

Definition ascii_digit : N -> bool := between 48 57.
Definition ascii_upper : N -> bool := between 65 90.
Definition ascii_lower : N -> bool := between 97 122.

Definition to_lower_ascii (c : N) : N := if ascii_upper c then c + 32 else c.

Definition in_chars (set : string) (c : N) : bool := existsb (N.eqb c) (py set).

Section WithPython.
Context {U : Python}.

(** [Py_UNICODE_ISSPACE]: used by [str.strip] and by the class [\s]. *)
Definition is_space (c : N) : bool :=
  if is_ascii c then between 9 13 c || between 28 32 c else uni_space c.

(** The class [\w] of a [str] pattern: alphanumeric or underscore. *)
Definition is_word (c : N) : bool :=
  if is_ascii c
  then ascii_digit c || ascii_upper c || ascii_lower c || (c =? 95)
  else uni_alnum c.

(** One character of [str.isnumeric]. *)
Definition is_numeric (c : N) : bool :=
  if is_ascii c then ascii_digit c else uni_numeric c.

(** The class [\d] of a [str] pattern. *)
Definition is_decimal (c : N) : bool :=
  if is_ascii c then ascii_digit c else uni_decimal c.

(** A cased pattern literal [l] against the text character [c] under
    [re.IGNORECASE]. *)
Definition ci_eq (l c : N) : bool :=
  if is_ascii l && is_ascii c
  then to_lower_ascii l =? to_lower_ascii c
  else uni_caseless l c.
End WithPython.

End Char.

(** ** Regular expressions

    The fragment of [re] the program uses: literals, character classes,
    sequence, alternation, the greedy [?], and greedy [*] and [{lo,hi}] over
    a character class.  [bt] is the backtracking matcher: alternatives are
    tried left to right, greedy repetitions longest first, and the first
    success wins. *)
Module Re.

Inductive regex :=
| Eps
| Chr (p : N -> bool)
| Seq (r1 r2 : regex)
| Alt (r1 r2 : regex)
| Opt (r : regex)
| Star (p : N -> bool)
| Rep (p : N -> bool) (lo hi : nat).

Section Matcher.
Context {A : Type}.

Fixpoint star (p : N -> bool) (s : pystr) (k : pystr -> option A) : option A :=
  match s with
  | c :: s' =>
      if p c
      then match star p s' k with
           | Some a => Some a
           | None => k s
           end
      else k s
  | [] => k s
  end.

Fixpoint rep (p : N -> bool) (lo hi : nat) (s : pystr)
    (k : pystr -> option A) : option A :=
  let stop := match lo with O => k s | S _ => None end in
  match hi with
  | O => stop
  | S hi' =>
      match s with
      | c :: s' =>
          if p c
          then match rep p (Nat.pred lo) hi' s' k with
               | Some a => Some a
               | None => stop
               end
          else stop
      | [] => stop
      end
  end.

Fixpoint bt (r : regex) (s : pystr) (k : pystr -> option A) : option A :=
  match r with
  | Eps => k s
  | Chr p =>
      match s with
      | c :: s' => if p c then k s' else None
      | [] => None
      end
  | Seq r1 r2 => bt r1 s (fun s' => bt r2 s' k)
  | Alt r1 r2 =>
      match bt r1 s k with
      | Some a => Some a
      | None => bt r2 s k
      end
  | Opt r1 =>
      match bt r1 s k with
      | Some a => Some a
      | None => k s
      end
  | Star p => star p s k
  | Rep p lo hi => rep p lo hi s k
  end.
End Matcher.

(** The words a pattern matches. *)
Fixpoint lang (r : regex) (w : pystr) : Prop :=
  match r with
  | Eps => w = []
  | Chr p => exists c, w = [c] /\ p c = true
  | Seq r1 r2 => exists w1 w2, w = w1 ++ w2 /\ lang r1 w1 /\ lang r2 w2
  | Alt r1 r2 => lang r1 w \/ lang r2 w
  | Opt r1 => lang r1 w \/ w = []
  | Star p => forallb p w = true
  | Rep p lo hi => forallb p w = true /\ (lo <= length w <= hi)%nat
  end.

(** A literal, compared exactly. *)
Fixpoint lit (s : pystr) : regex :=
  match s with
  | [] => Eps
  | c :: s' => Seq (Chr (N.eqb c)) (lit s')
  end.

(** A cased literal under [re.IGNORECASE]. *)
Fixpoint lit_i {U : Python} (s : pystr) : regex :=
  match s with
  | [] => Eps
  | c :: s' => Seq (Chr (Char.ci_eq c)) (lit_i s')
  end.

(** [pattern.match] at the start of [s]: what is left of [s] after the
    match. *)
Definition match_at (r : regex) (s : pystr) : option pystr :=
  bt r s Some.

(** The same with [must_advance]: an empty match is refused. *)
Definition match_nonempty_at (r : regex) (s : pystr) : option pystr :=
  bt r s (fun rest => if (length rest <? length s)%nat then Some rest else None).

(** [pattern.sub(repl, s)]: every match, leftmost first and without
    overlap, is replaced by [repl].  [skip] counts the characters of the
    current match that are still to be passed over. *)
Fixpoint sub_from (r : regex) (repl : pystr) (skip : nat) (s : pystr) : pystr :=
  match s with
  | [] =>
      match skip, match_at r [] with
      | O, Some _ => repl
      | _, _ => []
      end
  | c :: s' =>
      match skip with
      | S n => sub_from r repl n s'
      | O =>
          match match_at r s with
          | None => c :: sub_from r repl 0 s'
          | Some rest =>
              match (length s - length rest)%nat with
              | S n => repl ++ sub_from r repl n s'
              | O =>
                  match match_nonempty_at r s with
                  | Some rest' =>
                      repl ++ repl ++
                        sub_from r repl (Nat.pred (length s - length rest')) s'
                  | None => repl ++ c :: sub_from r repl 0 s'
                  end
              end
          end
      end
  end.

Definition sub (r : regex) (repl : pystr) (s : pystr) : pystr :=
  sub_from r repl 0 s.

(** [pattern.search(s) is not None]. *)
Fixpoint search (r : regex) (s : pystr) : bool :=
  match match_at r s with
  | Some _ => true
  | None =>
      match s with
      | [] => false
      | _ :: s' => search r s'
      end
  end.

(** Patterns that cannot match the empty word. *)
Fixpoint nullable (r : regex) : bool :=
  match r with
  | Eps => true
  | Chr _ => false
  | Seq r1 r2 => nullable r1 && nullable r2
  | Alt r1 r2 => nullable r1 || nullable r2
  | Opt _ => true
  | Star _ => true
  | Rep _ lo _ => match lo with O => true | S _ => false end
  end.

(** No character class of the pattern accepts [x]. *)
Fixpoint avoids (x : N) (r : regex) : bool :=
  match r with
  | Eps => true
  | Chr p => negb (p x)
  | Seq r1 r2 => avoids x r1 && avoids x r2
  | Alt r1 r2 => avoids x r1 && avoids x r2
  | Opt r1 => avoids x r1
  | Star p => negb (p x)
  | Rep p _ _ => negb (p x)
  end.

End Re.

Module PyStr.
Section WithPython.
Context {U : Python}.

(** [str.lstrip()], [str.rstrip()] and [str.strip()]. *)
Fixpoint lstrip (s : pystr) : pystr :=
  match s with
  | c :: s' => if Char.is_space c then lstrip s' else s
  | [] => []
  end.

Fixpoint rstrip (s : pystr) : pystr :=
  match s with
  | [] => []
  | c :: s' =>
      match rstrip s' with
      | [] => if Char.is_space c then [] else [c]
      | r => c :: r
      end
  end.

Definition strip (s : pystr) : pystr := rstrip (lstrip s).

(** [str.isnumeric()]: at least one character, all of them numeric. *)
Definition isnumeric (s : pystr) : bool :=
  match s with
  | [] => false
  | _ => forallb Char.is_numeric s
  end.

(** [str.lower()]. *)
Definition lower (s : pystr) : pystr :=
  if forallb Char.is_ascii s then map Char.to_lower_ascii s else uni_lower s.
End WithPython.

(** [s.endswith(suffix)] and [s.endswith((suffix, ...))]. *)
Definition endswith (s suffix : pystr) : bool :=
  bool_decide (drop (length s - length suffix) s = suffix).

Definition endswith_any (s : pystr) (suffixes : list pystr) : bool :=
  existsb (endswith s) suffixes.

(** [s.replace(c, '')] for a one-character [c]. *)
Definition remove_char (c : N) (s : pystr) : pystr :=
  filter (fun x => x <> c) s.

(** [s.split(sep)[0]] for a one-character [sep]. *)
Fixpoint before (sep : N) (s : pystr) : pystr :=
  match s with
  | [] => []
  | c :: s' => if c =? sep then [] else c :: before sep s'
  end.
End PyStr.

(** ** utils.py *)
Module Utils.
Import Re.

Definition audio_extensions : list pystr :=
  map py
    ["3gp"; "aa"; "aac"; "aax"; "act"; "aiff"; "alac"; "amr"; "ape"; "au";
     "awb"; "dct"; "dss"; "dvf"; "8svx"; "flac"; "gsm"; "iklax"; "ivs";
     "m4a"; "m4b"; "m4p"; "mmf"; "mp3"; "mpc"; "msv"; "nmf"; "ogg"; "oga";
     "cda"; "mogg"; "opus"; "ra"; "rm"; "raw"; "rf64"; "sln"; "tta"; "voc";
     "vox"; "wav"; "wma"; "wv"; "webm"]%string.

Section WithPython.
Context {U : Python}.

(** The two bracket-and-punctuation classes of the pattern (they hold
    the same characters). *)
Definition noise (c : N) : bool :=
  Char.in_chars "-@:%_+.~#?&/=()[]*^$!{}<>'" c || (c =? 34) || Char.is_space c.

(** [[\w@\-%\+.~#?&//=]] and [[\w@\-:%\+.~#?&//=]]. *)
Definition host_char (c : N) : bool :=
  Char.is_word c || Char.in_chars "@-%+.~#?&/=" c.

Definition path_char (c : N) : bool :=
  Char.is_word c || Char.in_chars "@-:%+.~#?&/=" c.

Definition kanal : pystr := [0x6A9; 0x627; 0x646; 0x627; 0x644].
Definition telegram_fa : pystr := [0x62A; 0x644; 0x6AF; 0x631; 0x627; 0x645].

(** [(((telegram[\s]?)?(channel)?)|((kanal[\s]?)?(telegram_fa)))?] *)
Definition label : regex :=
  Opt (Alt
         (Seq (Opt (Seq (lit_i (py "telegram")) (Opt (Chr Char.is_space))))
              (Opt (lit_i (py "channel"))))
         (Seq (Opt (Seq (lit kanal) (Opt (Chr Char.is_space))))
              (lit telegram_fa))).

(** [(cc|me|ir|in|net|info|org|biz|com|us|pro|ws)] *)
Definition tld : regex :=
  fold_right (fun s r => Alt (lit_i (py s)) r) (lit_i (py "ws"))
    ["cc"; "me"; "ir"; "in"; "net"; "info"; "org"; "biz"; "com"; "us";
     "pro"]%string.

(** The URL-like token or the [@handle]. *)
Definition token : regex :=
  Alt (Seq (Rep host_char 1 256)
           (Seq (Chr (N.eqb 46)) (Seq tld (Star path_char))))
      (Seq (Chr (N.eqb 64)) (Rep path_char 1 256)).

Definition ad_regex : regex :=
  Seq label (Seq (Star noise) (Seq token (Star noise))).

(** One cell of [data.str.replace(ad_regex, ' ', regex=True,
    flags=re.IGNORECASE).str.strip().replace({'': None})]; the [.str]
    methods give [NaN] on a cell that is not a string. *)
Definition remove_websites_and_tags_cell (x : cell) : cell :=
  match x with
  | Str s =>
      match PyStr.strip (sub ad_regex [32] s) with
      | [] => Null
      | r => Str r
      end
  | _ => Null
  end.

(** A token starts at the head of [t]; no token starts anywhere in [y]. *)
Definition tokstart (t : pystr) : Prop :=
  exists tok rest, t = tok ++ rest /\ lang token tok.

Definition no_token (y : pystr) : Prop :=
  forall a t, y = a ++ t -> ~ tokstart t.

Definition remove_websites_and_tags (data : Series) : Series :=
  map remove_websites_and_tags_cell data.

(** [data.str.contains(regex, regex=True, flags=re.IGNORECASE)
    .replace({None: False})]: [contains] is the search of the compiled
    pattern; a cell that is not a string gives [False]. *)
Definition mask_containing_regex (data : Series) (contains : pystr -> bool)
    : list bool :=
  map (fun x => match x with Str s => contains s | _ => false end) data.
End WithPython.
End Utils.


(** ** pathlib and os.path, POSIX flavour

    A [Path] is its root (empty, "/" or "//") and its components. *)
Abbreviation Path := (pystr * list pystr)%type.

Module Paths.

(** [s.split(sep)] for a one-character [sep]. *)
Fixpoint split_on (sep : N) (s : pystr) : list pystr :=
  match s with
  | [] => [[]]
  | c :: s' =>
      if c =? sep then [] :: split_on sep s'
      else match split_on sep s' with
           | w :: ws => (c :: w) :: ws
           | [] => [[c]]
           end
  end.

(** [sep.join(l)]. *)
Fixpoint join (sep : pystr) (l : list pystr) : pystr :=
  match l with
  | [] => []
  | [x] => x
  | x :: l' => x ++ sep ++ join sep l'
  end.

(** [Path(s)]: empty and "." components are dropped; exactly two leading
    slashes are a root of their own. *)
Definition Path_of_str (s : pystr) : Path :=
  let root :=
    match s with
    | 47 :: 47 :: 47 :: _ => [47]
    | 47 :: 47 :: _ => [47; 47]
    | 47 :: _ => [47]
    | _ => []
    end in
  (root, filter (fun c => c <> [] /\ c <> [46]) (split_on 47 s)).

(** [str(p)]. *)
Definition str_of_Path (p : Path) : pystr :=
  match p with
  | ([], []) => [46]
  | (root, parts) => root ++ join [47] parts
  end.

(** [p.parent], [p.name] and [p.suffix]. *)
Definition parent (p : Path) : Path := (fst p, List.removelast (snd p)).

Definition name (p : Path) : pystr := List.last (snd p) [].

(** [name.rfind('.')]. *)
Fixpoint rfind_dot (s : pystr) : option nat :=
  match s with
  | [] => None
  | c :: s' =>
      match rfind_dot s' with
      | Some i => Some (S i)
      | None => if c =? 46 then Some O else None
      end
  end.

Definition suffix (p : Path) : pystr :=
  match rfind_dot (name p) with
  | Some i =>
      if ((0 <? i) && (i <? length (name p) - 1))%nat then drop i (name p) else []
  | None => []
  end.

(** [p / s]: an absolute [s] replaces [p]. *)
Definition joinpath (p : Path) (s : pystr) : Path :=
  match Path_of_str s with
  | ([], parts) => (fst p, snd p ++ parts)
  | q => q
  end.

(** [os.path.join(a, b)]. *)
Definition os_path_join (a b : pystr) : pystr :=
  match b with
  | 47 :: _ => b
  | _ =>
      match a with
      | [] => b
      | _ => if List.last a 0 =? 47 then a ++ b else a ++ 47 :: b
      end
  end.

End Paths.

(** ** The file system, the terminal and the review store *)

(** What [mutagen.File(f, easy=True)] finds at a path: an audio file with
    its tags, its bitrate in bits per second and its length already
    rendered as mm:ss (the length is a floating-point number of seconds);
    a file of no known type, for which it returns [None]; or a file whose
    reading raises. *)
Inductive Content :=
| Audio (tags : gmap pystr (list cell)) (bitrate : N) (length_mm_ss : pystr)
| Unrecognised
| Unreadable.

Inductive SaveOutcome :=
| SaveOk
| SavePermissionError      (* MutagenError wrapping a PermissionError *)
| SaveOtherError.          (* any other exception *)

Inductive Event :=
| Prompt (file : Path)                                   (* input(...) *)
| OsRemove (file : Path)                                 (* os.remove *)
| OsRename (src dst : Path)                              (* Path.rename *)
| TagsClear (file : Path)                                (* clear() *)
| TagsUpdate (file : Path) (tags : gmap pystr (list cell))  (* update() *)
| TagsSave (file : Path).                                (* save() *)

(** A row maps the column names to cells.  A frame has its column names
    and its rows, each with its index label. *)
Abbreviation row := (gmap pystr cell).

Record DataFrame := {
  columns : list pystr;
  rows : list (nat * gmap pystr cell)
}.

(** What [to_excel] is given: the frame and the labels of the rows whose
    file, artist and title cells are coloured red. *)
Record Sheet := { data : DataFrame; red : list nat }.

(** What fails on this disk: [os.remove], [Path.rename], the [save] of the
    tags, and the reading of [file_obj.info.bitrate] (the stream info of
    some formats, Opus and Monkey's Audio among them, has no bitrate: the
    attribute access raises [AttributeError], and the bitrate given with
    the content of such a file stands for nothing). *)
Record Faults := {
  remove_fails : Path -> bool;
  rename_fails : Path -> Path -> bool;
  save_outcome : Path -> SaveOutcome;
  info_fails : Path -> bool
}.

Record World := {
  tree : list (pystr * list pystr);    (* os.walk: dirname, filenames *)
  faults : Faults;
  disk : gmap Path Content;
  stdin : list pystr;
  log : list Event;
  addrs_file : option (list pystr);
  music_info_before_file : option DataFrame;
  music_info_file : option Sheet
}.

Definition set_disk (f : gmap Path Content -> gmap Path Content) (w : World) : World :=
  {| tree := tree w; faults := faults w; disk := f (disk w); stdin := stdin w;
     log := log w; addrs_file := addrs_file w;
     music_info_before_file := music_info_before_file w;
     music_info_file := music_info_file w |}.

Definition set_stdin (l : list pystr) (w : World) : World :=
  {| tree := tree w; faults := faults w; disk := disk w; stdin := l;
     log := log w; addrs_file := addrs_file w;
     music_info_before_file := music_info_before_file w;
     music_info_file := music_info_file w |}.

Definition add_log (e : Event) (w : World) : World :=
  {| tree := tree w; faults := faults w; disk := disk w; stdin := stdin w;
     log := log w ++ [e]; addrs_file := addrs_file w;
     music_info_before_file := music_info_before_file w;
     music_info_file := music_info_file w |}.

Definition set_addrs_file (a : list pystr) (w : World) : World :=
  {| tree := tree w; faults := faults w; disk := disk w; stdin := stdin w;
     log := log w; addrs_file := Some a;
     music_info_before_file := music_info_before_file w;
     music_info_file := music_info_file w |}.

Definition set_music_info_before_file (d : DataFrame) (w : World) : World :=
  {| tree := tree w; faults := faults w; disk := disk w; stdin := stdin w;
     log := log w; addrs_file := addrs_file w;
     music_info_before_file := Some d;
     music_info_file := music_info_file w |}.

Definition set_music_info_file (d : Sheet) (w : World) : World :=
  {| tree := tree w; faults := faults w; disk := disk w; stdin := stdin w;
     log := log w; addrs_file := addrs_file w;
     music_info_before_file := music_info_before_file w;
     music_info_file := Some d |}.

Inductive exn :=
| KeyError | IndexError | TypeError | AttributeError | EOFError
| FileNotFoundError | JSONDecodeError | MutagenError | OtherException.

(** ** State and exceptions *)
Inductive Res (S A : Type) :=
| Ok (a : A) (s : S)
| Raise (e : exn) (s : S).
Arguments Ok {S A}.
Arguments Raise {S A}.

Definition M (S A : Type) : Type := S -> Res S A.

(** What a run leaves: the value returned, or nothing when it raises, and
    the state afterwards. *)
Definition returned {S A} (r : Res S A) : option A :=
  match r with
  | Ok a _ => Some a
  | Raise _ _ => None
  end.

Definition final {S A} (r : Res S A) : S :=
  match r with
  | Ok _ s => s
  | Raise _ s => s
  end.

Definition ret {S A} (a : A) : M S A := fun s => Ok a s.

Definition bind {S A B} (m : M S A) (f : A -> M S B) : M S B :=
  fun s =>
    match m s with
    | Ok a s' => f a s'
    | Raise e s' => Raise e s'
    end.

Definition raise {S A} (e : exn) : M S A := fun s => Raise e s.

Definition get {S} : M S S := fun s => Ok s s.

Definition modify {S} (f : S -> S) : M S unit := fun s => Ok tt (f s).

(** [try: m except Exception: pass]. *)
Definition try_pass {S} (m : M S unit) : M S unit :=
  fun s =>
    match m s with
    | Ok a s' => Ok a s'
    | Raise _ s' => Ok tt s'
    end.

Notation "'let*' x ':=' m 'in' k" := (bind m (fun x => k))
  (at level 10, x name, m at level 100, k at level 200).
Notation "'do' m 'then' k" := (bind m (fun _ => k))
  (at level 10, m at level 100, k at level 200).

(** [for x in l: body x]. *)
Fixpoint for_each {S A} (l : list A) (body : A -> M S unit) : M S unit :=
  match l with
  | [] => ret tt
  | x :: l' => bind (body x) (fun _ => for_each l' body)
  end.

(** ** pandas frames *)
Module Frame.

(** [df[k]] at one row.  Every row of a frame has all its columns. *)
Definition at_col (r : row) (k : string) : cell := r !!! py k.

Definition has_column (k : string) (df : DataFrame) : bool :=
  bool_decide (py k ∈ columns df).

(** [pd.DataFrame.from_records(records)]: the columns are the keys of the
    records, a key a record lacks is [NaN] there, the index is 0, 1, ... *)
Definition from_records (records : list row) : DataFrame :=
  let cols := remove_dups (flat_map (fun r => map fst (map_to_list r)) records) in
  {| columns := cols;
     rows := imap (fun i r => (i, foldr (fun k m =>
                                 match m !! k with
                                 | Some _ => m
                                 | None => <[k := Null]> m
                                 end) r cols)) records |}.

(** [df.to_dict('records')]. *)
Definition to_dict_records (df : DataFrame) : list row := map snd (rows df).

(** [df[k] = f(df)], cell by cell: on one row, and on the frame. *)
Definition upd (k : string) (f : row -> cell) (r : row) : row :=
  <[py k := f r]> r.

Definition assign (k : string) (f : row -> cell) (df : DataFrame) : DataFrame :=
  {| columns := if bool_decide (py k ∈ columns df) then columns df
                else columns df ++ [py k];
     rows := map (fun ir => (fst ir, upd k f (snd ir))) (rows df) |}.

(** A change made to every row, the columns staying as they are. *)
Definition map_rows (f : row -> row) (df : DataFrame) : DataFrame :=
  {| columns := columns df;
     rows := map (fun ir => (fst ir, f (snd ir))) (rows df) |}.

(** [df.drop(columns=ks)]: a new frame; [df] is left as it is. *)
Definition drop_columns (ks : list string) (df : DataFrame) : DataFrame :=
  {| columns := filter (fun c => c ∉ map py ks) (columns df);
     rows := map (fun ir => (fst ir, foldr (fun k m => delete (py k) m) (snd ir) ks))
                 (rows df) |}.

(** [df.loc[labels]], [df.drop(labels)] and [df.append(other)]. *)
Definition loc (labels : list nat) (df : DataFrame) : DataFrame :=
  {| columns := columns df;
     rows := flat_map (fun l => filter (fun ir => fst ir = l) (rows df)) labels |}.

Definition drop (labels : list nat) (df : DataFrame) : DataFrame :=
  {| columns := columns df;
     rows := filter (fun ir => fst ir ∉ labels) (rows df) |}.

Definition append (df other : DataFrame) : DataFrame :=
  {| columns := columns df ++ filter (fun c => c ∉ columns df) (columns other);
     rows := rows df ++ rows other |}.

(** [a.fillna(b)] at one row. *)
Definition fillna (a b : cell) : cell := if isnull a then b else a.

(** [s[mask]] assigned back to its column: a row outside the mask gets
    [NaN]. *)
Definition keep_if (mask : bool) (x : cell) : cell := if mask then x else Null.

(** [s[mask] = None]. *)
Definition null_if (mask : bool) (x : cell) : cell := if mask then Null else x.

(** A [.str] method at one cell: [NaN] unless the cell is a string. *)
Definition str_map (f : pystr -> pystr) (x : cell) : cell :=
  match x with
  | Str s => Str (f s)
  | _ => Null
  end.

(** [str(x)]. *)
Definition py_str (x : cell) : pystr :=
  match x with
  | Null => py "None"
  | Str s => s
  | Obj text _ => text
  end.

(** The truth value of a cell. *)
Definition truthy (x : cell) : bool :=
  match x with
  | Null => false
  | Str s => negb (bool_decide (s = []))
  | Obj _ b => b
  end.

End Frame.

(** ** Organizer.py *)
Module Organizer.
Import Frame.

Section WithPython.
Context {U : Python}.

Definition information_columns : list pystr := [py "bitrate"; py "length"].

(** *** Address catalog *)

(** [file.lower().endswith(organizerUtils.audio_extensions)]. *)
Definition is_audio (file : pystr) : bool :=
  PyStr.endswith_any (PyStr.lower file) Utils.audio_extensions.

(** The loop over [os.walk(self.directory)]. *)
Definition walk_addrs (tree : list (pystr * list pystr)) : list pystr :=
  flat_map (fun d =>
    flat_map (fun file =>
      if is_audio file then [Paths.os_path_join (fst d) file] else [])
      (snd d)) tree.

Definition get_music_addrs (from_cache : bool) : M World (list pystr) :=
  let* w := get in
  match addrs_file w, from_cache with
  | Some cached, true => ret cached
  | _, _ =>
      let addrs := walk_addrs (tree w) in
      do modify (set_addrs_file addrs) then
      ret addrs
  end.

(** *** Review flagging *)

Definition needs_attention (r : row) : bool :=
  isnull (at_col r "artist") || isnull (at_col r "title").

Definition flagged (ir : nat * row) : Prop := needs_attention ir.2 = true.

#[global] Instance flagged_dec ir : Decision (flagged ir).
Proof. unfold flagged. apply _. Defined.

(** [_highlighted_rows]: the index labels of the rows with an empty artist
    or title. *)
Definition _highlighted_rows (musics : DataFrame) : M World (list nat) :=
  if has_column "artist" musics && has_column "title" musics
  then ret (map fst (filter flagged (rows musics)))
  else raise KeyError.

(** [_do_highlight]: the flagged rows first, then the others; the styling
    is what makes a [Sheet] of the frame. *)
Definition _do_highlight (musics : DataFrame) : M World Sheet :=
  let* highlighted := _highlighted_rows musics in
  let musics := append (loc highlighted musics) (drop highlighted musics) in
  match highlighted with
  | [] => ret {| data := musics; red := [] |}
  | _ =>
      if has_column "file" musics
      then ret {| data := musics; red := highlighted |}
      else raise KeyError
  end.

(** [to_excel(self.music_info_file, ...)]. *)
Definition to_excel (sheet : Sheet) : M World unit :=
  modify (set_music_info_file sheet).

Definition read_music_info : M World DataFrame :=
  let* w := get in
  match music_info_file w with
  | None => raise FileNotFoundError
  | Some sheet =>
      let musics := data sheet in
      let* highlighted := _highlighted_rows musics in
      ret musics
  end.

(** *** Tag extraction *)

Definition must_have_keys : list string :=
  ["title"; "artist"; "album"; "albumartist"; "genre"; "date"; "bpm";
   "tracknumber"; "discnumber"]%string.

(** [{k: v[0] if v else v for k, v in file_obj.items()}]. *)
Definition first_values (tags : gmap pystr (list cell)) : gmap pystr cell :=
  (fun v => match v with
            | x :: _ => x
            | [] => Obj (py "[]") false
            end) <$> tags.

(** The record of one readable file. *)
Definition music_record (file : pystr) (tags : gmap pystr (list cell))
    (bitrate : N) (length_mm_ss : pystr) : row :=
  let file_data := first_values tags in
  let popped := must_have_keys ++ ["originaldate"%string] in
  let named :=
    foldl (fun m k => <[py k := default Null (file_data !! py k)]> m)
          (<[py "file" := Str file]> ∅) popped in
  let file_data := foldl (fun m k => delete (py k) m) file_data popped in
  <[py "miscellaneous" :=
      Obj (repr_dict (map_to_list file_data))
          (negb (bool_decide (file_data = ∅)))]>
    (<[py "length" := Str length_mm_ss]>
       (<[py "bitrate" :=
            Str (py (NilZero.string_of_uint (N.to_uint (bitrate / 1000))))]>
          named)).

(** The body of the loop over the catalog, [musics] being the list so
    far.  A file that cannot be opened, or whose tags cannot be read, is
    passed over ([except: continue]).  The record is built outside the
    [try]: there [file_obj.info.bitrate] is read, and an exception of that
    access leaves the loop and [generate_music_info]. *)
Definition read_file (file : pystr) (musics : list row) : M World (list row) :=
  let* w := get in
  match disk w !! Paths.Path_of_str file with
  | Some (Audio tags bitrate len) =>
      if info_fails (faults w) (Paths.Path_of_str file)
      then raise AttributeError
      else ret (musics ++ [music_record file tags bitrate len])
  | _ => ret musics
  end.

(** [for file in self.get_music_addrs(from_cache=False): ...]. *)
Fixpoint read_files (addrs : list pystr) (musics : list row)
    : M World (list row) :=
  match addrs with
  | [] => ret musics
  | file :: rest =>
      let* musics := read_file file musics in
      read_files rest musics
  end.

(** The records of the cataloged files that [mutagen] opens, in the order
    of the catalog: what the loop has appended when it ends without an
    exception. *)
Definition read_musics (w : World) (addrs : list pystr) : list row :=
  flat_map (fun file =>
    match disk w !! Paths.Path_of_str file with
    | Some (Audio tags bitrate len) => [music_record file tags bitrate len]
    | _ => []
    end) addrs.

(** *** Normalisation *)

(** [str(x).isnumeric()] after an optional [.str.replace(c, '')]. *)
Definition numeric_mask (x : cell) : bool := PyStr.isnumeric (py_str x).

Definition numeric_mask_without (c : N) (x : cell) : bool :=
  PyStr.isnumeric (py_str (str_map (PyStr.remove_char c) x)).

(** The end of the pattern [^\d+$]: the end of the string, or just before
    a final newline. *)
Definition at_dollar (rest : pystr) : option pystr :=
  match rest with
  | [] | [10] => Some rest
  | _ => None
  end.

(** Search of [(unknown|^\d+$|\?)]. *)
Definition genre_regex (s : pystr) : bool :=
  Re.search (Re.Alt (Re.lit_i (py "unknown")) (Re.Chr (N.eqb 63))) s
  || bool_decide (is_Some
       (Re.bt (Re.Seq (Re.Chr Char.is_decimal) (Re.Star Char.is_decimal)) s at_dollar)).

(** Search of [(unknown|various)]. *)
Definition albumartist_regex (s : pystr) : bool :=
  Re.search (Re.Alt (Re.lit_i (py "unknown")) (Re.lit_i (py "various"))) s.

(** Search of [(unknown|single|music|motion|[\u0600-\u06FF]+)]. *)
Definition album_regex (s : pystr) : bool :=
  let arabic := Char.between 0x600 0x6FF in
  Re.search
    (Re.Alt (Re.lit_i (py "unknown"))
       (Re.Alt (Re.lit_i (py "single"))
          (Re.Alt (Re.lit_i (py "music"))
             (Re.Alt (Re.lit_i (py "motion"))
                (Re.Seq (Re.Chr arabic) (Re.Star arabic)))))) s.

(** The promotional marker stripped from the artist, as the source file
    spells it: an opening bracket, RF, the code points E2, 201E and A2, and
    a closing bracket. *)
Definition rf_marker : Re.regex :=
  Re.Seq (Re.lit [40])
    (Re.Seq (Re.lit_i (py "RF"))
       (Re.Seq (Re.lit_i [0xE2]) (Re.lit [0x201E; 0xA2; 41]))).

Definition contains (regex : pystr -> bool) (x : cell) : bool :=
  match Utils.mask_containing_regex [x] regex with
  | [b] => b
  | _ => false
  end.

Definition strip_ads (x : cell) : cell := Utils.remove_websites_and_tags_cell x.

(** The statements between the two [to_excel] calls.  Every one of them
    works cell by cell on rows with the same label, so each is given by
    what it does to one row. *)

(* prioritize originaldate over date; keep what is before 'T' *)
Definition consolidate_date (r : row) : cell :=
  str_map (PyStr.before 84) (fillna (at_col r "originaldate") (at_col r "date")).

(* filter numeric type columns *)
Definition filter_bpm (r : row) : cell :=
  keep_if (numeric_mask (at_col r "bpm")) (at_col r "bpm").

Definition filter_date (r : row) : cell :=
  keep_if (numeric_mask_without 45 (at_col r "date")) (at_col r "date").

Definition filter_discnumber (r : row) : cell :=
  keep_if (numeric_mask_without 47 (at_col r "discnumber")) (at_col r "discnumber").

Definition filter_tracknumber (r : row) : cell :=
  keep_if (numeric_mask_without 47 (at_col r "tracknumber")) (at_col r "tracknumber").

(* filter genre *)
Definition filter_genre (r : row) : cell :=
  null_if (contains genre_regex (at_col r "genre")) (at_col r "genre").

(* filter albumartist *)
Definition filter_albumartist (r : row) : cell :=
  null_if (isnull (at_col r "album")
           || contains albumartist_regex (at_col r "albumartist"))
          (at_col r "albumartist").

(* filter album *)
Definition filter_album (r : row) : cell :=
  null_if (isnull (at_col r "albumartist")
           || contains album_regex (at_col r "album"))
          (at_col r "album").

(* double check album and albumartist: the mask is computed once, then
   both columns are set *)
Definition double_check (r : row) : row :=
  let mask := isnull (at_col r "album") || isnull (at_col r "albumartist") in
  <[py "albumartist" := null_if mask (at_col r "albumartist")]>
    (<[py "album" := null_if mask (at_col r "album")]> r).

Definition strip_marker (r : row) : cell :=
  str_map (Re.sub rf_marker []) (at_col r "artist").

(** The frame returned by [drop] is not bound to a name. *)
Definition normalise (musics : DataFrame) : DataFrame :=
  let musics := assign "date" consolidate_date musics in
  let _ := drop_columns ["originaldate"%string] musics in
  let musics := assign "bpm" filter_bpm musics in
  let musics := assign "date" filter_date musics in
  let musics := assign "discnumber" filter_discnumber musics in
  let musics := assign "tracknumber" filter_tracknumber musics in
  let musics := assign "genre" filter_genre musics in
  let musics := assign "genre" (fun r => strip_ads (at_col r "genre")) musics in
  let musics := assign "albumartist" filter_albumartist musics in
  let musics := assign "albumartist" (fun r => strip_ads (at_col r "albumartist"))
    musics in
  let musics := assign "album" filter_album musics in
  let musics := assign "album" (fun r => strip_ads (at_col r "album")) musics in
  let musics := map_rows double_check musics in
  let musics := assign "artist" strip_marker musics in
  let musics := assign "artist" (fun r => strip_ads (at_col r "artist")) musics in
  let musics := assign "title" (fun r => strip_ads (at_col r "title")) musics in
  musics.

(** What [normalise] does to one row. *)
Definition normalise_row (r : row) : row :=
  upd "title" (fun r => strip_ads (at_col r "title"))
    (upd "artist" (fun r => strip_ads (at_col r "artist"))
      (upd "artist" strip_marker
        (double_check
          (upd "album" (fun r => strip_ads (at_col r "album"))
            (upd "album" filter_album
              (upd "albumartist" (fun r => strip_ads (at_col r "albumartist"))
                (upd "albumartist" filter_albumartist
                  (upd "genre" (fun r => strip_ads (at_col r "genre"))
                    (upd "genre" filter_genre
                      (upd "tracknumber" filter_tracknumber
                        (upd "discnumber" filter_discnumber
                          (upd "date" filter_date
                            (upd "bpm" filter_bpm
                              (upd "date" consolidate_date r)))))))))))))).

Definition generate_music_info : M World Sheet :=
  let* addrs := get_music_addrs false in
  let* musics := read_files addrs [] in
  let musics := from_records musics in
  do modify (set_music_info_before_file musics) then
  if has_column "originaldate" musics
  then
    let musics := normalise musics in
    (* highlight rows containing data that needs to be fixed by user *)
    let* sheet := _do_highlight musics in
    do to_excel sheet then
    ret sheet
  else raise KeyError.

(** *** Apply phase *)

(** [os.path.exists(f)]. *)
Definition os_path_exists (f : Path) : M World bool :=
  let* w := get in ret (bool_decide (is_Some (disk w !! f))).

(** [input('Accept? [n(a)] [y(a)]')]. *)
Definition input (file : Path) : M World pystr :=
  let* w := get in
  match stdin w with
  | [] => raise EOFError
  | answer :: rest =>
      do modify (fun w => add_log (Prompt file) (set_stdin rest w)) then
      ret answer
  end.

(** [os.remove(file)]: it raises when the file is missing or cannot be
    removed. *)
Definition os_remove (file : Path) : M World unit :=
  do modify (add_log (OsRemove file)) then
  let* w := get in
  match disk w !! file with
  | Some _ =>
      if remove_fails (faults w) file then raise OtherException
      else modify (set_disk (delete file))
  | None => raise FileNotFoundError
  end.

(** The world after [os.remove(file)] inside [try ... except: pass], and
    after a prompt that was answered. *)
Definition after_os_remove (file : Path) (w : World) : World :=
  let w1 := add_log (OsRemove file) w in
  match disk w !! file with
  | Some _ =>
      if remove_fails (faults w) file then w1 else set_disk (delete file) w1
  | None => w1
  end.

Definition after_prompt (file : Path) (rest : list pystr) (w : World) : World :=
  add_log (Prompt file) (set_stdin rest w).

(** Between [w] and [w'] the program called [os.remove(file)] as its last
    step on the world, and the disk is what that call leaves: without the
    file when it was there and could be removed, unchanged when the call
    raised. *)
Definition removal_attempted (file : Path) (w w' : World) : Prop :=
  (exists before, log w' = log w ++ before ++ [OsRemove file]) /\
  disk w' =
    match disk w !! file with
    | Some _ => if remove_fails (faults w) file then disk w else delete file (disk w)
    | None => disk w
    end.

Definition startswith_y (permission : pystr) : bool :=
  match permission with
  | 121 :: _ => true
  | _ => false
  end.

Definition _remove_file_with_permission (file : Path) (permission : option pystr)
    : M World pystr :=
  let* permission :=
    match permission with
    | Some p =>
        if bool_decide (p ∈ [py "na"; py "ya"]) then ret p else input file
    | None => input file
    end in
  if startswith_y permission
  then do try_pass (os_remove file) then ret permission
  else ret permission.

(** The class of [re.subn(..., '', new_name + file.suffix)]: the characters
    a file name cannot hold (code point 34 is the double quote). *)
Definition illegal (c : N) : bool := Char.in_chars "<>:/\!?*|" c || (c =? 34).

Definition _gen_new_file_name (file : Path) (new_name : pystr) : Path :=
  Paths.joinpath (Paths.parent file)
    (Re.sub (Re.Star illegal) [] (new_name ++ Paths.suffix file)).

(** The state of the loop over the records: the world, the four
    permissions, the list of record dicts (the loop changes them in place)
    and the indices to pop. *)
Record Loop := {
  world : World;
  permission_remove_deleted : option pystr;
  permission_remove_not_found : option pystr;
  permission_remove_rename_error : option pystr;
  permission_remove_edit_error : option pystr;
  musics : list (gmap pystr cell);
  to_pop : list nat
}.

Definition set_world (w : World) (l : Loop) : Loop :=
  {| world := w;
     permission_remove_deleted := permission_remove_deleted l;
     permission_remove_not_found := permission_remove_not_found l;
     permission_remove_rename_error := permission_remove_rename_error l;
     permission_remove_edit_error := permission_remove_edit_error l;
     musics := musics l; to_pop := to_pop l |}.

Definition set_permission_remove_not_found (p : pystr) (l : Loop) : Loop :=
  {| world := world l;
     permission_remove_deleted := permission_remove_deleted l;
     permission_remove_not_found := Some p;
     permission_remove_rename_error := permission_remove_rename_error l;
     permission_remove_edit_error := permission_remove_edit_error l;
     musics := musics l; to_pop := to_pop l |}.

Definition set_permission_remove_rename_error (p : pystr) (l : Loop) : Loop :=
  {| world := world l;
     permission_remove_deleted := permission_remove_deleted l;
     permission_remove_not_found := permission_remove_not_found l;
     permission_remove_rename_error := Some p;
     permission_remove_edit_error := permission_remove_edit_error l;
     musics := musics l; to_pop := to_pop l |}.

Definition set_permission_remove_edit_error (p : pystr) (l : Loop) : Loop :=
  {| world := world l;
     permission_remove_deleted := permission_remove_deleted l;
     permission_remove_not_found := permission_remove_not_found l;
     permission_remove_rename_error := permission_remove_rename_error l;
     permission_remove_edit_error := Some p;
     musics := musics l; to_pop := to_pop l |}.

Definition set_musics (ms : list (gmap pystr cell)) (l : Loop) : Loop :=
  {| world := world l;
     permission_remove_deleted := permission_remove_deleted l;
     permission_remove_not_found := permission_remove_not_found l;
     permission_remove_rename_error := permission_remove_rename_error l;
     permission_remove_edit_error := permission_remove_edit_error l;
     musics := ms; to_pop := to_pop l |}.

(** [to_pop.append(i)]. *)
Definition to_pop_append (i : nat) (l : Loop) : Loop :=
  {| world := world l;
     permission_remove_deleted := permission_remove_deleted l;
     permission_remove_not_found := permission_remove_not_found l;
     permission_remove_rename_error := permission_remove_rename_error l;
     permission_remove_edit_error := permission_remove_edit_error l;
     musics := musics l; to_pop := to_pop l ++ [i] |}.

(** A step on the world, inside the loop. *)
Definition lift {A} (m : M World A) : M Loop A :=
  fun l =>
    match m (world l) with
    | Ok a w => Ok a (set_world w l)
    | Raise e w => Raise e (set_world w l)
    end.

(** [music[k]]. *)
Definition item {S : Type} (music : row) (k : string) : M S cell :=
  match music !! py k with
  | Some v => ret v
  | None => raise KeyError
  end.

(** The dict at position [i] of [musics], and a change made to it. *)
Definition music_at (i : nat) : M Loop row :=
  let* l := get in
  match musics l !! i with
  | Some music => ret music
  | None => raise IndexError
  end.

Definition music_update (i : nat) (f : row -> row) : M Loop unit :=
  modify (fun l => set_musics (alter f i (musics l)) l).

(** [Path(music['file'])]. *)
Definition Path_of_cell {S : Type} (x : cell) : M S Path :=
  match x with
  | Str s => ret (Paths.Path_of_str s)
  | _ => raise TypeError
  end.

(** [music.update(json.loads(music['miscellaneous']))]. *)
Definition merge_miscellaneous (i : nat) : M Loop unit :=
  let* music := music_at i in
  let* misc := item music "miscellaneous" in
  match misc with
  | Str s =>
      match json_loads s with
      | Some d => music_update i (fun m => foldl (fun m kv => <[fst kv := snd kv]> m) m d)
      | None => raise JSONDecodeError
      end
  | _ => raise TypeError
  end.

(** The dict of the tags to write. *)
Definition new_tags_of (music : row) : gmap pystr (list cell) :=
  (fun v => [v]) <$>
    filter (fun kv =>
              (kv.1 ∉ [py "file"; py "miscellaneous"] ++ information_columns)
              /\ (truthy kv.2 = true)) music.

(** What the renaming step decides for a record whose file exists: the
    name to give the file, or [None] when both candidates are taken and the
    loop goes on to the next record. *)
Definition choose_file_name (i : nat) (f : Path) (music : row)
    : M Loop (option Path) :=
  let* title := item music "title" in
  let* both :=
    if truthy title
    then let* artist := item music "artist" in ret (truthy artist)
    else ret false in
  if both
  then
    let new_file_name := _gen_new_file_name f (py_str title) in
    let* taken := lift (os_path_exists new_file_name) in
    if bool_decide (new_file_name <> f) && taken
    then
      let* artist := item music "artist" in
      let new_file_name :=
        _gen_new_file_name f (py_str artist ++ [45] ++ py_str title) in
      let* taken := lift (os_path_exists new_file_name) in
      if bool_decide (new_file_name <> f) && taken
      then
        let* l := get in
        let* p := lift (_remove_file_with_permission f
                          (permission_remove_rename_error l)) in
        do modify (set_permission_remove_rename_error p) then
        do (if startswith_y p then modify (to_pop_append i) else ret tt) then
        ret None
      else ret (Some new_file_name)
    else ret (Some new_file_name)
  else ret (Some f).

(** [f.rename(new_file_name)] inside its [try]: on success the record
    follows the file. *)
Definition rename_file (i : nat) (f new_file_name : Path) : M Loop Path :=
  do lift (modify (add_log (OsRename f new_file_name))) then
  let* l := get in
  let w := world l in
  match disk w !! f with
  | Some content =>
      if rename_fails (faults w) f new_file_name then ret f
      else
        do lift (modify (set_disk (fun d => <[new_file_name := content]> (delete f d)))) then
        do music_update i (fun m => <[py "file" := Str (Paths.str_of_Path new_file_name)]> m) then
        ret new_file_name
  | None => ret f
  end.

(** [mutagen.File(f, easy=True)], the comparison with the new tags and
    the write. *)
Definition write_tags (i : nat) (f : Path) : M Loop unit :=
  let* l := get in
  let* music := music_at i in
  let new_tags := new_tags_of music in
  match disk (world l) !! f with
  | None | Some Unreadable => raise MutagenError
  | Some Unrecognised => raise AttributeError
  | Some (Audio tags bitrate len) =>
      if bool_decide (tags = new_tags) then ret tt
      else
        (* remove all tags from music, add our tags *)
        do lift (modify (add_log (TagsClear f))) then
        do lift (modify (add_log (TagsUpdate f new_tags))) then
        (* save music with new tags *)
        do lift (modify (add_log (TagsSave f))) then
        match save_outcome (faults (world l)) f with
        | SaveOk =>
            lift (modify (set_disk (fun d => <[f := Audio new_tags bitrate len]> d)))
        | SaveOtherError => raise OtherException
        | SavePermissionError =>
            let* l := get in
            let* p := lift (_remove_file_with_permission f
                              (permission_remove_edit_error l)) in
            do modify (set_permission_remove_edit_error p) then
            if startswith_y p then modify (to_pop_append i) else ret tt
        end
  end.

(** The body of [for i, music in enumerate(musics)]. *)
Definition process (allow_miscellaneous : bool) (i : nat) : M Loop unit :=
  let* music := music_at i in
  let* file := item music "file" in
  let* f := Path_of_cell file in
  let* found := lift (os_path_exists f) in
  if negb found
  then
    let* l := get in
    let* p := lift (_remove_file_with_permission f (permission_remove_not_found l)) in
    do modify (set_permission_remove_not_found p) then
    if startswith_y p then modify (to_pop_append i) else ret tt
  else
    do (if allow_miscellaneous then merge_miscellaneous i else ret tt) then
    let* music := music_at i in
    let* chosen := choose_file_name i f music in
    match chosen with
    | None => ret tt
    | Some new_file_name =>
        let* f :=
          if bool_decide (new_file_name <> f)
          then rename_file i f new_file_name
          else ret f in
        write_tags i f
    end.

(** [musics.pop(_id)] for every [_id] of [to_pop], in that order. *)
Fixpoint pop_all {A} (to_pop : list nat) (musics : list A) : option (list A) :=
  match to_pop with
  | [] => Some musics
  | _id :: rest =>
      if (_id <? length musics)%nat then pop_all rest (delete _id musics) else None
  end.

(** The four permissions as [apply_tags] receives them. *)
Record Permissions := {
  remove_deleted : option pystr;
  remove_not_found : option pystr;
  remove_rename_error : option pystr;
  remove_edit_error : option pystr
}.

(** The loop over the orphans: files of the catalog that no record names. *)
Fixpoint remove_orphans (orphans : list pystr) (permission : option pystr)
    : M World (option pystr) :=
  match orphans with
  | [] => ret permission
  | f :: rest =>
      let* p := _remove_file_with_permission (Paths.Path_of_str f) permission in
      remove_orphans rest (Some p)
  end.

(** The loop over the records inside its [try ... except Exception]. *)
Definition run_loop (allow_miscellaneous : bool) (start : Loop) : Loop :=
  match try_pass
          (for_each (seq 0 (length (musics start))) (process allow_miscellaneous))
          start with
  | Ok _ l => l
  | Raise _ l => l
  end.

Definition apply_tags (permissions : Permissions) (allow_miscellaneous : bool)
    : M World unit :=
  let* frame := read_music_info in
  (* detect and remove deleted musics *)
  let* addrs := get_music_addrs false in
  if negb (has_column "file" frame) then raise KeyError
  else
    let files := map (fun ir => at_col ir.2 "file") (rows frame) in
    let orphans := filter (fun a => Str a ∉ files) addrs in
    let* permission_remove_deleted :=
      remove_orphans orphans (remove_deleted permissions) in
    let* w := get in
    let l := run_loop allow_miscellaneous
      {| world := w;
         permission_remove_deleted := permission_remove_deleted;
         permission_remove_not_found := remove_not_found permissions;
         permission_remove_rename_error := remove_rename_error permissions;
         permission_remove_edit_error := remove_edit_error permissions;
         musics := to_dict_records frame;
         to_pop := [] |} in
    do modify (fun _ => world l) then
    match pop_all (to_pop l) (musics l) with
    | None => raise IndexError
    | Some popped =>
        let* sheet := _do_highlight (from_records popped) in
        to_excel sheet
    end.

End WithPython.
End Organizer.

(** ** Concrete inputs

    An interpreter whose tables hold nothing outside ASCII, and small
    worlds on which the definitions above are run. *)
Module Examples.
Import Frame Organizer.

#[export] Instance ascii_only : Python := {|
  uni_alnum := fun _ => false;
  uni_space := fun _ => false;
  uni_numeric := fun _ => false;
  uni_decimal := fun _ => false;
  uni_caseless := fun l c => l =? c;
  uni_lower := fun s => s;
  repr_dict := fun _ => py "{}";
  json_loads := fun _ => None
|}.

(** An interpreter whose tables hold, outside ASCII, the one code point
    U+00BD (the vulgar fraction one half), as CPython has it: numeric for
    [str.isnumeric], alphanumeric for [str.isalnum], and no decimal for
    [str.isdecimal]. *)
Definition one_half_numeric : Python := {|
  uni_alnum := fun c => c =? 0xBD;
  uni_space := fun _ => false;
  uni_numeric := fun c => c =? 0xBD;
  uni_decimal := fun _ => false;
  uni_caseless := fun l c => l =? c;
  uni_lower := fun s => s;
  repr_dict := fun _ => py "{}";
  json_loads := fun _ => None
|}.

Definition no_faults : Faults := {|
  remove_fails := fun _ => false;
  rename_fails := fun _ _ => false;
  save_outcome := fun _ => SaveOk;
  info_fails := fun _ => false
|}.

(** A reviewed record with the three columns the loop reads. *)
Definition mk_music (file : string) (title artist : cell) : row :=
  list_to_map
    [(py "file", Str (py file)); (py "title", title); (py "artist", artist)].

Definition tags_of (l : list (string * string)) : gmap pystr (list cell) :=
  list_to_map (map (fun kv => (py kv.1, [Str (py kv.2)])) l).

Definition mk_world (tree : list (pystr * list pystr))
    (files : list (string * Content)) (faults : Faults)
    (stdin : list string) (store : option Sheet) : World :=
  {| tree := tree;
     faults := faults;
     disk := list_to_map (map (fun fc => (Paths.Path_of_str (py fc.1), fc.2)) files);
     stdin := map py stdin;
     log := [];
     addrs_file := None;
     music_info_before_file := None;
     music_info_file := store |}.

(** Three reviewed records; the files of the first two are gone from the
    disk, the third is there with the tags of its record.  The user
    answers "ya". *)
Definition three_records : list row :=
  [mk_music "m/a.mp3" (Str (py "a")) (Str (py "x"));
   mk_music "m/b.mp3" (Str (py "b")) (Str (py "x"));
   mk_music "m/c.mp3" (Str (py "c")) (Str (py "x"))].

Definition two_gone : World :=
  mk_world [(py "m", [py "c.mp3"])]
    [("m/c.mp3"%string,
      Audio (tags_of [("title", "c"); ("artist", "x")]%string) 128000 (py "03:00"))]
    no_faults ["ya"%string]
    (Some {| data := from_records three_records; red := [] |}).

(** A record with a track number, alone in its frame. *)
Definition third_of_twelve : row :=
  <[py "tracknumber" := Str (py "3/12")]>
    (mk_music "m/a.mp3" (Str (py "a")) (Str (py "x"))).

(** One audio file with an album, an original date and a track number. *)
Definition one_file : World :=
  mk_world [(py "m", [py "song.mp3"; py "notes.txt"; py "trackmp3"])]
    [("m/song.mp3"%string,
      Audio (tags_of [("title", "Song"); ("artist", "Band [band.com]");
                      ("album", "Hits"); ("originaldate", "2019-04-01T10:00:00");
                      ("date", "2020"); ("tracknumber", "3/12");
                      ("discnumber", "A1")]%string) 320000 (py "03:25"))]
    no_faults [] None.

(** Four records: the second has no title, the third no artist. *)
Definition mixed_records : list row :=
  [mk_music "m/a.mp3" (Str (py "a")) (Str (py "x"));
   mk_music "m/b.mp3" Null (Str (py "x"));
   mk_music "m/c.mp3" (Str (py "c")) Null;
   mk_music "m/d.mp3" (Str (py "d")) (Str (py "x"))].

(** A record whose two candidate names are both taken by other files;
    the user answers "y". *)
Definition song : row :=
  mk_music "m/old.mp3" (Str (py "Song")) (Str (py "Artist")).

Definition names_taken : World :=
  mk_world [(py "m", [py "old.mp3"; py "Song.mp3"; py "Artist-Song.mp3"])]
    [("m/old.mp3"%string, Audio (tags_of [("title", "old")]%string) 128000 (py "03:00"));
     ("m/Song.mp3"%string, Audio ∅ 128000 (py "03:00"));
     ("m/Artist-Song.mp3"%string, Audio ∅ 128000 (py "03:00"))]
    no_faults ["y"%string] None.

(** The same record with its file alone on the disk, and a disk that
    refuses the save with a permission error. *)
Definition read_only : Faults := {|
  remove_fails := fun _ => false;
  rename_fails := fun _ _ => false;
  save_outcome := fun _ => SavePermissionError;
  info_fails := fun _ => false
|}.

Definition song_alone (faults : Faults) : World :=
  mk_world [(py "m", [py "Song.mp3"])]
    [("m/Song.mp3"%string, Audio (tags_of [("title", "old")]%string) 128000 (py "03:00"))]
    faults ["y"%string] None.

Definition song_renamed : row :=
  mk_music "m/Song.mp3" (Str (py "Song")) (Str (py "Artist")).

(** The state of the loop at its start. *)
Definition start (w : World) (records : list row) : Loop :=
  {| world := w;
     permission_remove_deleted := None;
     permission_remove_not_found := None;
     permission_remove_rename_error := None;
     permission_remove_edit_error := None;
     musics := records;
     to_pop := [] |}.

Definition ask_every_time : Permissions :=
  {| remove_deleted := None; remove_not_found := None;
     remove_rename_error := None; remove_edit_error := None |}.

End Examples.

(** ** More inputs

    What is needed to state how the phases behave on whole runs. *)
Module Scenarios.
Import Frame Organizer Examples.

(** The files [mutagen.File(file, easy=True)] opens and whose tags can be
    read: the loop of [generate_music_info] passes over the others.  Those
    among them whose stream info has no bitrate make the loop raise. *)
Definition readable (w : World) (file : pystr) : bool :=
  match disk w !! Paths.Path_of_str file with
  | Some (Audio _ _ _) => true
  | _ => false
  end.

Definition info_raises (w : World) (file : pystr) : bool :=
  readable w file && info_fails (faults w) (Paths.Path_of_str file).

(** A disk that refuses every save with an error that is not a permission
    error. *)
Definition unwritable : Faults := {|
  remove_fails := fun _ => false;
  rename_fails := fun _ _ => false;
  save_outcome := fun _ => SaveOtherError;
  info_fails := fun _ => false
|}.

(** Two records: the file of the first is there, the file of the second
    is gone. *)
Definition two_songs : list row :=
  [song_renamed; mk_music "m/gone.mp3" (Str (py "Gone")) (Str (py "Artist"))].

(** A disk on which no stream info has a bitrate, and the file of
    [song_alone] on it. *)
Definition no_bitrate : Faults := {|
  remove_fails := fun _ => false;
  rename_fails := fun _ _ => false;
  save_outcome := fun _ => SaveOk;
  info_fails := fun _ => true
|}.

(** A review sheet with the one record [gone], whose file is not on the
    disk, and permissions that grant every removal but that of the
    orphans. *)
Definition gone : row :=
  mk_music "m/gone.mp3" (Str (py "Gone")) (Str (py "Artist")).

Definition last_record : World :=
  mk_world [] [] no_faults [] (Some {| data := from_records [gone]; red := [] |}).

Definition yes_to_all_but_orphans : Permissions :=
  {| remove_deleted := Some (py "na"); remove_not_found := Some (py "ya");
     remove_rename_error := Some (py "ya"); remove_edit_error := Some (py "ya") |}.

(** The file of [song] alone on the disk. *)
Definition old_alone : World :=
  mk_world [(py "m", [py "old.mp3"])]
    [("m/old.mp3"%string, Audio (tags_of [("title", "old")]%string) 128000 (py "03:00"))]
    no_faults [] None.

End Scenarios.

(** ** What a step leaves alone

    The parts of the world that are neither music files, nor the input,
    nor the log: the directory listing, the faults of the disk and the
    three files of the organizer. *)
Module Footprint.
Import Organizer.

Definition untouched (w w' : World) : Prop :=
  tree w' = tree w /\ faults w' = faults w /\ addrs_file w' = addrs_file w /\
  music_info_before_file w' = music_info_before_file w /\
  music_info_file w' = music_info_file w.

(** The same for the state of the loop, which in addition keeps the number
    of its records. *)
Definition loop_untouched (l l' : Loop) : Prop :=
  untouched (world l) (world l') /\ length (musics l') = length (musics l).

Definition world_keeps {A : Type} (m : M World A) : Prop :=
  forall w, untouched w (final (m w)).

Definition keeps {A : Type} (m : M Loop A) : Prop :=
  forall l, loop_untouched l (final (m l)).

End Footprint.
(** ** Facts about the matcher *)
Module ReFacts.
Import Re.

Section Matcher.
Context {A : Type}.
Implicit Types (k : pystr -> option A) (s w : pystr).

Lemma star_sound p s k a :
  star p s k = Some a ->
  exists w s', s = w ++ s' /\ forallb p w = true /\ k s' = Some a.
Proof.
  induction s as [|c s IH]; simpl; intros H.
  - exists [], []. auto.
  - destruct (p c) eqn:Hp.
    + destruct (star p s k) as [a'|] eqn:Hs.
      * injection H as ->. destruct (IH eq_refl) as (w & s' & -> & Hw & Hk).
        exists (c :: w), s'. simpl. rewrite Hp, Hw. auto.
      * exists [], (c :: s). auto.
    + exists [], (c :: s). auto.
Qed.

Lemma star_complete p s k :
  star p s k = None ->
  forall w s', s = w ++ s' -> forallb p w = true -> k s' = None.
Proof.
  induction s as [|c s IH]; simpl; intros H w s' Hs Hw.
  - destruct w; [simpl in Hs; subst; auto | discriminate].
  - destruct w as [|c' w]; simpl in *.
    + subst s'. destruct (p c); [destruct (star p s k); [discriminate | auto] | auto].
    + injection Hs as <- ->. apply andb_prop in Hw as [Hc Hw]. rewrite Hc in H.
      destruct (star p (w ++ s') k) eqn:Hst; [discriminate|].
      eapply IH; eauto.
Qed.

Lemma rep_sound p hi : forall lo s k a,
  rep p lo hi s k = Some a ->
  exists w s', s = w ++ s' /\ forallb p w = true /\
               (lo <= length w <= hi)%nat /\ k s' = Some a.
Proof.
  induction hi as [|hi IH]; intros lo s k a H.
  - simpl in H. destruct lo; [|discriminate].
    exists [], s. simpl. repeat split; auto.
  - assert (Hstop : match lo with O => k s | S _ => None end = Some a ->
              exists w s', s = w ++ s' /\ forallb p w = true /\
                (lo <= length w <= S hi)%nat /\ k s' = Some a).
    { destruct lo; [|discriminate]. intros Hk.
      exists [], s. simpl. repeat split; auto; lia. }
    simpl in H. destruct s as [|c s]; [auto|].
    destruct (p c) eqn:Hp; [|auto].
    destruct (rep p (Nat.pred lo) hi s k) as [a'|] eqn:Hr; [|auto].
    injection H as ->.
    destruct (IH _ _ _ _ Hr) as (w & s' & -> & Hw & Hlen & Hk).
    exists (c :: w), s'. simpl. rewrite Hp, Hw. repeat split; auto; lia.
Qed.

Lemma rep_complete p hi : forall lo s k,
  rep p lo hi s k = None ->
  forall w s', s = w ++ s' -> forallb p w = true ->
               (lo <= length w <= hi)%nat -> k s' = None.
Proof.
  induction hi as [|hi IH]; intros lo s k H w s' Hs Hw Hlen.
  - destruct w; [|simpl in Hlen; lia].
    simpl in *. subst s'. destruct lo; [auto | lia].
  - simpl in H. destruct w as [|c w]; simpl in *.
    + subst s'. assert (lo = O) as -> by lia.
      destruct s as [|c s]; [auto|].
      destruct (p c); [|auto].
      destruct (rep p (Nat.pred 0) hi s k); [discriminate | auto].
    + subst s. apply andb_prop in Hw as [Hc Hw]. rewrite Hc in H.
      destruct (rep p (Nat.pred lo) hi (w ++ s') k) eqn:Hr; [discriminate|].
      eapply IH; eauto. lia.
Qed.

Lemma bt_sound r : forall s k a,
  bt r s k = Some a ->
  exists w s', s = w ++ s' /\ lang r w /\ k s' = Some a.
Proof.
  induction r as [|p|r1 IH1 r2 IH2|r1 IH1 r2 IH2|r1 IH1|p|p lo hi];
    intros s k a H; simpl in H.
  - exists [], s. simpl. auto.
  - destruct s as [|c s]; [discriminate|].
    destruct (p c) eqn:Hp; [|discriminate].
    exists [c], s. simpl. eauto.
  - destruct (IH1 _ _ _ H) as (w1 & s1 & -> & Hw1 & Hk1).
    destruct (IH2 _ _ _ Hk1) as (w2 & s2 & -> & Hw2 & Hk2).
    exists (w1 ++ w2), s2. rewrite <- app_assoc. simpl. eauto 7.
  - destruct (bt r1 s k) as [a'|] eqn:H1.
    + injection H as ->. destruct (IH1 _ _ _ H1) as (w & s' & ? & ? & ?).
      exists w, s'. simpl. auto.
    + destruct (IH2 _ _ _ H) as (w & s' & ? & ? & ?).
      exists w, s'. simpl. auto.
  - destruct (bt r1 s k) as [a'|] eqn:H1.
    + injection H as ->. destruct (IH1 _ _ _ H1) as (w & s' & ? & ? & ?).
      exists w, s'. simpl. auto.
    + exists [], s. simpl. auto.
  - destruct (star_sound _ _ _ _ H) as (w & s' & ? & ? & ?).
    exists w, s'. simpl. auto.
  - destruct (rep_sound _ _ _ _ _ _ H) as (w & s' & ? & ? & ? & ?).
    exists w, s'. simpl. auto.
Qed.

Lemma bt_complete r : forall s k,
  bt r s k = None ->
  forall w s', s = w ++ s' -> lang r w -> k s' = None.
Proof.
  induction r as [|p|r1 IH1 r2 IH2|r1 IH1 r2 IH2|r1 IH1|p|p lo hi];
    intros s k H w s' Hs Hw; simpl in H, Hw.
  - subst. auto.
  - destruct Hw as (c & -> & Hp). subst s. simpl in H. rewrite Hp in H. auto.
  - destruct Hw as (w1 & w2 & -> & Hw1 & Hw2). rewrite <- app_assoc in Hs.
    pose proof (IH1 _ _ H _ _ Hs Hw1) as H2. simpl in H2.
    eapply IH2; eauto.
  - destruct (bt r1 s k) eqn:H1; [discriminate|].
    destruct Hw as [Hw|Hw]; [eapply IH1 | eapply IH2]; eauto.
  - destruct (bt r1 s k) eqn:H1; [discriminate|].
    destruct Hw as [Hw| ->]; [eapply IH1; eauto | simpl in Hs; subst; auto].
  - eapply star_complete; eauto.
  - destruct Hw as [Hw Hlen]. eapply rep_complete; eauto.
Qed.
End Matcher.

Lemma match_at_Some r s rest :
  match_at r s = Some rest -> exists w, s = w ++ rest /\ lang r w.
Proof.
  intros H. destruct (bt_sound _ _ _ _ H) as (w & s' & -> & Hw & Hk).
  injection Hk as ->. eauto.
Qed.

Lemma match_at_None r s :
  match_at r s = None -> forall w s', s = w ++ s' -> ~ lang r w.
Proof.
  intros H w s' Hs Hw. pose proof (bt_complete _ _ _ H _ _ Hs Hw). discriminate.
Qed.

Lemma lang_nonempty r w : nullable r = false -> lang r w -> w <> [].
Proof.
  revert w. induction r as [|p|r1 IH1 r2 IH2|r1 IH1 r2 IH2|r1 IH1|p|p lo hi];
    simpl; intros w Hn Hw; try discriminate.
  - destruct Hw as (c & -> & _). discriminate.
  - destruct Hw as (w1 & w2 & -> & Hw1 & Hw2). intros Happ.
    apply app_eq_nil in Happ as [-> ->].
    apply andb_false_iff in Hn as [Hn|Hn]; [eapply IH1 | eapply IH2]; eauto.
  - apply orb_false_iff in Hn as [Hn1 Hn2].
    destruct Hw; [eapply IH1 | eapply IH2]; eauto.
  - destruct lo; [discriminate|]. destruct Hw as [_ Hlen].
    intros ->. simpl in Hlen. lia.
Qed.

Lemma lang_avoids x r w : avoids x r = true -> lang r w -> ~ In x w.
Proof.
  assert (Hall : forall p l, negb (p x) = true -> forallb p l = true -> ~ In x l).
  { intros p l Hp Hl Hin. rewrite forallb_forall in Hl.
    rewrite (Hl _ Hin) in Hp. discriminate. }
  revert w. induction r as [|p|r1 IH1 r2 IH2|r1 IH1 r2 IH2|r1 IH1|p|p lo hi];
    simpl; intros w Ha Hw.
  - subst. auto.
  - destruct Hw as (c & -> & Hp). intros [<-|[]]. rewrite Hp in Ha. discriminate.
  - apply andb_prop in Ha as [Ha1 Ha2].
    destruct Hw as (w1 & w2 & -> & Hw1 & Hw2). rewrite in_app_iff.
    intros [Hin|Hin]; [eapply IH1 | eapply IH2]; eauto.
  - apply andb_prop in Ha as [Ha1 Ha2]. destruct Hw; eauto.
  - destruct Hw as [Hw| ->]; eauto.
  - eauto.
  - destruct Hw. eauto.
Qed.

End ReFacts.

(** ** Ad-text stripping is idempotent *)
Module UtilsFacts.
Import Re ReFacts Utils PyStr.

Section WithPython.
Context {U : Python}.
Implicit Types (s t w y : pystr).

(** *** [str.strip] *)

Lemma lstrip_suffix s : exists l, s = l ++ lstrip s.
Proof.
  induction s as [|c s [l IH]]; simpl.
  - exists []. reflexivity.
  - destruct (Char.is_space c).
    + exists (c :: l). simpl. congruence.
    + exists []. reflexivity.
Qed.

Lemma rstrip_prefix s : exists e, s = rstrip s ++ e.
Proof.
  induction s as [|c s [e IH]]; simpl.
  - exists []. reflexivity.
  - destruct (rstrip s) as [|c' r] eqn:Hr.
    + destruct (Char.is_space c).
      * exists (c :: s). reflexivity.
      * exists s. reflexivity.
    + exists e. simpl in *. congruence.
Qed.

Lemma lstrip_head s :
  lstrip s = [] \/ exists c r, lstrip s = c :: r /\ Char.is_space c = false.
Proof.
  induction s as [|c s IH]; simpl; [auto|].
  destruct (Char.is_space c) eqn:Hc; [auto|]. right. eauto.
Qed.

Lemma rstrip_head c s :
  Char.is_space c = false -> exists r, rstrip (c :: s) = c :: r.
Proof.
  intros Hc. simpl. destruct (rstrip s); rewrite ?Hc; eauto.
Qed.

Lemma rstrip_idem s : rstrip (rstrip s) = rstrip s.
Proof.
  induction s as [|c s IH]; simpl; [reflexivity|].
  destruct (rstrip s) as [|c' r] eqn:Hr.
  - destruct (Char.is_space c) eqn:Hc; simpl; rewrite ?Hc; reflexivity.
  - change (rstrip (c :: c' :: r) = c :: c' :: r).
    change (rstrip (c :: c' :: r)) with
      (match rstrip (c' :: r) with
       | [] => if Char.is_space c then [] else [c]
       | r' => c :: r'
       end).
    rewrite IH. reflexivity.
Qed.

Lemma strip_idem s : strip (strip s) = strip s.
Proof.
  unfold strip. destruct (lstrip_head s) as [-> | (c & r & -> & Hc)].
  - reflexivity.
  - destruct (rstrip_head c r Hc) as [r' Hr]. rewrite Hr.
    simpl lstrip. rewrite Hc, <- Hr. apply rstrip_idem.
Qed.

Lemma strip_infix s : exists l e, s = l ++ strip s ++ e.
Proof.
  unfold strip. destruct (lstrip_suffix s) as [l Hl].
  destruct (rstrip_prefix (lstrip s)) as [e He].
  exists l, e. rewrite <- He. exact Hl.
Qed.

(** *** Tokens *)

Lemma token_not_nullable : nullable token = false.
Proof. reflexivity. Qed.

Lemma token_avoids_space : avoids 32 token = true.
Proof. vm_compute. reflexivity. Qed.

Lemma ad_regex_not_nullable : nullable ad_regex = false.
Proof. reflexivity. Qed.

Lemma tokstart_app t e : tokstart t -> tokstart (t ++ e).
Proof.
  intros (tok & rest & -> & Htok). exists tok, (rest ++ e).
  rewrite app_assoc. auto.
Qed.

Lemma tokstart_head t :
  tokstart t -> exists c t', t = c :: t' /\ c <> 32.
Proof.
  intros (tok & rest & -> & Htok).
  pose proof (lang_nonempty _ _ token_not_nullable Htok) as Hne.
  pose proof (lang_avoids _ _ _ token_avoids_space Htok) as Hsp.
  destruct tok as [|c tok]; [congruence|].
  exists c, (tok ++ rest). split; [reflexivity|].
  intros ->. apply Hsp. left. reflexivity.
Qed.

Lemma label_empty : lang label [].
Proof. right. reflexivity. Qed.

Lemma tokstart_match t : tokstart t -> match_at ad_regex t <> None.
Proof.
  intros (tok & rest & -> & Htok) Hnone.
  apply (match_at_None _ _ Hnone tok rest eq_refl).
  exists [], tok. split; [reflexivity|]. split; [exact label_empty|].
  exists [], tok. split; [reflexivity|]. split; [reflexivity|].
  exists tok, []. split; [symmetry; apply app_nil_r|]. split; [exact Htok|].
  reflexivity.
Qed.

Lemma match_tokstart t rest :
  match_at ad_regex t = Some rest -> exists a t', t = a ++ t' /\ tokstart t'.
Proof.
  intros H. destruct (match_at_Some _ _ _ H) as (w & -> & Hw).
  destruct Hw as (w1 & w' & -> & _ & w2 & w'' & -> & _ & tok & w3 & -> & Htok & _).
  exists (w1 ++ w2), (tok ++ w3 ++ rest). split.
  - rewrite <- !app_assoc. reflexivity.
  - exists tok, (w3 ++ rest). auto.
Qed.

(** *** The substitution *)

Lemma match_at_consumes c s rest :
  match_at ad_regex (c :: s) = Some rest ->
  (length (c :: s) - length rest = S (length s - length rest))%nat.
Proof.
  intros H. destruct (match_at_Some _ _ _ H) as (w & Hs & Hw).
  pose proof (lang_nonempty _ _ ad_regex_not_nullable Hw) as Hne.
  destruct w as [|c' w]; [congruence|].
  apply (f_equal (@length N)) in Hs. rewrite length_app in Hs. simpl in *. lia.
Qed.

Lemma match_at_nil : match_at ad_regex [] = None.
Proof.
  destruct (match_at ad_regex []) as [rest|] eqn:H; [|reflexivity].
  destruct (match_at_Some _ _ _ H) as (w & Hs & Hw).
  pose proof (lang_nonempty _ _ ad_regex_not_nullable Hw) as Hne.
  symmetry in Hs. apply app_eq_nil in Hs as [-> _]. congruence.
Qed.

Lemma sub_from_cons c s :
  sub_from ad_regex [32] 0 (c :: s) =
  match match_at ad_regex (c :: s) with
  | None => c :: sub_from ad_regex [32] 0 s
  | Some rest => 32 :: sub_from ad_regex [32] (length s - length rest) s
  end.
Proof.
  change (sub_from ad_regex [32] 0 (c :: s)) with
    (match match_at ad_regex (c :: s) with
     | None => c :: sub_from ad_regex [32] 0 s
     | Some rest =>
         match (length (c :: s) - length rest)%nat with
         | S n => [32] ++ sub_from ad_regex [32] n s
         | O =>
             match match_nonempty_at ad_regex (c :: s) with
             | Some rest' =>
                 [32] ++ [32] ++
                   sub_from ad_regex [32]
                     (Nat.pred (length (c :: s) - length rest')) s
             | None => [32] ++ c :: sub_from ad_regex [32] 0 s
             end
         end
     end).
  destruct (match_at ad_regex (c :: s)) as [rest|] eqn:H; [|reflexivity].
  rewrite (match_at_consumes _ _ _ H). reflexivity.
Qed.

Lemma sub_from_nil n : sub_from ad_regex [32] n [] = [].
Proof.
  change (sub_from ad_regex [32] n []) with
    (match n, match_at ad_regex [] with
     | O, Some _ => [32]
     | _, _ => []
     end).
  rewrite match_at_nil. destruct n; reflexivity.
Qed.

(** Up to its first space the output is copied from the input. *)
Lemma sub_copies_prefix w : forall s r,
  sub_from ad_regex [32] 0 s = w ++ r -> ~ In 32 w -> exists s', s = w ++ s'.
Proof.
  induction w as [|c w IH]; intros s r H Hsp.
  - exists s. reflexivity.
  - destruct s as [|c' s].
    + rewrite sub_from_nil in H. discriminate.
    + rewrite sub_from_cons in H.
      destruct (match_at ad_regex (c' :: s)) as [rest|].
      * injection H as <- _. exfalso. apply Hsp. left. reflexivity.
      * injection H as -> H.
        destruct (IH _ _ H) as [s' ->].
        { intros Hin. apply Hsp. right. exact Hin. }
        exists s'. reflexivity.
Qed.

Lemma no_token_nil : no_token [].
Proof.
  intros a t H Ht. symmetry in H. apply app_eq_nil in H as [_ ->].
  destruct (tokstart_head _ Ht) as (c & t' & ? & _). discriminate.
Qed.

Lemma no_token_cons c y : ~ tokstart (c :: y) -> no_token y -> no_token (c :: y).
Proof.
  intros Hc Hy [|c' a] t H.
  - simpl in H. subst t. exact Hc.
  - injection H as _ H. eapply Hy; eauto.
Qed.

Lemma no_token_tail c y : no_token (c :: y) -> no_token y.
Proof. intros H a t ->. apply (H (c :: a) t). reflexivity. Qed.

Lemma sub_no_token s : forall skip, no_token (sub_from ad_regex [32] skip s).
Proof.
  induction s as [|c s IH]; intros skip.
  - rewrite sub_from_nil. exact no_token_nil.
  - destruct skip as [|n]; [|exact (IH n)].
    rewrite sub_from_cons.
    destruct (match_at ad_regex (c :: s)) as [rest|] eqn:Hm.
    + apply no_token_cons; [|apply IH].
      intros Ht. destruct (tokstart_head _ Ht) as (c' & t' & Heq & Hne).
      congruence.
    + apply no_token_cons; [|apply IH].
      intros (tok & r & Heq & Htok).
      assert (Hcopy : exists s', c :: s = tok ++ s').
      { apply (sub_copies_prefix tok (c :: s) r).
        - rewrite sub_from_cons, Hm. exact Heq.
        - exact (lang_avoids _ _ _ token_avoids_space Htok). }
      destruct Hcopy as [s' Hs'].
      apply (tokstart_match (c :: s)); [|exact Hm].
      exists tok, s'. auto.
Qed.

Lemma sub_fixes_no_token y : no_token y -> sub ad_regex [32] y = y.
Proof.
  unfold sub. induction y as [|c y IH]; intros Hy.
  - apply sub_from_nil.
  - rewrite sub_from_cons.
    destruct (match_at ad_regex (c :: y)) as [rest|] eqn:Hm.
    + exfalso. destruct (match_tokstart _ _ Hm) as (a & t & Heq & Ht).
      exact (Hy a t Heq Ht).
    + rewrite IH; [reflexivity|]. eapply no_token_tail; eauto.
Qed.

Lemma no_token_strip y : no_token y -> no_token (strip y).
Proof.
  intros Hy a t Heq Ht. destruct (strip_infix y) as (l & e & Hinf).
  apply (Hy (l ++ a) (t ++ e)).
  - rewrite Hinf at 1. rewrite Heq, <- !app_assoc. reflexivity.
  - apply tokstart_app. exact Ht.
Qed.

Lemma stripped_is_fixed s :
  let r := strip (sub ad_regex [32] s) in strip (sub ad_regex [32] r) = r.
Proof.
  intros r. rewrite sub_fixes_no_token.
  - apply strip_idem.
  - apply no_token_strip. apply sub_no_token.
Qed.

Lemma remove_websites_and_tags_cell_idem (x : cell) :
  remove_websites_and_tags_cell (remove_websites_and_tags_cell x)
  = remove_websites_and_tags_cell x.
Proof.
  destruct x as [|s|t b]; [reflexivity| |reflexivity].
  pose proof (stripped_is_fixed s) as Hfix. simpl in Hfix.
  assert (Hcell : remove_websites_and_tags_cell (Str s) =
          match strip (sub ad_regex [32] s) with
          | [] => Null
          | r => Str r
          end) by reflexivity.
  rewrite Hcell.
  destruct (strip (sub ad_regex [32] s)) as [|c r] eqn:Hr; [reflexivity|].
  unfold remove_websites_and_tags_cell. rewrite Hfix. reflexivity.
Qed.
End WithPython.
End UtilsFacts.

(** ** State and exceptions *)
Module MonadFacts.

Lemma bind_Ok {S A B} (m : M S A) (f : A -> M S B) s b s' :
  bind m f s = Ok b s' -> exists a s1, m s = Ok a s1 /\ f a s1 = Ok b s'.
Proof.
  unfold bind. destruct (m s) as [a s1|e s1]; [eauto | discriminate].
Qed.

Lemma bind_run {S A B} (m : M S A) (f : A -> M S B) s a s1 :
  m s = Ok a s1 -> bind m f s = f a s1.
Proof. unfold bind. intros ->. reflexivity. Qed.

Lemma bind_raise {S A B} (m : M S A) (f : A -> M S B) s e s1 :
  m s = Raise e s1 -> bind m f s = Raise e s1.
Proof. unfold bind. intros ->. reflexivity. Qed.

End MonadFacts.

(** ** Strings *)
Module PyStrFacts.
Import PyStr.

Lemma endswith_spec (s suffix : pystr) :
  endswith s suffix = true <-> exists prefix, s = prefix ++ suffix.
Proof.
  unfold endswith. rewrite bool_decide_eq_true. split.
  - intros H. exists (take (length s - length suffix) s).
    rewrite <- (take_drop (length s - length suffix) s) at 1. f_equal.
    exact H.
  - intros [prefix ->]. rewrite length_app.
    replace (length prefix + length suffix - length suffix)%nat
      with (length prefix) by lia.
    apply drop_app_length.
Qed.

Lemma endswith_any_spec (s : pystr) (suffixes : list pystr) :
  endswith_any s suffixes = true <->
  exists suffix, suffix ∈ suffixes /\ exists prefix, s = prefix ++ suffix.
Proof.
  unfold endswith_any. rewrite existsb_exists. split.
  - intros (x & Hin & Hx). exists x. rewrite list_elem_of_In, <- endswith_spec. auto.
  - intros (x & Hin & Hx). exists x. rewrite <- list_elem_of_In, endswith_spec. auto.
Qed.

Lemma isnumeric_spec `{Python} (s : pystr) :
  isnumeric s = true <-> s <> [] /\ Forall (fun c => Char.is_numeric c = true) s.
Proof.
  unfold isnumeric. destruct s as [|c s].
  - split; [discriminate | intros [Hne _]; congruence].
  - rewrite forallb_forall, Forall_forall. split.
    + intros Hall. split; [discriminate|]. intros x Hx. apply Hall.
      apply list_elem_of_In. exact Hx.
    + intros [_ Hall] x Hx. apply Hall. apply list_elem_of_In. exact Hx.
Qed.

End PyStrFacts.

(** ** Frames *)
Module FrameFacts.
Import Frame Organizer MonadFacts.

Lemma filter_none {A} (Q : A -> Prop) `{!forall x, Decision (Q x)} (l : list A) :
  (forall z, z ∈ l -> ~ Q z) -> filter Q l = [].
Proof.
  induction l as [|y l IH]; intros Hl; [reflexivity|].
  rewrite filter_cons, decide_False by (apply Hl; left).
  apply IH. intros z Hz. apply Hl. right. exact Hz.
Qed.

Lemma filter_same {A} (Q R : A -> Prop) `{!forall x, Decision (Q x)}
    `{!forall x, Decision (R x)} (l : list A) :
  (forall z, z ∈ l -> (Q z <-> R z)) -> filter Q l = filter R l.
Proof.
  induction l as [|y l IH]; intros Hl; [reflexivity|].
  rewrite !filter_cons.
  rewrite IH by (intros z Hz; apply Hl; right; exact Hz).
  destruct (decide (Q y)) as [Hq|Hq], (decide (R y)) as [Hr|Hr]; try reflexivity.
  - exfalso. apply Hr, (Hl y); [left | exact Hq].
  - exfalso. apply Hq, (Hl y); [left | exact Hr].
Qed.

(** With distinct labels, the label of a row selects that row alone. *)
Lemma filter_label (l : list (nat * row)) (x : nat * row) :
  NoDup (map fst l) -> x ∈ l ->
  filter (fun ir : nat * row => fst ir = fst x) l = [x].
Proof.
  induction l as [|y l IHl]; intros Hnd Hx; [inversion Hx|].
  simpl in Hnd. apply NoDup_cons in Hnd as [Hy Hnd].
  rewrite filter_cons. apply elem_of_cons in Hx as [->|Hx].
  - rewrite decide_True by reflexivity. f_equal.
    apply filter_none. intros z Hz Heq. apply Hy.
    rewrite <- Heq. apply list_elem_of_fmap_2 with (f := fst). exact Hz.
  - rewrite decide_False.
    + apply IHl; assumption.
    + intros Heq. apply Hy. rewrite Heq.
      apply list_elem_of_fmap_2 with (f := fst). exact Hx.
Qed.

(** Selecting the labels of some rows of the frame gives those rows, in
    the order of the labels. *)
Lemma loc_labels (l sel : list (nat * row)) :
  NoDup (map fst l) ->
  (forall x, x ∈ sel -> x ∈ l) ->
  flat_map (fun lab => filter (fun ir : nat * row => fst ir = lab) l) (map fst sel) = sel.
Proof.
  intros Hnd. induction sel as [|x sel IH]; intros Hsub; [reflexivity|].
  simpl. rewrite IH by (intros y Hy; apply Hsub; right; exact Hy).
  rewrite filter_label; [reflexivity | exact Hnd | apply Hsub; left].
Qed.

(** A row of the frame has one of the selected labels exactly when it is
    one of the selected rows. *)
Lemma label_of_selected (l sel : list (nat * row)) (x : nat * row) :
  NoDup (map fst l) ->
  (forall y, y ∈ sel -> y ∈ l) -> x ∈ l ->
  fst x ∈ map fst sel <-> x ∈ sel.
Proof.
  intros Hnd Hsub Hx. split.
  - intros Hin. apply (list_elem_of_fmap fst) in Hin as (y & Heq & Hy).
    assert (Hyl : y ∈ l) by (apply Hsub; exact Hy).
    pose proof (filter_label l y Hnd Hyl) as Hone.
    assert (Hxf : x ∈ filter (fun ir : nat * row => fst ir = fst y) l).
    { apply list_elem_of_filter. split; [exact Heq | exact Hx]. }
    rewrite Hone in Hxf. apply list_elem_of_singleton in Hxf. subst x. exact Hy.
  - intros Hin. apply list_elem_of_fmap_2 with (f := fst). exact Hin.
Qed.

Lemma imap_labels {A B} (g : A -> B) (l : list A) :
  map fst (imap (fun i r => (i, g r)) l) = seq 0 (length l).
Proof.
  change (fst <$> imap (fun i r => (i, g r)) l = seq 0 (length l)).
  rewrite fmap_imap.
  rewrite (imap_ext _ (fun i _ => id i)) by reflexivity.
  rewrite imap_seq_0. apply list_fmap_id.
Qed.

(** [from_records] labels the rows 0, 1, ... *)
Lemma from_records_labels (records : list row) :
  map fst (rows (from_records records)) = seq 0 (length records).
Proof.
  unfold from_records. simpl. apply imap_labels.
Qed.

Lemma from_records_NoDup (records : list row) :
  NoDup (map fst (rows (from_records records))).
Proof. rewrite from_records_labels. apply NoDup_seq. Qed.

Lemma rows_assign k f df :
  rows (assign k f df) = map (fun ir => (fst ir, upd k f (snd ir))) (rows df).
Proof. reflexivity. Qed.

Lemma rows_map_rows f df :
  rows (map_rows f df) = map (fun ir => (fst ir, f (snd ir))) (rows df).
Proof. reflexivity. Qed.

Lemma assign_labels k f df : map fst (rows (assign k f df)) = map fst (rows df).
Proof. rewrite rows_assign, map_map. reflexivity. Qed.

Lemma map_rows_labels f df : map fst (rows (map_rows f df)) = map fst (rows df).
Proof. rewrite rows_map_rows, map_map. reflexivity. Qed.

Section WithPython.
Context {U : Python}.

(** Normalisation changes cells, never the labels or the order of rows. *)
Lemma normalise_labels musics :
  map fst (rows (normalise musics)) = map fst (rows musics).
Proof.
  unfold normalise. cbv zeta.
  rewrite !assign_labels, map_rows_labels, !assign_labels. reflexivity.
Qed.

Lemma _highlighted_rows_Ok musics w h w' :
  _highlighted_rows musics w = Ok h w' ->
  w' = w /\ h = map fst (filter flagged (rows musics)).
Proof.
  unfold _highlighted_rows.
  destruct (has_column "artist" musics && has_column "title" musics);
    [|discriminate].
  unfold ret. intros [= <- <-]. split; reflexivity.
Qed.

Lemma _do_highlight_Ok musics w sheet w' :
  _do_highlight musics w = Ok sheet w' ->
  let h := map fst (filter flagged (rows musics)) in
  w' = w /\ red sheet = h /\
  rows (data sheet) =
    flat_map (fun l => filter (fun ir : nat * row => fst ir = l) (rows musics)) h
    ++ filter (fun ir : nat * row => fst ir ∉ h) (rows musics).
Proof.
  intros Hrun. cbv zeta. unfold _do_highlight in Hrun.
  apply bind_Ok in Hrun as (h' & w1 & Hh & Hrun).
  apply _highlighted_rows_Ok in Hh as [-> ->].
  destruct (map fst (filter flagged (rows musics))) as [|l h0] eqn:Hh.
  - unfold ret in Hrun. injection Hrun as <- <-. simpl. auto.
  - destruct (has_column "file" _); [|discriminate].
    unfold ret in Hrun. injection Hrun as <- <-. simpl. auto.
Qed.

(** The rows of the sheet are rows of the frame. *)
Lemma _do_highlight_rows musics w sheet w' :
  _do_highlight musics w = Ok sheet w' ->
  forall x, x ∈ rows (data sheet) -> x ∈ rows musics.
Proof.
  intros Hrun x Hx. apply _do_highlight_Ok in Hrun as (_ & _ & Hrows).
  rewrite Hrows in Hx. apply elem_of_app in Hx as [Hx|Hx].
  - apply list_elem_of_In, in_flat_map in Hx as (l & _ & Hx).
    apply list_elem_of_In, list_elem_of_filter in Hx as [_ Hx]. exact Hx.
  - apply list_elem_of_filter in Hx as [_ Hx]. exact Hx.
Qed.

(** With distinct labels the sheet is the stable partition of the frame. *)
Lemma _do_highlight_partition musics w sheet w' :
  NoDup (map fst (rows musics)) ->
  _do_highlight musics w = Ok sheet w' ->
  red sheet = map fst (filter flagged (rows musics)) /\
  rows (data sheet) =
    filter flagged (rows musics) ++ filter (fun ir => ~ flagged ir) (rows musics).
Proof.
  intros Hnd Hrun. apply _do_highlight_Ok in Hrun as (_ & Hred & Hrows).
  split; [exact Hred|]. rewrite Hrows. f_equal.
  - apply loc_labels; [exact Hnd|].
    intros x Hx. apply list_elem_of_filter in Hx as [_ Hx]. exact Hx.
  - apply filter_same. intros z Hz.
    rewrite (label_of_selected (rows musics) (filter flagged (rows musics)) z Hnd);
      [|intros y Hy; apply list_elem_of_filter in Hy as [_ Hy]; exact Hy | exact Hz].
    rewrite list_elem_of_filter. tauto.
Qed.

End WithPython.
End FrameFacts.

(** ** Normalisation *)
Module NormaliseFacts.
Import Frame Organizer MonadFacts FrameFacts.

Lemma at_col_upd_eq (k : string) (f : row -> cell) (r : row) : at_col (upd k f r) k = f r.
Proof. unfold at_col, upd. apply lookup_total_insert_eq. Qed.

Lemma at_col_upd_ne (k k' : string) (f : row -> cell) (r : row) : py k <> py k' -> at_col (upd k f r) k' = at_col r k'.
Proof. intros Hne. unfold at_col, upd. apply lookup_total_insert_ne. exact Hne. Qed.

Lemma lookup_upd_ne (k k' : string) (f : row -> cell) (r : row) :
  py k <> py k' -> upd k f r !! py k' = r !! py k'.
Proof. intros Hne. unfold upd. apply lookup_insert_ne. exact Hne. Qed.

Ltac other_column := rewrite at_col_upd_ne by (vm_compute; discriminate).

Section WithPython.
Context {U : Python}.

Lemma rows_normalise musics :
  rows (normalise musics) = map (fun ir => (fst ir, normalise_row (snd ir))) (rows musics).
Proof.
  unfold normalise. cbv zeta.
  rewrite !rows_assign, rows_map_rows, !rows_assign, !map_map.
  apply map_ext. intros [i r]. reflexivity.
Qed.

Lemma at_col_double_check_album (r : row) :
  at_col (double_check r) "album"
  = null_if (isnull (at_col r "album") || isnull (at_col r "albumartist"))
            (at_col r "album").
Proof.
  unfold double_check, at_col. cbv zeta.
  rewrite lookup_total_insert_ne by (vm_compute; discriminate).
  apply lookup_total_insert_eq.
Qed.

Lemma at_col_double_check_albumartist (r : row) :
  at_col (double_check r) "albumartist"
  = null_if (isnull (at_col r "album") || isnull (at_col r "albumartist"))
            (at_col r "albumartist").
Proof. unfold double_check, at_col. cbv zeta. apply lookup_total_insert_eq. Qed.

Lemma at_col_double_check_ne (r : row) (k : string) :
  py "album" <> py k -> py "albumartist" <> py k ->
  at_col (double_check r) k = at_col r k.
Proof.
  intros H1 H2. unfold double_check, at_col. cbv zeta.
  rewrite !lookup_total_insert_ne by assumption. reflexivity.
Qed.

Lemma double_check_both_or_none (r : row) :
  isnull (at_col (double_check r) "album")
  = isnull (at_col (double_check r) "albumartist").
Proof.
  rewrite at_col_double_check_album, at_col_double_check_albumartist.
  destruct (at_col r "album"), (at_col r "albumartist"); reflexivity.
Qed.

Lemma normalise_row_both_or_none (r : row) :
  isnull (at_col (normalise_row r) "album")
  = isnull (at_col (normalise_row r) "albumartist").
Proof.
  unfold normalise_row. repeat other_column. apply double_check_both_or_none.
Qed.

Lemma normalise_row_tracknumber (r : row) :
  at_col (normalise_row r) "tracknumber"
  = keep_if (numeric_mask_without 47 (at_col r "tracknumber")) (at_col r "tracknumber").
Proof.
  unfold normalise_row. repeat other_column.
  rewrite at_col_double_check_ne by (vm_compute; discriminate).
  repeat other_column. rewrite at_col_upd_eq. unfold filter_tracknumber.
  repeat other_column. reflexivity.
Qed.

Lemma normalise_row_originaldate (r : row) :
  normalise_row r !! py "originaldate" = r !! py "originaldate".
Proof.
  unfold normalise_row.
  repeat (rewrite lookup_upd_ne by (vm_compute; discriminate)).
  unfold double_check. cbv zeta.
  rewrite !lookup_insert_ne by (vm_compute; discriminate).
  repeat (rewrite lookup_upd_ne by (vm_compute; discriminate)). reflexivity.
Qed.

(** *** The columns of a run *)

Lemma has_column_elem (k : string) (df : DataFrame) :
  has_column k df = true <-> py k ∈ columns df.
Proof. unfold has_column. apply bool_decide_eq_true. Qed.

Lemma columns_assign (k : string) (f : row -> cell) (df : DataFrame) (c : pystr) :
  c ∈ columns df -> c ∈ columns (assign k f df).
Proof.
  intros Hc. unfold assign. cbn [columns].
  destruct (bool_decide (py k ∈ columns df)); [exact Hc|].
  apply elem_of_app. left. exact Hc.
Qed.

Lemma columns_normalise (musics : DataFrame) (c : pystr) :
  c ∈ columns musics -> c ∈ columns (normalise musics).
Proof.
  intros Hc. unfold normalise. cbv zeta.
  do 3 apply columns_assign. unfold map_rows. cbn [columns].
  do 11 apply columns_assign. exact Hc.
Qed.

Lemma _do_highlight_columns (musics : DataFrame) (w : World) (sheet : Sheet)
    (w' : World) (c : pystr) :
  _do_highlight musics w = Ok sheet w' ->
  c ∈ columns musics -> c ∈ columns (data sheet).
Proof.
  unfold _do_highlight. intros Hrun Hc.
  apply bind_Ok in Hrun as (h & w1 & _ & Hrun).
  assert (Hin : c ∈ columns (append (loc h musics) (Frame.drop h musics))).
  { unfold append. cbn [columns loc]. apply elem_of_app. left. exact Hc. }
  destruct h as [|l h].
  - unfold ret in Hrun. injection Hrun as <- _. exact Hin.
  - destruct (has_column "file" _); [|discriminate].
    unfold ret in Hrun. injection Hrun as <- _. exact Hin.
Qed.

(** With the artist, title and file columns, highlighting returns. *)
Lemma _do_highlight_returns (musics : DataFrame) (w : World) :
  has_column "artist" musics = true -> has_column "title" musics = true ->
  has_column "file" musics = true ->
  exists sheet, _do_highlight musics w = Ok sheet w.
Proof.
  intros Ha Ht Hf. unfold _do_highlight, _highlighted_rows.
  rewrite Ha, Ht. cbn [andb]. unfold bind at 1, ret at 1.
  set (h := map fst (filter _ (rows musics))).
  assert (Hfile : has_column "file" (append (loc h musics) (Frame.drop h musics)) = true).
  { apply has_column_elem. unfold append. cbn [columns loc].
    apply elem_of_app. left. apply has_column_elem. exact Hf. }
  destruct h as [|l h0]; [unfold ret; eauto|].
  rewrite Hfile. unfold ret. eauto.
Qed.

(** The record of a readable file has the columns the run reads. *)
Lemma music_record_columns (file : pystr) (tags : gmap pystr (list cell))
    (bitrate : N) (len : pystr) (k : string) :
  k ∈ ["file"; "title"; "artist"; "originaldate"]%string ->
  is_Some (music_record file tags bitrate len !! py k).
Proof.
  intros Hk. unfold music_record. cbv zeta.
  cbn [must_have_keys app foldl].
  repeat (apply elem_of_cons in Hk as [->|Hk]);
    [| | | |inversion Hk];
    repeat (rewrite lookup_insert_ne by (vm_compute; discriminate));
    rewrite lookup_insert_eq; eauto.
Qed.

Lemma read_musics_records (w : World) (addrs : list pystr) (r : row) :
  r ∈ read_musics w addrs ->
  exists file tags bitrate len, r = music_record file tags bitrate len.
Proof.
  unfold read_musics. intros Hr.
  apply list_elem_of_In, in_flat_map in Hr as (file & _ & Hr).
  destruct (disk w !! Paths.Path_of_str file) as [[tags bitrate len| |]|];
    [|destruct Hr..].
  destruct Hr as [<-|[]]. eauto.
Qed.

Lemma from_records_has_column (k : string) (r : row) (records : list row) :
  is_Some (r !! py k) -> has_column k (from_records (r :: records)) = true.
Proof.
  intros [v Hv]. apply has_column_elem. unfold from_records. cbn [columns].
  apply elem_of_remove_dups. cbn [flat_map]. apply elem_of_app. left.
  apply list_elem_of_In, in_map_iff. exists (py k, v). split; [reflexivity|].
  apply list_elem_of_In, elem_of_map_to_list. exact Hv.
Qed.

(** Without the cache the catalog is what the walk gives, and it is
    written to the cache. *)
Lemma get_music_addrs_walk (w : World) :
  get_music_addrs false w
  = Ok (walk_addrs (tree w)) (set_addrs_file (walk_addrs (tree w)) w).
Proof.
  unfold get_music_addrs, bind, get, modify, ret.
  destruct (addrs_file w); reflexivity.
Qed.

(** The loop over the catalog raises when the stream info of a file that
    opens has no bitrate; otherwise it appends the records of the files
    that open, and leaves the world as it is. *)
Lemma read_files_run (addrs : list pystr) : forall (musics : list row) (w : World),
  read_files addrs musics w
  = if existsb (Scenarios.info_raises w) addrs
    then Raise AttributeError w
    else Ok (musics ++ read_musics w addrs) w.
Proof.
  induction addrs as [|file rest IH]; intros musics w.
  - cbn [read_files existsb]. unfold ret, read_musics. cbn [flat_map].
    rewrite app_nil_r. reflexivity.
  - cbn [read_files existsb]. unfold bind at 1. unfold read_file, bind, get.
    unfold Scenarios.info_raises at 1, Scenarios.readable.
    change (read_musics w (file :: rest))
      with (match disk w !! Paths.Path_of_str file with
            | Some (Audio tags bitrate len) => [music_record file tags bitrate len]
            | _ => []
            end ++ read_musics w rest).
    destruct (disk w !! Paths.Path_of_str file) as [[tags bitrate len| |]|];
      cbn [andb orb]; unfold ret; try (rewrite IH; reflexivity).
    destruct (info_fails (faults w) (Paths.Path_of_str file)); [reflexivity|].
    cbn [orb]. rewrite IH, <- app_assoc. reflexivity.
Qed.

(** A run returns a sheet as soon as one cataloged file can be read and no
    stream info fails (and raises [KeyError] on an empty frame
    otherwise). *)
Lemma generate_music_info_returns (w : World) :
  existsb (Scenarios.info_raises (set_addrs_file (walk_addrs (tree w)) w))
          (walk_addrs (tree w)) = false ->
  read_musics (set_addrs_file (walk_addrs (tree w)) w) (walk_addrs (tree w)) <> [] ->
  exists sheet w', generate_music_info w = Ok sheet w'.
Proof.
  intros Hinfo Hne. unfold generate_music_info.
  rewrite (bind_run _ _ _ _ _ (get_music_addrs_walk w)).
  unfold bind at 1. rewrite read_files_run, Hinfo. cbn [app].
  unfold bind at 1, modify at 1.
  set (w1 := set_addrs_file (walk_addrs (tree w)) w) in *.
  destruct (read_musics w1 (walk_addrs (tree w))) as [|r records] eqn:Hrecords;
    [congruence|].
  assert (Hr : r ∈ read_musics w1 (walk_addrs (tree w))) by (rewrite Hrecords; left).
  apply read_musics_records in Hr as (file & tags & bitrate & len & ->).
  set (musics := from_records _).
  assert (Hcol : forall k, k ∈ ["file"; "title"; "artist"; "originaldate"]%string ->
                           has_column k musics = true).
  { intros k Hk. apply from_records_has_column, music_record_columns. exact Hk. }
  rewrite (Hcol "originaldate"%string) by (repeat constructor).
  assert (Hnorm : forall k, k ∈ ["file"; "title"; "artist"; "originaldate"]%string ->
                            has_column k (normalise musics) = true).
  { intros k Hk. apply has_column_elem, columns_normalise, has_column_elem, Hcol, Hk. }
  destruct (_do_highlight_returns (normalise musics)
              (set_music_info_before_file musics w1)) as [sheet Hsheet];
    try (apply Hnorm; repeat constructor).
  unfold bind at 1. rewrite Hsheet. unfold bind, to_excel, modify, ret. eauto.
Qed.

Lemma generate_music_info_Ok w sheet w' :
  generate_music_info w = Ok sheet w' ->
  exists records w1,
    has_column "originaldate" (from_records records) = true /\
    _do_highlight (normalise (from_records records)) w1 = Ok sheet w1 /\
    w' = set_music_info_file sheet w1.
Proof.
  unfold generate_music_info. intros Hrun.
  apply bind_Ok in Hrun as (addrs & w1 & _ & Hrun).
  apply bind_Ok in Hrun as (records & w2 & _ & Hrun).
  apply bind_Ok in Hrun as ([] & w4 & _ & Hrun).
  destruct (has_column "originaldate" _) eqn:Hcol; [|discriminate].
  apply bind_Ok in Hrun as (sheet' & w5 & Hhl & Hrun).
  apply bind_Ok in Hrun as ([] & w6 & Hex & Hrun).
  unfold ret in Hrun. injection Hrun as <- <-.
  unfold to_excel, modify in Hex. injection Hex as <-.
  pose proof (_do_highlight_Ok _ _ _ _ Hhl) as (-> & _).
  eauto.
Qed.

(** Every sheet of a run keeps the originaldate column, with the values
    read from the files. *)
Lemma generate_music_info_keeps_originaldate (w : World) (sheet : Sheet)
    (w' : World) :
  generate_music_info w = Ok sheet w' ->
  py "originaldate" ∈ columns (data sheet) /\
  exists records,
    music_info_before_file w' = Some (from_records records) /\
    forall i r, (i, r) ∈ rows (data sheet) ->
      exists r0, (i, r0) ∈ rows (from_records records) /\
                 r !! py "originaldate" = r0 !! py "originaldate".
Proof.
  intros Hrun. unfold generate_music_info in Hrun.
  apply bind_Ok in Hrun as (addrs & w1 & _ & Hrun).
  apply bind_Ok in Hrun as (records & w2 & _ & Hrun).
  apply bind_Ok in Hrun as ([] & w4 & Hmod & Hrun).
  unfold modify in Hmod. injection Hmod as <-.
  set (musics := from_records records) in *.
  destruct (has_column "originaldate" musics) eqn:Hcol; [|discriminate].
  apply bind_Ok in Hrun as (sheet' & w5 & Hhl & Hrun).
  apply bind_Ok in Hrun as ([] & w6 & Hex & Hrun).
  unfold ret in Hrun. injection Hrun as <- <-.
  unfold to_excel, modify in Hex. injection Hex as <-.
  pose proof (_do_highlight_Ok _ _ _ _ Hhl) as (-> & _).
  split.
  - apply (_do_highlight_columns _ _ _ _ _ Hhl), columns_normalise, has_column_elem.
    exact Hcol.
  - exists records. split; [reflexivity|].
    intros i r Hin. apply (_do_highlight_rows _ _ _ _ Hhl) in Hin.
    rewrite rows_normalise in Hin.
    apply list_elem_of_In, in_map_iff in Hin as ([j r0] & [= <- <-] & Hin).
    exists r0. split; [apply list_elem_of_In; exact Hin|].
    apply normalise_row_originaldate.
Qed.

End WithPython.
End NormaliseFacts.

(** ** Apply phase *)
Module ApplyFacts.
Import Frame Organizer MonadFacts.

Section WithPython.
Context {U : Python}.

Lemma try_os_remove (file : Path) (w : World) :
  try_pass (os_remove file) w = Ok tt (after_os_remove file w).
Proof.
  unfold try_pass, os_remove, after_os_remove, bind, modify, get, raise.
  cbn [disk faults add_log].
  destruct (disk w !! file) as [c|]; [|reflexivity].
  destruct (remove_fails (faults w) file); reflexivity.
Qed.

(** A sticky answer is used without a prompt. *)
Lemma remove_sticky (file : Path) (p : pystr) (w : World) :
  p ∈ [py "na"; py "ya"] ->
  _remove_file_with_permission file (Some p) w
  = Ok p (if startswith_y p then after_os_remove file w else w).
Proof.
  intros Hp. unfold _remove_file_with_permission.
  rewrite bool_decide_eq_true_2 by exact Hp.
  unfold bind at 1. unfold ret at 1.
  destruct (startswith_y p); [|reflexivity].
  unfold bind. rewrite try_os_remove. reflexivity.
Qed.

(** Otherwise the user is asked, and the answer decides. *)
Lemma remove_asked (file : Path) (permission : option pystr) (w : World) :
  (forall p, permission = Some p -> p ∉ [py "na"; py "ya"]) ->
  _remove_file_with_permission file permission w
  = match stdin w with
    | [] => Raise EOFError w
    | answer :: rest =>
        Ok answer (if startswith_y answer
                   then after_os_remove file (after_prompt file rest w)
                   else after_prompt file rest w)
    end.
Proof.
  intros Hp. unfold _remove_file_with_permission.
  assert (Hin : (match permission with
                 | Some p => if bool_decide (p ∈ [py "na"; py "ya"])
                             then ret p else input file
                 | None => input file
                 end) = input file).
  { destruct permission as [p|]; [|reflexivity].
    rewrite bool_decide_eq_false_2 by (apply Hp; reflexivity). reflexivity. }
  rewrite Hin. unfold bind at 1. unfold input at 1. unfold bind at 1, get at 1.
  destruct (stdin w) as [|answer rest]; [reflexivity|].
  unfold bind at 1, modify at 1, ret at 1.
  fold (after_prompt file rest w).
  destruct (startswith_y answer); [|reflexivity].
  unfold bind. rewrite try_os_remove. reflexivity.
Qed.

(** Either way: the answer [p] comes back with the world [w1] as it was
    before the removal (the same world, or the world after the prompt),
    and the removal is tried exactly when [p] starts with y; only the
    end of the input can make the call raise. *)
Lemma remove_cases (file : Path) (permission : option pystr) (w : World) :
  (exists p w1,
     _remove_file_with_permission file permission w
     = Ok p (if startswith_y p then after_os_remove file w1 else w1) /\
     (w1 = w \/ exists rest, stdin w = p :: rest /\ w1 = after_prompt file rest w)) \/
  (_remove_file_with_permission file permission w = Raise EOFError w /\ stdin w = []).
Proof.
  destruct permission as [p|].
  - destruct (decide (p ∈ [py "na"; py "ya"])) as [Hp|Hp].
    + left. exists p, w. split; [apply remove_sticky; exact Hp | left; reflexivity].
    + rewrite remove_asked by (intros p' [= <-]; exact Hp).
      destruct (stdin w) as [|answer rest] eqn:Hin; [right; auto|].
      left. exists answer, (after_prompt file rest w). split; [reflexivity|].
      right. exists rest. auto.
  - rewrite remove_asked by discriminate.
    destruct (stdin w) as [|answer rest] eqn:Hin; [right; auto|].
    left. exists answer, (after_prompt file rest w). split; [reflexivity|].
    right. exists rest. auto.
Qed.

Lemma set_world_same (l : Loop) : set_world (world l) l = l.
Proof. destruct l. reflexivity. Qed.

Lemma lift_os_path_exists (p : Path) (l : Loop) :
  lift (os_path_exists p) l = Ok (bool_decide (is_Some (disk (world l) !! p))) l.
Proof.
  unfold lift, os_path_exists, bind, get, ret. rewrite set_world_same. reflexivity.
Qed.

Lemma item_Some {S : Type} (music : row) (k : string) (v : cell) (s : S) :
  music !! py k = Some v -> item music k s = Ok v s.
Proof. unfold item. intros ->. reflexivity. Qed.

(** The renaming step for a record with a title and an artist. *)
Lemma choose_file_name_eq (i : nat) (f : Path) (music : row) (l : Loop)
    (title artist : cell) :
  music !! py "title" = Some title ->
  music !! py "artist" = Some artist ->
  truthy title = true -> truthy artist = true ->
  let c1 := _gen_new_file_name f (py_str title) in
  let c2 := _gen_new_file_name f (py_str artist ++ [45] ++ py_str title) in
  choose_file_name i f music l =
    if bool_decide (c1 <> f) && bool_decide (is_Some (disk (world l) !! c1))
    then
      if bool_decide (c2 <> f) && bool_decide (is_Some (disk (world l) !! c2))
      then
        match _remove_file_with_permission f (permission_remove_rename_error l)
                (world l) with
        | Ok p w' =>
            Ok None
              (let l' := set_permission_remove_rename_error p (set_world w' l) in
               if startswith_y p then to_pop_append i l' else l')
        | Raise e w' => Raise e (set_world w' l)
        end
      else Ok (Some c2) l
    else Ok (Some c1) l.
Proof.
  intros Ht Ha Htt Hta c1 c2. unfold choose_file_name.
  rewrite (bind_run _ _ _ _ _ (item_Some music "title" title l Ht)).
  rewrite Htt.
  rewrite (bind_run _ _ l (truthy artist) l)
    by (rewrite (bind_run _ _ _ _ _ (item_Some music "artist" artist l Ha));
        reflexivity).
  rewrite Hta. fold c1.
  rewrite (bind_run _ _ _ _ _ (lift_os_path_exists c1 l)).
  destruct (bool_decide (c1 <> f) && bool_decide (is_Some (disk (world l) !! c1)));
    [|reflexivity].
  rewrite (bind_run _ _ _ _ _ (item_Some music "artist" artist l Ha)). fold c2.
  rewrite (bind_run _ _ _ _ _ (lift_os_path_exists c2 l)).
  destruct (bool_decide (c2 <> f) && bool_decide (is_Some (disk (world l) !! c2)));
    [|reflexivity].
  unfold bind at 1, get at 1. unfold bind at 1. unfold lift at 1.
  destruct (_remove_file_with_permission f (permission_remove_rename_error l) (world l))
    as [p w'|e w']; [|reflexivity].
  unfold bind, modify, ret. destruct (startswith_y p); reflexivity.
Qed.

(** Both candidate names taken: the permission is asked, no name is
    chosen. *)
Lemma choose_file_name_collision (i : nat) (f : Path) (music : row) (l : Loop)
    (title artist : cell) :
  music !! py "title" = Some title ->
  music !! py "artist" = Some artist ->
  truthy title = true -> truthy artist = true ->
  let c1 := _gen_new_file_name f (py_str title) in
  let c2 := _gen_new_file_name f (py_str artist ++ [45] ++ py_str title) in
  c1 <> f /\ is_Some (disk (world l) !! c1) ->
  c2 <> f /\ is_Some (disk (world l) !! c2) ->
  choose_file_name i f music l =
    match _remove_file_with_permission f (permission_remove_rename_error l)
            (world l) with
    | Ok p w' =>
        Ok None
          (let l' := set_permission_remove_rename_error p (set_world w' l) in
           if startswith_y p then to_pop_append i l' else l')
    | Raise e w' => Raise e (set_world w' l)
    end.
Proof.
  intros Ht Ha Htt Hta c1 c2 [N1 D1] [N2 D2].
  rewrite (choose_file_name_eq i f music l title artist Ht Ha Htt Hta).
  cbv zeta. fold c1 c2.
  rewrite !bool_decide_eq_true_2 by assumption. reflexivity.
Qed.

(** Without a title, or without an artist, the file keeps its name. *)
Lemma choose_file_name_keep (i : nat) (f : Path) (music : row) (l : Loop)
    (title artist : cell) :
  music !! py "title" = Some title ->
  music !! py "artist" = Some artist ->
  truthy title && truthy artist = false ->
  choose_file_name i f music l = Ok (Some f) l.
Proof.
  intros Ht Ha Hboth. unfold choose_file_name.
  rewrite (bind_run _ _ _ _ _ (item_Some music "title" title l Ht)).
  destruct (truthy title).
  - rewrite (bind_run _ _ l (truthy artist) l)
      by (rewrite (bind_run _ _ _ _ _ (item_Some music "artist" artist l Ha));
          reflexivity).
    simpl in Hboth. rewrite Hboth. reflexivity.
  - reflexivity.
Qed.

(** One marked record: it is the one popped. *)
Lemma pop_all_one {A} (i : nat) (l : list A) :
  (i < length l)%nat -> pop_all [i] l = Some (delete i l).
Proof.
  intros Hi. simpl. apply Nat.ltb_lt in Hi. rewrite Hi. reflexivity.
Qed.

Lemma delete_delete_shift {A} (l : list A) : forall i j : nat,
  (i <= j)%nat -> delete j (delete i l) = delete i (delete (S j) l).
Proof.
  induction l as [|x l IH]; intros i j Hij; [destruct i; reflexivity|].
  destruct i as [|i].
  - reflexivity.
  - destruct j as [|j]; [lia|].
    change (x :: delete j (delete i l) = x :: delete i (delete (S j) l)).
    f_equal. apply IH. lia.
Qed.

(** Two marked records, the indices in the order of the loop: the second
    pop is made on the list the first pop has shortened, so it removes the
    record after the one that was marked. *)
Lemma pop_all_two {A} (i j : nat) (l : list A) :
  (i <= j)%nat -> (S j < length l)%nat ->
  pop_all [i; j] l = Some (delete i (delete (S j) l)).
Proof.
  intros Hij Hj. simpl.
  assert (Hi : (i <? length l)%nat = true) by (apply Nat.ltb_lt; lia).
  rewrite Hi.
  assert (Hlen : length (delete i l) = (length l - 1)%nat).
  { apply length_delete. apply lookup_lt_is_Some. lia. }
  assert (Hj' : (j <? length (delete i l))%nat = true)
    by (apply Nat.ltb_lt; rewrite Hlen; lia).
  rewrite Hj'. f_equal. apply delete_delete_shift. exact Hij.
Qed.

Lemma music_at_Some (i : nat) (l : Loop) (music : row) :
  musics l !! i = Some music -> music_at i l = Ok music l.
Proof. unfold music_at, bind, get. intros ->. reflexivity. Qed.

(** The tag-writing step on an audio file that [mutagen] can open. *)
Lemma write_tags_eq (i : nat) (f : Path) (l : Loop) (music : row)
    (tags : gmap pystr (list cell)) (bitrate : N) (len : pystr) :
  musics l !! i = Some music ->
  disk (world l) !! f = Some (Audio tags bitrate len) ->
  let new_tags := new_tags_of music in
  let w3 := add_log (TagsSave f)
              (add_log (TagsUpdate f new_tags) (add_log (TagsClear f) (world l))) in
  write_tags i f l =
    if bool_decide (tags = new_tags) then Ok tt l
    else
      match save_outcome (faults (world l)) f with
      | SaveOk =>
          Ok tt (set_world (set_disk (fun d => <[f := Audio new_tags bitrate len]> d) w3) l)
      | SaveOtherError => Raise OtherException (set_world w3 l)
      | SavePermissionError =>
          match _remove_file_with_permission f (permission_remove_edit_error l) w3 with
          | Ok p w' =>
              Ok tt
                (let l' := set_permission_remove_edit_error p (set_world w' l) in
                 if startswith_y p then to_pop_append i l' else l')
          | Raise e w' => Raise e (set_world w' l)
          end
      end.
Proof.
  intros Hm Hd new_tags w3. unfold write_tags.
  unfold bind at 1, get at 1.
  rewrite (bind_run _ _ _ _ _ (music_at_Some i l music Hm)).
  rewrite Hd. fold new_tags.
  destruct (bool_decide (tags = new_tags)); [reflexivity|].
  unfold bind at 1, lift at 1, modify at 1.
  unfold bind at 1, lift at 1, modify at 1.
  unfold bind at 1, lift at 1, modify at 1.
  cbn [world set_world]. fold w3.
  destruct (save_outcome (faults (world l)) f).
  - unfold lift, modify. reflexivity.
  - unfold bind at 1, get at 1. unfold bind at 1, lift at 1.
    cbn [world set_world permission_remove_edit_error].
    destruct (_remove_file_with_permission f (permission_remove_edit_error l) w3)
      as [p w'|e w']; [|reflexivity].
    unfold bind, modify, ret. destruct (startswith_y p); reflexivity.
  - reflexivity.
Qed.

(** A record whose file is gone. *)
Lemma process_not_found (allow_miscellaneous : bool) (i : nat) (l : Loop)
    (music : row) (file : pystr) :
  musics l !! i = Some music ->
  music !! py "file" = Some (Str file) ->
  let f := Paths.Path_of_str file in
  disk (world l) !! f = None ->
  process allow_miscellaneous i l =
    match _remove_file_with_permission f (permission_remove_not_found l) (world l) with
    | Ok p w' =>
        Ok tt
          (let l' := set_permission_remove_not_found p (set_world w' l) in
           if startswith_y p then to_pop_append i l' else l')
    | Raise e w' => Raise e (set_world w' l)
    end.
Proof.
  intros Hm Hf f Hd. unfold process.
  rewrite (bind_run _ _ _ _ _ (music_at_Some i l music Hm)).
  rewrite (bind_run _ _ _ _ _ (item_Some music "file" (Str file) l Hf)).
  unfold Path_of_cell. unfold bind at 1, ret at 1. fold f.
  rewrite (bind_run _ _ _ _ _ (lift_os_path_exists f l)).
  rewrite Hd. rewrite bool_decide_eq_false_2 by (intros [? ?]; discriminate).
  cbn [negb]. unfold bind at 1, get at 1. unfold bind at 1, lift at 1.
  destruct (_remove_file_with_permission f (permission_remove_not_found l) (world l))
    as [p w'|e w']; [|reflexivity].
  unfold bind, modify, ret. destruct (startswith_y p); reflexivity.
Qed.

(** A record whose file is there, miscellaneous tags not merged. *)
Lemma process_found (i : nat) (l : Loop) (music : row) (file : pystr) :
  musics l !! i = Some music ->
  music !! py "file" = Some (Str file) ->
  let f := Paths.Path_of_str file in
  is_Some (disk (world l) !! f) ->
  process false i l =
    bind (choose_file_name i f music)
      (fun chosen =>
         match chosen with
         | None => ret tt
         | Some new_file_name =>
             bind (if bool_decide (new_file_name <> f)
                   then rename_file i f new_file_name
                   else ret f)
                  (fun f => write_tags i f)
         end) l.
Proof.
  intros Hm Hf f Hd. unfold process.
  rewrite (bind_run _ _ _ _ _ (music_at_Some i l music Hm)).
  rewrite (bind_run _ _ _ _ _ (item_Some music "file" (Str file) l Hf)).
  unfold Path_of_cell. unfold bind at 1, ret at 1. fold f.
  rewrite (bind_run _ _ _ _ _ (lift_os_path_exists f l)).
  rewrite bool_decide_eq_true_2 by exact Hd.
  cbn [negb]. unfold bind at 1, ret at 1.
  rewrite (bind_run _ _ _ _ _ (music_at_Some i l music Hm)).
  reflexivity.
Qed.

(** The new tags: every field of the record but the four excluded ones,
    when its value is neither null nor empty, as a one-element list. *)
Lemma new_tags_of_lookup (music : row) (k : pystr) (vs : list cell) :
  new_tags_of music !! k = Some vs <->
  exists v, vs = [v] /\ music !! k = Some v /\
            (k ∉ [py "file"; py "miscellaneous"; py "bitrate"; py "length"]) /\
            truthy v = true.
Proof.
  unfold new_tags_of. rewrite lookup_fmap, fmap_Some. split.
  - intros (v & Hv & ->). apply map_lookup_filter_Some in Hv as (Hv & Hk & Ht).
    exists v. auto.
  - intros (v & -> & Hv & Hk & Ht). exists v. split; [|reflexivity].
    apply map_lookup_filter_Some. auto.
Qed.

(** The removal step only adds to the log. *)
Lemma after_os_remove_log (file : Path) (w : World) :
  log (after_os_remove file w) = log w ++ [OsRemove file].
Proof.
  unfold after_os_remove. cbv zeta. destruct (disk w !! file); [|reflexivity].
  destruct (remove_fails (faults w) file); reflexivity.
Qed.


Lemma removal_after (file : Path) (w w1 : World) (before : list Event) :
  disk w1 = disk w -> faults w1 = faults w -> log w1 = log w ++ before ->
  removal_attempted file w (after_os_remove file w1).
Proof.
  intros Hd Hf Hl. split.
  - exists before. rewrite after_os_remove_log, Hl, <- app_assoc. reflexivity.
  - unfold after_os_remove. cbv zeta. rewrite Hd, Hf.
    destruct (disk w !! file); [|exact Hd].
    destruct (remove_fails (faults w) file); [exact Hd|].
    simpl. rewrite Hd. reflexivity.
Qed.

(** A granted permission: the removal was tried.  A denied one: the disk
    is as it was and nothing was removed. *)
Lemma remove_granted (file : Path) (permission : option pystr) (w0 w w' : World)
    (before : list Event) (p : pystr) :
  disk w = disk w0 -> faults w = faults w0 -> log w = log w0 ++ before ->
  _remove_file_with_permission file permission w = Ok p w' ->
  if startswith_y p then removal_attempted file w0 w'
  else disk w' = disk w0 /\ forall f, OsRemove f ∈ log w' -> OsRemove f ∈ log w.
Proof.
  intros Hd Hf Hl Hrun.
  destruct (remove_cases file permission w)
    as [(p' & w1 & Heq & Hw1) | [Heq _]]; [|congruence].
  rewrite Heq in Hrun. injection Hrun as -> <-.
  destruct Hw1 as [-> | (rest & _ & ->)].
  - destruct (startswith_y p); [|auto].
    apply (removal_after file w0 w before); assumption.
  - destruct (startswith_y p).
    + apply (removal_after file w0 _ (before ++ [Prompt file])); simpl; try assumption.
      rewrite Hl, <- app_assoc. reflexivity.
    + simpl. split; [exact Hd|]. intros f Hin.
      apply elem_of_app in Hin as [Hin|Hin]; [exact Hin|].
      apply list_elem_of_singleton in Hin. discriminate.
Qed.

Lemma remove_raises (file : Path) (permission : option pystr) (w w' : World) (e : exn) :
  _remove_file_with_permission file permission w = Raise e w' ->
  e = EOFError /\ w' = w /\ stdin w = [].
Proof.
  intros Hrun.
  destruct (remove_cases file permission w)
    as [(p' & w1 & Heq & _) | [Heq Hin]]; [congruence|].
  rewrite Heq in Hrun. injection Hrun as <- <-. auto.
Qed.

End WithPython.
End ApplyFacts.

(** * The claims *)
Module Claims.
Import Frame Organizer Examples.

(** A decidable fact about concrete data, by running its decision. *)
Ltac by_compute := apply (bool_decide_unpack _); vm_compute; exact I.
Ltac refute_by_compute :=
  apply (bool_decide_eq_false_1 _); vm_compute; reflexivity.

(** C7. Ad-text stripping is idempotent: stripping the result of a strip
    gives the result of the strip, also when that result is null because
    nothing was left of the string; and so it is on every column. *)
Theorem remove_websites_and_tags_idempotent `{Python} :
  (forall x : pystr,
     Utils.remove_websites_and_tags_cell (Utils.remove_websites_and_tags_cell (Str x))
     = Utils.remove_websites_and_tags_cell (Str x)) /\
  (forall data : Series,
     Utils.remove_websites_and_tags (Utils.remove_websites_and_tags data)
     = Utils.remove_websites_and_tags data).
Proof.
  split.
  - intros x. apply UtilsFacts.remove_websites_and_tags_cell_idem.
  - intros data. unfold Utils.remove_websites_and_tags. rewrite map_map.
    apply map_ext. intros x. apply UtilsFacts.remove_websites_and_tags_cell_idem.
Qed.

(** C10. A walked file is cataloged exactly when its lowercased name ends
    with one of the listed extension strings; no dot is asked for, so
    "trackmp3" is cataloged. *)
Theorem extension_filter_is_a_suffix_test `{Python} :
  (forall tree path,
     path ∈ walk_addrs tree <->
     exists dirname filenames file,
       (dirname, filenames) ∈ tree /\ file ∈ filenames /\
       (exists ext, ext ∈ Utils.audio_extensions /\
                    exists prefix, PyStr.lower file = prefix ++ ext) /\
       path = Paths.os_path_join dirname file) /\
  (forall w, get_music_addrs false w
             = Ok (walk_addrs (tree w)) (set_addrs_file (walk_addrs (tree w)) w)) /\
  is_audio (py "trackmp3") = true /\
  is_audio (py "track.txt") = false.
Proof.
  split; [|split; [|split]].
  - intros tree path. unfold walk_addrs.
    rewrite list_elem_of_In, in_flat_map. split.
    + intros ([dirname filenames] & Hd & Hin). simpl in Hin.
      apply in_flat_map in Hin as (file & Hf & Hin).
      destruct (is_audio file) eqn:Ha; [|destruct Hin].
      destruct Hin as [<-|[]].
      exists dirname, filenames, file.
      rewrite !list_elem_of_In. repeat split; auto.
      apply PyStrFacts.endswith_any_spec. exact Ha.
    + intros (dirname & filenames & file & Hd & Hf & Hext & ->).
      exists (dirname, filenames). rewrite <- list_elem_of_In. split; [exact Hd|].
      simpl. apply in_flat_map. exists file. rewrite <- list_elem_of_In.
      split; [exact Hf|].
      apply PyStrFacts.endswith_any_spec in Hext. unfold is_audio. rewrite Hext.
      left. reflexivity.
  - exact NormaliseFacts.get_music_addrs_walk.
  - vm_compute. reflexivity.
  - vm_compute. reflexivity.
Qed.

(** C2. In the sheet a normalisation run writes, the album of a record is
    null exactly when its album artist is null. *)
Theorem album_null_iff_albumartist_null `{Python} (w : World) (sheet : Sheet)
    (w' : World) (i : nat) (r : row) :
  generate_music_info w = Ok sheet w' ->
  (i, r) ∈ rows (data sheet) ->
  isnull (at_col r "album") = true <-> isnull (at_col r "albumartist") = true.
Proof.
  intros Hrun Hin.
  apply NormaliseFacts.generate_music_info_Ok in Hrun as (records & w1 & _ & Hhl & _).
  apply (FrameFacts._do_highlight_rows _ _ _ _ Hhl) in Hin.
  rewrite NormaliseFacts.rows_normalise in Hin.
  apply list_elem_of_In, in_map_iff in Hin as ([j r0] & [= _ <-] & _).
  rewrite NormaliseFacts.normalise_row_both_or_none. reflexivity.
Qed.

Lemma album_null_iff_albumartist_null_witness :
  let r := normalise_row
             (music_record (py "m/song.mp3")
                (tags_of [("title", "Song"); ("artist", "Band [band.com]");
                          ("album", "Hits");
                          ("originaldate", "2019-04-01T10:00:00");
                          ("date", "2020"); ("tracknumber", "3/12");
                          ("discnumber", "A1")]%string) 320000 (py "03:25")) in
  (exists sheet w', generate_music_info one_file = Ok sheet w' /\
                    (0%nat, r) ∈ rows (data sheet)) /\
  (isnull (at_col r "album") = true <-> isnull (at_col r "albumartist") = true).
Proof.
  intros r.
  assert (Hrun : exists sheet w', generate_music_info one_file = Ok sheet w' /\
                    (0%nat, r) ∈ rows (data sheet)).
  { eexists _, _. split; [vm_compute; reflexivity|]. by_compute. }
  split; [exact Hrun|].
  destruct Hrun as (sheet & w' & Hrun & Hin).
  eapply (@album_null_iff_albumartist_null ascii_only one_file sheet w' 0%nat r).
  - exact Hrun.
  - exact Hin.
Defined.

(** C3. In a sheet written from a frame with distinct labels (every frame
    the program persists is labelled 0, 1, ... by [from_records], and
    normalisation keeps the labels), a record is highlighted exactly when
    its artist or its title is null; the highlighted records come first,
    the others after them, and each group is in the order of the frame. *)
Theorem highlighted_first_in_stable_order `{Python} :
  (forall records, map fst (rows (from_records records)) = seq 0 (length records)) /\
  (forall musics, map fst (rows (normalise musics)) = map fst (rows musics)) /\
  (forall (musics : DataFrame) (w : World) (sheet : Sheet) (w' : World),
     NoDup (map fst (rows musics)) ->
     _do_highlight musics w = Ok sheet w' ->
     rows (data sheet) =
       filter (fun ir => needs_attention ir.2 = true) (rows musics)
       ++ filter (fun ir => ~ needs_attention ir.2 = true) (rows musics) /\
     forall i r, (i, r) ∈ rows (data sheet) ->
       (i ∈ red sheet <->
        isnull (at_col r "artist") = true \/ isnull (at_col r "title") = true)).
Proof.
  split; [exact FrameFacts.from_records_labels|].
  split; [exact FrameFacts.normalise_labels|].
  intros musics w sheet w' Hnd Hrun.
  pose proof (FrameFacts._do_highlight_rows _ _ _ _ Hrun) as Hsub.
  apply FrameFacts._do_highlight_partition in Hrun as [Hred Hrows]; [|exact Hnd].
  split; [exact Hrows|].
  intros i r Hin. rewrite Hred.
  rewrite (FrameFacts.label_of_selected (rows musics) _ (i, r) Hnd).
  - rewrite list_elem_of_filter. unfold flagged, needs_attention. simpl.
    rewrite orb_true_iff. specialize (Hsub _ Hin). tauto.
  - intros y Hy. apply list_elem_of_filter in Hy as [_ Hy]. exact Hy.
  - apply Hsub. exact Hin.
Qed.

Lemma highlighted_first_in_stable_order_witness :
  let musics := from_records mixed_records in
  NoDup (map fst (rows musics)) /\
  exists sheet,
    _do_highlight musics one_file = Ok sheet one_file /\
    (rows (data sheet) =
       filter (fun ir => needs_attention ir.2 = true) (rows musics)
       ++ filter (fun ir => ~ needs_attention ir.2 = true) (rows musics) /\
     forall i r, (i, r) ∈ rows (data sheet) ->
       (i ∈ red sheet <->
        isnull (at_col r "artist") = true \/ isnull (at_col r "title") = true)) /\
    map fst (rows (data sheet)) = [1; 2; 0; 3]%nat /\
    red sheet = [1; 2]%nat.
Proof.
  intros musics.
  assert (Hnd : NoDup (map fst (rows musics))) by by_compute.
  split; [exact Hnd|].
  eexists. split; [vm_compute; reflexivity|]. split.
  - apply (proj2 (proj2 (@highlighted_first_in_stable_order ascii_only))
             musics one_file _ one_file Hnd).
    vm_compute. reflexivity.
  - split; vm_compute; reflexivity.
Defined.

(** C8. The track number survives normalisation exactly when what is left
    of it after removing the slashes is a numeric string (at least one
    character, every character a digit of [str.isnumeric]; on ASCII these
    are 0 to 9); it is kept with its slashes, and is null otherwise.  So
    "3/12" is kept and "A1" becomes null. *)
Theorem tracknumber_numeric_filter `{Python} :
  (forall musics n i r,
     rows musics !! n = Some (i, r) ->
     exists r',
       rows (normalise musics) !! n = Some (i, r') /\
       at_col r' "tracknumber" =
         match at_col r "tracknumber" with
         | Str v => if PyStr.isnumeric (PyStr.remove_char 47 v) then Str v else Null
         | _ => Null
         end) /\
  (forall v, PyStr.isnumeric v = true <->
             v <> [] /\ Forall (fun c => Char.is_numeric c = true) v) /\
  (forall c, c < 128 -> (Char.is_numeric c = true <-> 48 <= c <= 57)) /\
  (forall r, at_col r "tracknumber" = Str (py "3/12") ->
             at_col (normalise_row r) "tracknumber" = Str (py "3/12")) /\
  (forall r, at_col r "tracknumber" = Str (py "A1") ->
             at_col (normalise_row r) "tracknumber" = Null).
Proof.
  assert (Hrow : forall r : row,
    at_col (normalise_row r) "tracknumber" =
      match at_col r "tracknumber" with
      | Str v => if PyStr.isnumeric (PyStr.remove_char 47 v) then Str v else Null
      | _ => Null
      end).
  { intros r. rewrite NormaliseFacts.normalise_row_tracknumber.
    unfold numeric_mask_without, keep_if.
    destruct (at_col r "tracknumber") as [|v|t b]; reflexivity. }
  split; [|split; [|split; [|split]]].
  - intros musics n i r Hn. exists (normalise_row r). split; [|apply Hrow].
    rewrite NormaliseFacts.rows_normalise.
    change (((fun ir : nat * row => (ir.1, normalise_row ir.2)) <$> rows musics) !! n
            = Some (i, normalise_row r)).
    rewrite list_lookup_fmap, Hn. reflexivity.
  - intros v. apply PyStrFacts.isnumeric_spec.
  - intros c Hc. unfold Char.is_numeric, Char.is_ascii.
    apply N.ltb_lt in Hc. rewrite Hc. unfold Char.ascii_digit, Char.between.
    rewrite andb_true_iff, !N.leb_le. reflexivity.
  - intros r Hr. rewrite Hrow, Hr. vm_compute. reflexivity.
  - intros r Hr. rewrite Hrow, Hr. vm_compute. reflexivity.
Qed.

Lemma tracknumber_numeric_filter_witness :
  let musics := from_records [third_of_twelve] in
  exists r,
    rows musics !! 0%nat = Some (0%nat, r) /\
    at_col r "tracknumber" = Str (py "3/12") /\
    exists r', rows (normalise musics) !! 0%nat = Some (0%nat, r') /\
               at_col r' "tracknumber" = Str (py "3/12").
Proof.
  intros musics. eexists.
  assert (Hn : rows musics !! 0%nat = Some (0%nat, third_of_twelve))
    by (vm_compute; reflexivity).
  split; [exact Hn|]. split; [vm_compute; reflexivity|].
  destruct (proj1 (@tracknumber_numeric_filter ascii_only) musics 0%nat 0%nat _ Hn)
    as (r' & Hr' & Htrack).
  exists r'. split; [exact Hr'|]. rewrite Htrack. vm_compute. reflexivity.
Defined.

(** C8, as worded, fails: a track number that is the one character U+00BD
    (the vulgar fraction one half) holds no slash and no digit, and is
    kept, since [str.isnumeric] accepts it. *)
Lemma tracknumber_kept_without_digits :
  let r := <[py "tracknumber" := Str [0xBD]]> third_of_twelve in
  let musics := from_records [r] in
  (rows musics !! 0%nat = Some (0%nat, r) /\
   exists r',
     rows (@normalise one_half_numeric musics) !! 0%nat = Some (0%nat, r') /\
     at_col r' "tracknumber" = Str [0xBD]) /\
  PyStr.remove_char 47 [0xBD] = [0xBD] /\
  Forall (fun c => ~ (48 <= c <= 57)) [0xBD] /\
  @Char.is_decimal one_half_numeric 0xBD = false.
Proof.
  intros r musics.
  assert (Hn : rows musics !! 0%nat = Some (0%nat, r)) by (vm_compute; reflexivity).
  split; [split; [exact Hn|]|split; [|split]].
  - exists (@normalise_row one_half_numeric r). split.
    + rewrite NormaliseFacts.rows_normalise.
      change (((fun ir : nat * row => (ir.1, @normalise_row one_half_numeric ir.2))
                 <$> rows musics) !! 0%nat
              = Some (0%nat, @normalise_row one_half_numeric r)).
      rewrite list_lookup_fmap, Hn. reflexivity.
    + rewrite NormaliseFacts.normalise_row_tracknumber. vm_compute. reflexivity.
  - vm_compute. reflexivity.
  - repeat constructor. lia.
  - reflexivity.
Qed.

(** C4. The failing input of the claim that the sheet has no originaldate
    column: the frame returned by [drop] is thrown away, so the sheet of a
    run keeps the column, here with the value read from the file. *)
Theorem originaldate_is_persisted :
  exists sheet w',
    generate_music_info one_file = Ok sheet w' /\
    music_info_file w' = Some sheet /\
    py "originaldate" ∈ columns (data sheet) /\
    Forall (fun ir : nat * row =>
              ir.2 !! py "originaldate" = Some (Str (py "2019-04-01T10:00:00")))
           (rows (data sheet)) /\
    length (rows (data sheet)) = 1%nat.
Proof.
  eexists _, _. split; [vm_compute; reflexivity|].
  split; [vm_compute; reflexivity|].
  split; [by_compute|]. split; [by_compute|]. vm_compute. reflexivity.
Qed.



(** C6. For a record with a title and an artist the first candidate name
    is made from the title alone.  When no other file has that name it is
    the one chosen.  When another file has it, the second candidate is
    made from artist-title, and is chosen unless another file has that
    name too; then no name is chosen, the remove_rename_error permission
    is asked for the file of the record, and the record is done: the loop
    neither renames nor writes tags.  No third name is ever chosen. *)
Theorem at_most_two_candidate_names `{Python} (i : nat) (f : Path) (music : row)
    (l : Loop) (title artist : cell) :
  music !! py "title" = Some title ->
  music !! py "artist" = Some artist ->
  truthy title = true -> truthy artist = true ->
  let c1 := _gen_new_file_name f (py_str title) in
  let c2 := _gen_new_file_name f (py_str artist ++ [45] ++ py_str title) in
  let taken := fun c : Path => c <> f /\ is_Some (disk (world l) !! c) in
  let asked :=
    match _remove_file_with_permission f (permission_remove_rename_error l)
            (world l) with
    | Ok p w' =>
        Ok tt
          (let l' := set_permission_remove_rename_error p (set_world w' l) in
           if startswith_y p then to_pop_append i l' else l')
    | Raise e w' => Raise e (set_world w' l)
    end in
  (~ taken c1 -> choose_file_name i f music l = Ok (Some c1) l) /\
  (taken c1 -> ~ taken c2 -> choose_file_name i f music l = Ok (Some c2) l) /\
  (taken c1 -> taken c2 ->
   choose_file_name i f music l =
     match asked with
     | Ok _ l' => Ok None l'
     | Raise e l' => Raise e l'
     end /\
   forall file,
     musics l !! i = Some music ->
     music !! py "file" = Some (Str file) ->
     f = Paths.Path_of_str file ->
     is_Some (disk (world l) !! f) ->
     process false i l = asked) /\
  (forall c, returned (choose_file_name i f music l) = Some (Some c) ->
             c = c1 \/ c = c2).
Proof.
  intros Ht Ha Htt Hta c1 c2 taken asked.
  pose proof (ApplyFacts.choose_file_name_eq i f music l title artist Ht Ha Htt Hta)
    as Heq. cbv zeta in Heq. fold c1 c2 in Heq.
  assert (Htaken : forall c,
            bool_decide (c <> f) && bool_decide (is_Some (disk (world l) !! c)) = true
            <-> taken c).
  { intros c. unfold taken.
    rewrite andb_true_iff, !bool_decide_eq_true. reflexivity. }
  assert (Hcollide : taken c1 -> taken c2 ->
            choose_file_name i f music l =
              match asked with
              | Ok _ l' => Ok None l'
              | Raise e l' => Raise e l'
              end).
  { intros H1 H2. rewrite Heq.
    rewrite (proj2 (Htaken c1) H1), (proj2 (Htaken c2) H2).
    unfold asked.
    destruct (_remove_file_with_permission f (permission_remove_rename_error l) (world l));
      reflexivity. }
  split; [|split; [|split]].
  - intros H1. rewrite Heq.
    destruct (bool_decide (c1 <> f) && bool_decide (is_Some (disk (world l) !! c1)))
      eqn:Hb; [|reflexivity].
    exfalso. apply H1, Htaken. exact Hb.
  - intros H1 H2. rewrite Heq, (proj2 (Htaken c1) H1).
    destruct (bool_decide (c2 <> f) && bool_decide (is_Some (disk (world l) !! c2)))
      eqn:Hb; [|reflexivity].
    exfalso. apply H2, Htaken. exact Hb.
  - intros H1 H2. split; [exact (Hcollide H1 H2)|].
    intros file Hm Hf -> Hd.
    rewrite (ApplyFacts.process_found i l music file Hm Hf Hd).
    unfold bind at 1. rewrite (Hcollide H1 H2). unfold bind, asked, ret.
    destruct (_remove_file_with_permission _ (permission_remove_rename_error l) (world l));
      reflexivity.
  - intros c Hc. rewrite Heq in Hc.
    destruct (bool_decide (c1 <> f) && bool_decide (is_Some (disk (world l) !! c1)));
      [|injection Hc as <-; left; reflexivity].
    destruct (bool_decide (c2 <> f) && bool_decide (is_Some (disk (world l) !! c2)));
      [|injection Hc as <-; right; reflexivity].
    destruct (_remove_file_with_permission f (permission_remove_rename_error l) (world l));
      discriminate.
Qed.

Lemma at_most_two_candidate_names_witness :
  let l := start names_taken [song] in
  let f := Paths.Path_of_str (py "m/old.mp3") in
  let c1 := Paths.Path_of_str (py "m/Song.mp3") in
  let c2 := Paths.Path_of_str (py "m/Artist-Song.mp3") in
  (song !! py "title" = Some (Str (py "Song")) /\
   song !! py "artist" = Some (Str (py "Artist")) /\
   truthy (Str (py "Song")) = true /\ truthy (Str (py "Artist")) = true) /\
  (_gen_new_file_name f (py "Song") = c1 /\ c1 <> f /\
   is_Some (disk (world l) !! c1)) /\
  (_gen_new_file_name f (py "Artist-Song") = c2 /\ c2 <> f /\
   is_Some (disk (world l) !! c2)) /\
  returned (choose_file_name 0 f song l) = Some None /\
  to_pop (final (choose_file_name 0 f song l)) = [0%nat] /\
  log (world (final (choose_file_name 0 f song l))) = [Prompt f; OsRemove f].
Proof.
  intros l f c1 c2.
  assert (Ht : song !! py "title" = Some (Str (py "Song"))) by (vm_compute; reflexivity).
  assert (Ha : song !! py "artist" = Some (Str (py "Artist")))
    by (vm_compute; reflexivity).
  assert (Htt : truthy (Str (py "Song")) = true) by reflexivity.
  assert (Hta : truthy (Str (py "Artist")) = true) by reflexivity.
  assert (H1 : _gen_new_file_name f (py "Song") = c1 /\ c1 <> f /\
               is_Some (disk (world l) !! c1)).
  { split; [vm_compute; reflexivity|]. split; [vm_compute; discriminate|].
    by_compute. }
  assert (H2 : _gen_new_file_name f (py "Artist-Song") = c2 /\ c2 <> f /\
               is_Some (disk (world l) !! c2)).
  { split; [vm_compute; reflexivity|]. split; [vm_compute; discriminate|].
    by_compute. }
  split; [auto|]. split; [exact H1|]. split; [exact H2|].
  destruct (@at_most_two_candidate_names ascii_only 0%nat f song l
              (Str (py "Song")) (Str (py "Artist")) Ht Ha Htt Hta)
    as (_ & _ & Hboth & _).
  destruct H1 as (E1 & N1 & D1), H2 as (E2 & N2 & D2).
  destruct Hboth as [Hrun _].
  - change (py_str (Str (py "Song"))) with (py "Song"). rewrite E1. auto.
  - change (py_str (Str (py "Artist")) ++ [45] ++ py_str (Str (py "Song")))
      with (py "Artist-Song"). rewrite E2. auto.
  - rewrite Hrun. vm_compute. auto.
Defined.

(** C9. A granted permission makes the program call [os.remove] on the
    named file, whatever the kind of the permission, and an error of that
    call is swallowed (the call raises only when the input has ended).
    For the orphans the named file is the orphan; for a record it is the
    file of the record, missing (remove_not_found) or still there
    (remove_rename_error, remove_edit_error): then the file itself goes
    from the disk, and the record is marked to be popped. *)
Theorem granted_permission_removes_the_file `{Python} :
  (forall file permission w p w',
     _remove_file_with_permission file permission w = Ok p w' ->
     if startswith_y p then removal_attempted file w w' else disk w' = disk w) /\
  (forall file permission w e w',
     _remove_file_with_permission file permission w = Raise e w' ->
     e = EOFError /\ w' = w /\ stdin w = []) /\
  (forall f rest permission w,
     remove_orphans (f :: rest) permission w =
       bind (_remove_file_with_permission (Paths.Path_of_str f) permission)
            (fun p => remove_orphans rest (Some p)) w) /\
  (forall allow_miscellaneous i l music file l',
     musics l !! i = Some music ->
     music !! py "file" = Some (Str file) ->
     disk (world l) !! Paths.Path_of_str file = None ->
     process allow_miscellaneous i l = Ok tt l' ->
     exists p,
       permission_remove_not_found l' = Some p /\
       if startswith_y p
       then removal_attempted (Paths.Path_of_str file) (world l) (world l') /\
            to_pop l' = to_pop l ++ [i]
       else disk (world l') = disk (world l) /\ to_pop l' = to_pop l) /\
  (forall i l music file title artist l',
     musics l !! i = Some music ->
     music !! py "file" = Some (Str file) ->
     let f := Paths.Path_of_str file in
     is_Some (disk (world l) !! f) ->
     music !! py "title" = Some title ->
     music !! py "artist" = Some artist ->
     truthy title = true -> truthy artist = true ->
     let c1 := _gen_new_file_name f (py_str title) in
     let c2 := _gen_new_file_name f (py_str artist ++ [45] ++ py_str title) in
     c1 <> f -> is_Some (disk (world l) !! c1) ->
     c2 <> f -> is_Some (disk (world l) !! c2) ->
     process false i l = Ok tt l' ->
     exists p,
       permission_remove_rename_error l' = Some p /\
       if startswith_y p
       then removal_attempted f (world l) (world l') /\ to_pop l' = to_pop l ++ [i]
       else disk (world l') = disk (world l) /\ to_pop l' = to_pop l) /\
  (forall i f l music tags bitrate len l',
     musics l !! i = Some music ->
     disk (world l) !! f = Some (Audio tags bitrate len) ->
     tags <> new_tags_of music ->
     save_outcome (faults (world l)) f = SavePermissionError ->
     write_tags i f l = Ok tt l' ->
     exists p,
       permission_remove_edit_error l' = Some p /\
       if startswith_y p
       then removal_attempted f (world l) (world l') /\ to_pop l' = to_pop l ++ [i]
       else disk (world l') = disk (world l) /\ to_pop l' = to_pop l).
Proof.
  split; [|split; [|split; [|split; [|split]]]].
  - intros file permission w p w' Hrun.
    pose proof (ApplyFacts.remove_granted file permission w w w' [] p
                  eq_refl eq_refl (eq_sym (app_nil_r _)) Hrun) as Hg.
    destruct (startswith_y p); [exact Hg | exact (proj1 Hg)].
  - intros file permission w e w'. apply ApplyFacts.remove_raises.
  - reflexivity.
  - intros allow_miscellaneous i l music file l' Hm Hf Hd Hrun.
    rewrite (ApplyFacts.process_not_found allow_miscellaneous i l music file Hm Hf Hd)
      in Hrun.
    destruct (_remove_file_with_permission _ (permission_remove_not_found l) (world l))
      as [p w'|e w'] eqn:Hr; [|discriminate].
    pose proof (ApplyFacts.remove_granted _ _ (world l) _ _ [] p
                  eq_refl eq_refl (eq_sym (app_nil_r _)) Hr) as Hg.
    injection Hrun as <-. exists p. cbv zeta.
    destruct (startswith_y p); simpl; [auto | split; [|split]; tauto].
  - intros i l music file title artist l' Hm Hf f Hd Ht Ha Htt Hta c1 c2 N1 D1 N2 D2 Hrun.
    pose proof (ApplyFacts.choose_file_name_collision i f music l title artist
                  Ht Ha Htt Hta (conj N1 D1) (conj N2 D2)) as Hasked.
    rewrite (ApplyFacts.process_found i l music file Hm Hf Hd) in Hrun.
    fold f in Hrun. unfold bind at 1 in Hrun. rewrite Hasked in Hrun.
    destruct (_remove_file_with_permission f (permission_remove_rename_error l) (world l))
      as [p w'|e w'] eqn:Hr; [|discriminate].
    pose proof (ApplyFacts.remove_granted _ _ (world l) _ _ [] p
                  eq_refl eq_refl (eq_sym (app_nil_r _)) Hr) as Hg.
    unfold ret in Hrun. injection Hrun as <-. exists p. cbv zeta.
    destruct (startswith_y p); simpl; [auto | split; [|split]; tauto].
  - intros i f l music tags bitrate len l' Hm Hd Hne Hs Hrun.
    rewrite (ApplyFacts.write_tags_eq i f l music tags bitrate len Hm Hd) in Hrun.
    rewrite bool_decide_eq_false_2, Hs in Hrun by exact Hne.
    match type of Hrun with
    | context [_remove_file_with_permission ?a ?b ?c] =>
        destruct (_remove_file_with_permission a b c) as [p w'|e w'] eqn:Hr;
          [|discriminate];
        pose proof (ApplyFacts.remove_granted a b (world l) c w'
                      [TagsClear f; TagsUpdate f (new_tags_of music); TagsSave f] p
                      eq_refl eq_refl) as Hg
    end.
    specialize (Hg ltac:(simpl; rewrite <- !app_assoc; reflexivity) Hr).
    injection Hrun as <-. exists p. cbv zeta.
    destruct (startswith_y p); simpl; [auto | split; [|split]; tauto].
Qed.

Lemma granted_permission_removes_the_file_witness :
  let f := Paths.Path_of_str (py "m/old.mp3") in
  let l := start names_taken [song] in
  let g := Paths.Path_of_str (py "m/Song.mp3") in
  let k := start (song_alone read_only) [song_renamed] in
  (is_Some (disk (world l) !! f) /\
   exists l', process false 0 l = Ok tt l' /\
              permission_remove_rename_error l' = Some (py "y") /\
              disk (world l') !! f = None /\ to_pop l' = [0%nat]) /\
  (is_Some (disk (world k) !! g) /\
   exists k', write_tags 0 g k = Ok tt k' /\
              permission_remove_edit_error k' = Some (py "y") /\
              disk (world k') !! g = None /\ to_pop k' = [0%nat]).
Proof.
  intros f l g k.
  destruct (@granted_permission_removes_the_file ascii_only)
    as (_ & _ & _ & _ & Hrename & Hedit).
  assert (Hsy : startswith_y (py "y") = true) by reflexivity.
  split.
  - assert (Hd : is_Some (disk (world l) !! f)) by by_compute.
    split; [exact Hd|].
    assert (Hm : musics l !! 0%nat = Some song) by reflexivity.
    assert (Hf : song !! py "file" = Some (Str (py "m/old.mp3")))
      by (vm_compute; reflexivity).
    assert (Ht : song !! py "title" = Some (Str (py "Song")))
      by (vm_compute; reflexivity).
    assert (Ha : song !! py "artist" = Some (Str (py "Artist")))
      by (vm_compute; reflexivity).
    assert (N1 : _gen_new_file_name f (py_str (Str (py "Song"))) <> f)
      by refute_by_compute.
    assert (D1 : is_Some (disk (world l)
                            !! _gen_new_file_name f (py_str (Str (py "Song")))))
      by by_compute.
    assert (N2 : _gen_new_file_name f
                   (py_str (Str (py "Artist")) ++ [45] ++ py_str (Str (py "Song")))
                 <> f) by refute_by_compute.
    assert (D2 : is_Some (disk (world l)
                   !! _gen_new_file_name f
                        (py_str (Str (py "Artist")) ++ [45] ++ py_str (Str (py "Song")))))
      by by_compute.
    assert (Hrun : process false 0 l = Ok tt (final (process false 0 l)))
      by (vm_compute; reflexivity).
    exists (final (process false 0 l)). split; [exact Hrun|].
    destruct (Hrename 0%nat l song (py "m/old.mp3") (Str (py "Song"))
                (Str (py "Artist")) (final (process false 0 l))
                Hm Hf Hd Ht Ha eq_refl eq_refl N1 D1 N2 D2 Hrun)
      as (p & Hp & Hgranted).
    assert (Hy : permission_remove_rename_error (final (process false 0 l))
                 = Some (py "y")) by (vm_compute; reflexivity).
    rewrite Hy in Hp. injection Hp as <-. rewrite Hsy in Hgranted.
    destruct Hgranted as [[_ Hdisk] Hpop].
    split; [exact Hy|]. split; [|exact Hpop].
    rewrite Hdisk. vm_compute. reflexivity.
  - assert (Hd : disk (world k) !! g
                 = Some (Audio (tags_of [("title", "old")]%string) 128000 (py "03:00")))
      by (vm_compute; reflexivity).
    split; [rewrite Hd; eauto|].
    assert (Hm : musics k !! 0%nat = Some song_renamed) by reflexivity.
    assert (Hne : tags_of [("title", "old")]%string <> new_tags_of song_renamed)
      by refute_by_compute.
    assert (Hs : save_outcome (faults (world k)) g = SavePermissionError)
      by reflexivity.
    assert (Hrun : write_tags 0 g k = Ok tt (final (write_tags 0 g k)))
      by (vm_compute; reflexivity).
    exists (final (write_tags 0 g k)). split; [exact Hrun|].
    destruct (Hedit 0%nat g k song_renamed _ _ _ (final (write_tags 0 g k))
                Hm Hd Hne Hs Hrun) as (p & Hp & Hgranted).
    assert (Hy : permission_remove_edit_error (final (write_tags 0 g k))
                 = Some (py "y")) by (vm_compute; reflexivity).
    rewrite Hy in Hp. injection Hp as <-. rewrite Hsy in Hgranted.
    destruct Hgranted as [[_ Hdisk] Hpop].
    split; [exact Hy|]. split; [|exact Hpop].
    rewrite Hdisk. vm_compute. reflexivity.
Defined.

(** C1. The failing input of the claim that the persisted records are the
    loaded ones minus the marked ones.  Three records are loaded; the
    files of the first two are missing and the user grants their removal
    ("ya"), so the indices 0 and 1 are marked.  The pops are made in that
    order on the shrinking list: the second one removes what was the third
    record.  The sheet is left with the second record, which was marked,
    and without the third, which was not.  In general the second of two
    pops removes the record after the one that was marked (and raises
    [IndexError] when there is none); a single pop removes the marked
    record. *)
Theorem popping_by_index_removes_the_wrong_record :
  (forall (A : Type) (a b c : A), pop_all [0; 1]%nat [a; b; c] = Some [b]) /\
  (forall (A : Type) (a b : A), pop_all [0; 1]%nat [a; b] = None) /\
  (forall (A : Type) (i j : nat) (l : list A),
     (i <= j)%nat -> (S j < length l)%nat ->
     pop_all [i; j] l = Some (delete i (delete (S j) l))) /\
  (forall (A : Type) (i : nat) (l : list A),
     (i < length l)%nat -> pop_all [i] l = Some (delete i l)) /\
  to_pop (run_loop false (start two_gone three_records)) = [0; 1]%nat /\
  exists w',
    apply_tags ask_every_time false two_gone = Ok tt w' /\
    log w' = [Prompt (Paths.Path_of_str (py "m/a.mp3"));
              OsRemove (Paths.Path_of_str (py "m/a.mp3"));
              OsRemove (Paths.Path_of_str (py "m/b.mp3"))] /\
    (fun sheet => map (fun ir => at_col ir.2 "file") (rows (data sheet)))
      <$> music_info_file w' = Some [Str (py "m/b.mp3")].
Proof.
  split; [reflexivity|]. split; [reflexivity|].
  split; [intros A; apply ApplyFacts.pop_all_two|].
  split; [intros A; apply ApplyFacts.pop_all_one|].
  split; [vm_compute; reflexivity|].
  exists (final (apply_tags ask_every_time false two_gone)).
  split; [vm_compute; reflexivity|]. split; vm_compute; reflexivity.
Qed.

End Claims.

(** * Further properties of the code *)

(** ** More about the ad-text stripping *)
Module StripFacts.
Import Re ReFacts Utils PyStr UtilsFacts.

Section WithPython.
Context {U : Python}.
Implicit Types (s t w y : pystr).

(** What [rstrip] leaves does not end with whitespace. *)
Lemma rstrip_last s init c :
  rstrip s = init ++ [c] -> Char.is_space c = false.
Proof.
  revert init. induction s as [|x s IH]; intros init Heq.
  - destruct init; discriminate.
  - simpl in Heq. destruct (rstrip s) as [|y r] eqn:Hr.
    + destruct (Char.is_space x) eqn:Hx; [destruct init; discriminate|].
      destruct init as [|i init]; [injection Heq as <-; exact Hx|].
      injection Heq as _ Heq. destruct init; discriminate.
    + destruct init as [|i init]; [discriminate|].
      injection Heq as _ Heq. apply (IH init). exact Heq.
Qed.

(** What [strip] leaves does not start with whitespace. *)
Lemma strip_head s c r : strip s = c :: r -> Char.is_space c = false.
Proof.
  unfold strip. destruct (lstrip_head s) as [-> | (c' & r' & -> & Hc)];
    [discriminate|].
  destruct (rstrip_head c' r' Hc) as [r'' ->]. intros [= <- _]. exact Hc.
Qed.

(** A token holds a dot or an at sign. *)
Lemma token_has_dot_or_at w : lang token w -> In 46 w \/ In 64 w.
Proof.
  intros [Hurl | Hhandle].
  - left. destruct Hurl as (w1 & w2 & -> & _ & w3 & w4 & -> & (c & -> & Hc) & _).
    apply N.eqb_eq in Hc. subst c. apply in_or_app. right. left. reflexivity.
  - right. destruct Hhandle as (w1 & w2 & -> & (c & -> & Hc) & _).
    apply N.eqb_eq in Hc. subst c. left. reflexivity.
Qed.

Lemma no_dot_no_at_no_token s : ~ In 46 s -> ~ In 64 s -> no_token s.
Proof.
  intros Hdot Hat a t -> (tok & rest & -> & Htok).
  destruct (token_has_dot_or_at tok Htok) as [Hin|Hin]; [apply Hdot | apply Hat];
    apply in_or_app; right; apply in_or_app; left; exact Hin.
Qed.

(** The substitution copies characters of the input and writes spaces. *)
Lemma sub_from_chars s : forall skip c,
  In c (sub_from ad_regex [32] skip s) -> c = 32 \/ In c s.
Proof.
  induction s as [|x s IH]; intros skip c Hin.
  - rewrite sub_from_nil in Hin. destruct Hin.
  - destruct skip as [|n].
    + rewrite sub_from_cons in Hin.
      destruct (match_at ad_regex (x :: s)) as [rest|].
      * destruct Hin as [<-|Hin]; [left; reflexivity|].
        destruct (IH _ _ Hin); [left | right; right]; assumption.
      * destruct Hin as [<-|Hin]; [right; left; reflexivity|].
        destruct (IH _ _ Hin); [left | right; right]; assumption.
    + destruct (IH n c Hin); [left | right; right]; assumption.
Qed.

Lemma sub_from_length s : forall skip,
  (length (sub_from ad_regex [32%N] skip s) <= length s)%nat.
Proof.
  induction s as [|x s IH]; intros skip.
  - rewrite sub_from_nil. reflexivity.
  - destruct skip as [|n].
    + rewrite sub_from_cons.
      destruct (match_at ad_regex (x :: s)); simpl; apply le_n_S, IH.
    + specialize (IH n). simpl in *. lia.
Qed.

Lemma strip_chars s c : In c (strip s) -> In c s.
Proof.
  intros Hin. destruct (strip_infix s) as (l & e & Heq). rewrite Heq.
  apply in_or_app. right. apply in_or_app. left. exact Hin.
Qed.

Lemma strip_length s : (length (strip s) <= length s)%nat.
Proof.
  destruct (strip_infix s) as (l & e & Heq). rewrite Heq at 2.
  rewrite !length_app. lia.
Qed.

(** The cell, in terms of the stripped substitution. *)
Lemma remove_websites_and_tags_cell_Str s r :
  remove_websites_and_tags_cell (Str s) = Str r ->
  r = strip (sub ad_regex [32] s) /\ r <> [].
Proof.
  unfold remove_websites_and_tags_cell.
  destruct (strip (sub ad_regex [32] s)) as [|c r']; [discriminate|].
  intros [= <-]. split; [reflexivity | discriminate].
Qed.

End WithPython.
End StripFacts.

(** ** More about the matcher and the normalisation *)
Module NormaliseMore.
Import Re ReFacts Utils PyStr UtilsFacts Frame Organizer FrameFacts NormaliseFacts.

Section WithPython.
Context {U : Python}.

(** A match anywhere in the string is found by the search. *)
Lemma search_complete (r : regex) (w : pystr) : forall a b : pystr,
  lang r w -> search r (a ++ w ++ b) = true.
Proof.
  intros a b Hw. induction a as [|c a IH].
  - simpl app. destruct (w ++ b) as [|c s] eqn:Hs; simpl.
    + destruct (match_at r []) eqn:Hm; [reflexivity|].
      exfalso. apply (match_at_None _ _ Hm w b); [symmetry; exact Hs | exact Hw].
    + destruct (match_at r (c :: s)) eqn:Hm; [reflexivity|].
      exfalso. apply (match_at_None _ _ Hm w b); [symmetry; exact Hs | exact Hw].
  - simpl. destruct (match_at r (c :: a ++ w ++ b)); [reflexivity | exact IH].
Qed.

Lemma search_sound (r : regex) (s : pystr) :
  search r s = true -> exists a w b, s = a ++ w ++ b /\ lang r w.
Proof.
  induction s as [|c s IH]; simpl.
  - destruct (match_at r []) as [rest|] eqn:Hm; [|discriminate].
    intros _. apply match_at_Some in Hm as (w & Hs & Hw).
    exists [], w, rest. auto.
  - destruct (match_at r (c :: s)) as [rest|] eqn:Hm.
    + intros _. apply match_at_Some in Hm as (w & Hs & Hw).
      exists [], w, rest. auto.
    + intros Hs. destruct (IH Hs) as (a & w & b & -> & Hw).
      exists (c :: a), w, b. auto.
Qed.

(** A word without spaces that shows in the output of the substitution
    shows in its input. *)
Lemma sub_infix (u : pystr) : u <> [] -> ~ In 32 u ->
  forall (s : pystr) (skip : nat) (a b : pystr),
    sub_from ad_regex [32] skip s = a ++ u ++ b ->
    exists a' b', s = a' ++ u ++ b'.
Proof.
  intros Hne Hsp. induction s as [|c s IH]; intros skip a b Heq.
  - rewrite sub_from_nil in Heq. destruct a; [destruct u; [congruence|]|]; discriminate.
  - assert (Htail : forall n a0 b0,
              sub_from ad_regex [32] n s = a0 ++ u ++ b0 ->
              exists a' b', c :: s = a' ++ u ++ b').
    { intros n a0 b0 H0. destruct (IH n a0 b0 H0) as (a' & b' & ->).
      exists (c :: a'), b'. reflexivity. }
    destruct skip as [|n]; [|exact (Htail n a b Heq)].
    destruct a as [|x a].
    + destruct (sub_copies_prefix u (c :: s) b Heq Hsp) as [s' Hs'].
      exists [], s'. exact Hs'.
    + rewrite sub_from_cons in Heq.
      destruct (match_at ad_regex (c :: s)) as [rest|];
        injection Heq as _ Heq; eapply Htail; exact Heq.
Qed.

Lemma strip_infix_of (u s : pystr) (a b : pystr) :
  strip s = a ++ u ++ b -> exists a' b', s = a' ++ u ++ b'.
Proof.
  intros Heq. destruct (strip_infix s) as (l & e & Hs).
  exists (l ++ a), (b ++ e). rewrite Hs at 1. rewrite Heq, <- !app_assoc. reflexivity.
Qed.

(** The cell-level functions on strings. *)
Lemma strip_ads_Str (x : cell) (r : pystr) :
  strip_ads x = Str r ->
  exists s, x = Str s /\ r = strip (sub ad_regex [32] s) /\ r <> [].
Proof.
  unfold strip_ads. destruct x as [|s|t b]; try discriminate.
  intros Hr. exists s. split; [reflexivity|].
  apply StripFacts.remove_websites_and_tags_cell_Str. exact Hr.
Qed.

Lemma strip_ads_not_null (x : cell) :
  isnull (strip_ads x) = false -> exists s, x = Str s.
Proof. destruct x as [|s|t b]; try discriminate. eauto. Qed.

Lemma null_if_Str (m : bool) (x : cell) (s : pystr) :
  null_if m x = Str s -> m = false /\ x = Str s.
Proof. destruct m; [discriminate | auto]. Qed.

Lemma keep_if_not_null (m : bool) (x : cell) :
  keep_if m x <> Null -> m = true /\ keep_if m x = x.
Proof. intros H. destruct m; [auto | exfalso; apply H; reflexivity]. Qed.

(** A column no statement assigns keeps its cell, whatever its name. *)
Lemma lookup_upd_other (k : string) (f : row -> cell) (r : row) (c : pystr) :
  py k <> c -> upd k f r !! c = r !! c.
Proof. intros Hne. unfold upd. apply lookup_insert_ne. exact Hne. Qed.

Lemma normalise_row_other (r : row) (c : pystr) :
  c ∉ map py ["date"; "bpm"; "discnumber"; "tracknumber"; "genre";
              "albumartist"; "album"; "artist"; "title"]%string ->
  normalise_row r !! c = r !! c.
Proof.
  intros Hc.
  assert (Hne : forall k : string,
            k ∈ ["date"; "bpm"; "discnumber"; "tracknumber"; "genre";
                 "albumartist"; "album"; "artist"; "title"]%string -> py k <> c).
  { intros k Hk <-. apply Hc. apply list_elem_of_fmap_2 with (f := py). exact Hk. }
  unfold normalise_row.
  rewrite !lookup_upd_other by (apply Hne; repeat constructor).
  unfold double_check. cbv zeta.
  rewrite !lookup_insert_ne by (apply Hne; repeat constructor).
  rewrite !lookup_upd_other by (apply Hne; repeat constructor).
  reflexivity.
Qed.

(** The cells of a normalised row, in terms of the row it comes from. *)
Lemma normalise_row_bpm (r : row) :
  at_col (normalise_row r) "bpm"
  = keep_if (numeric_mask (at_col r "bpm")) (at_col r "bpm").
Proof.
  unfold normalise_row. repeat other_column.
  rewrite at_col_double_check_ne by (vm_compute; discriminate).
  repeat other_column. rewrite at_col_upd_eq. unfold filter_bpm.
  repeat other_column. reflexivity.
Qed.

Lemma normalise_row_discnumber (r : row) :
  at_col (normalise_row r) "discnumber"
  = keep_if (numeric_mask_without 47 (at_col r "discnumber")) (at_col r "discnumber").
Proof.
  unfold normalise_row. repeat other_column.
  rewrite at_col_double_check_ne by (vm_compute; discriminate).
  repeat other_column. rewrite at_col_upd_eq. unfold filter_discnumber.
  repeat other_column. reflexivity.
Qed.

Lemma normalise_row_date (r : row) :
  at_col (normalise_row r) "date"
  = keep_if (numeric_mask_without 45 (consolidate_date r)) (consolidate_date r).
Proof.
  unfold normalise_row. repeat other_column.
  rewrite at_col_double_check_ne by (vm_compute; discriminate).
  repeat other_column. rewrite at_col_upd_eq. unfold filter_date.
  repeat other_column. rewrite at_col_upd_eq. reflexivity.
Qed.

Lemma normalise_row_genre (r : row) :
  at_col (normalise_row r) "genre"
  = strip_ads (null_if (contains genre_regex (at_col r "genre")) (at_col r "genre")).
Proof.
  unfold normalise_row. repeat other_column.
  rewrite at_col_double_check_ne by (vm_compute; discriminate).
  repeat other_column. rewrite at_col_upd_eq, at_col_upd_eq. unfold filter_genre.
  repeat other_column. reflexivity.
Qed.

Lemma album_pair_steps (r : row) :
  let a := at_col r "album" in
  let b := at_col r "albumartist" in
  let b' := strip_ads (null_if (isnull a || contains albumartist_regex b) b) in
  let a' := strip_ads (null_if (isnull b' || contains album_regex a) a) in
  let r' := double_check
              (upd "album" (fun r => strip_ads (at_col r "album"))
                 (upd "album" filter_album
                    (upd "albumartist" (fun r => strip_ads (at_col r "albumartist"))
                       (upd "albumartist" filter_albumartist r)))) in
  at_col r' "album" = null_if (isnull a' || isnull b') a' /\
  at_col r' "albumartist" = null_if (isnull a' || isnull b') b'.
Proof.
  cbv zeta.
  rewrite at_col_double_check_album, at_col_double_check_albumartist.
  repeat first [ rewrite at_col_upd_eq; cbv beta
               | other_column
               | progress unfold filter_album, filter_albumartist ].
  split; reflexivity.
Qed.

Lemma normalise_row_album_pair (r : row) :
  let a := at_col r "album" in
  let b := at_col r "albumartist" in
  let b' := strip_ads (null_if (isnull a || contains albumartist_regex b) b) in
  let a' := strip_ads (null_if (isnull b' || contains album_regex a) a) in
  at_col (normalise_row r) "album" = null_if (isnull a' || isnull b') a' /\
  at_col (normalise_row r) "albumartist" = null_if (isnull a' || isnull b') b'.
Proof.
  cbv zeta. unfold normalise_row. repeat other_column.
  match goal with
  | |- context [upd "albumartist" filter_albumartist ?r0] =>
      pose proof (album_pair_steps r0) as Hsteps; cbv zeta in Hsteps;
      assert (Ha : at_col r0 "album" = at_col r "album")
        by (repeat other_column; reflexivity);
      assert (Hb : at_col r0 "albumartist" = at_col r "albumartist")
        by (repeat other_column; reflexivity)
  end.
  rewrite Ha, Hb in Hsteps. exact Hsteps.
Qed.

Lemma contains_Str (regex : pystr -> bool) (s : pystr) :
  contains regex (Str s) = regex s.
Proof. reflexivity. Qed.

Lemma normalise_lookup (musics : DataFrame) (n i : nat) (r : row) :
  rows musics !! n = Some (i, r) ->
  rows (normalise musics) !! n = Some (i, normalise_row r).
Proof.
  intros Hn. rewrite rows_normalise.
  change (((fun ir : nat * row => (ir.1, normalise_row ir.2)) <$> rows musics) !! n
          = Some (i, normalise_row r)).
  rewrite list_lookup_fmap, Hn. reflexivity.
Qed.

Lemma normalise_elem (musics : DataFrame) (i : nat) (r' : row) :
  (i, r') ∈ rows (normalise musics) ->
  exists r, (i, r) ∈ rows musics /\ r' = normalise_row r.
Proof.
  rewrite rows_normalise. intros Hin.
  apply list_elem_of_In, in_map_iff in Hin as ([j r] & [= <- <-] & Hin).
  exists r. split; [apply list_elem_of_In; exact Hin | reflexivity].
Qed.

(** The placeholders of the genre pattern cannot be brought in by the
    substitution: they hold no space. *)
Lemma placeholder_word (w : pystr) :
  lang (Alt (lit_i (py "unknown")) (Chr (N.eqb 63))) w -> w <> [] /\ ~ In 32 w.
Proof.
  intros Hw. split.
  - apply (lang_nonempty (Alt (lit_i (py "unknown")) (Chr (N.eqb 63))));
      [vm_compute; reflexivity | exact Hw].
  - apply (lang_avoids 32 (Alt (lit_i (py "unknown")) (Chr (N.eqb 63))));
      [vm_compute; reflexivity | exact Hw].
Qed.

Lemma strip_ads_keeps_no_placeholder (s g : pystr) :
  search (Alt (lit_i (py "unknown")) (Chr (N.eqb 63))) s = false ->
  strip_ads (Str s) = Str g ->
  search (Alt (lit_i (py "unknown")) (Chr (N.eqb 63))) g = false.
Proof.
  intros Hs Hg.
  destruct (search (Alt (lit_i (py "unknown")) (Chr (N.eqb 63))) g) eqn:Hsg;
    [|reflexivity].
  apply search_sound in Hsg as (a & w & b & Heq & Hw).
  destruct (placeholder_word w Hw) as [Hne Hsp].
  apply strip_ads_Str in Hg as (s0 & [= <-] & Hgs & _).
  rewrite Hgs in Heq. apply strip_infix_of in Heq as (a1 & b1 & Heq).
  apply (sub_infix w Hne Hsp) in Heq as (a2 & b2 & ->).
  rewrite (search_complete _ w a2 b2 Hw) in Hs. discriminate.
Qed.

Lemma no_placeholder_no_question_mark (g : pystr) :
  search (Alt (lit_i (py "unknown")) (Chr (N.eqb 63))) g = false -> ~ In 63 g.
Proof.
  intros Hs Hin. apply in_split in Hin as (a & b & ->).
  rewrite (search_complete _ [63] a b) in Hs; [discriminate|].
  right. exists 63. split; reflexivity.
Qed.

(** A literal matches itself only; a cased literal matches the words
    that are equal to it letter by letter, whatever the case. *)
Lemma lang_lit (u w : pystr) : lang (lit u) w -> w = u.
Proof.
  revert w. induction u as [|c u IH]; intros w; cbn [lit lang].
  - auto.
  - intros (w1 & w2 & -> & (x & -> & Hx) & Hw2).
    apply N.eqb_eq in Hx. subst x. rewrite (IH w2 Hw2). reflexivity.
Qed.

Lemma lang_lit_i (u w : pystr) :
  lang (lit_i u) w <-> Forall2 (fun l c => Char.ci_eq l c = true) u w.
Proof.
  revert w. induction u as [|l u IH]; intros w; cbn [lit_i lang].
  - split; [intros ->; constructor | intros Hw; inversion Hw; reflexivity].
  - split.
    + intros (w1 & w2 & -> & (x & -> & Hx) & Hw2).
      constructor; [exact Hx | apply IH; exact Hw2].
    + intros Hw. inversion Hw as [|? c ? w2 Hc Hw2]; subst.
      exists [c], w2. split; [reflexivity|].
      split; [exists c; auto | apply IH; exact Hw2].
Qed.

(** Where the pattern matches nowhere the substitution changes nothing. *)
Lemma sub_from_no_match (r : regex) (repl : pystr) (s : pystr) :
  (forall a t, s = a ++ t -> match_at r t = None) -> sub_from r repl 0 s = s.
Proof.
  induction s as [|c s IH]; intros Hno.
  - cbn [sub_from]. rewrite (Hno [] [] eq_refl). reflexivity.
  - cbn [sub_from]. rewrite (Hno [] (c :: s) eq_refl). f_equal.
    apply IH. intros a t ->. apply (Hno (c :: a) t). reflexivity.
Qed.

(** The marker holds the code point 201E. *)
Lemma rf_marker_word (w : pystr) : lang rf_marker w -> In 0x201E w.
Proof.
  unfold rf_marker. cbn [lang].
  intros (w1 & w2 & -> & _ & w3 & w4 & -> & _ & w5 & w6 & -> & _ & Hw6).
  apply lang_lit in Hw6. subst w6.
  apply in_or_app. right. apply in_or_app. right. apply in_or_app. right.
  left. reflexivity.
Qed.

Lemma sub_rf_marker_same (s : pystr) :
  ~ In 0x201E s -> sub rf_marker [] s = s.
Proof.
  intros Hno. apply sub_from_no_match. intros a t ->.
  destruct (match_at rf_marker t) as [rest|] eqn:Hm; [|reflexivity].
  exfalso. apply match_at_Some in Hm as (w & -> & Hw).
  apply Hno. apply in_or_app. right. apply in_or_app. left.
  apply rf_marker_word. exact Hw.
Qed.

Lemma normalise_row_artist (r : row) :
  at_col (normalise_row r) "artist"
  = strip_ads (str_map (sub rf_marker []) (at_col r "artist")).
Proof.
  unfold normalise_row. repeat other_column.
  rewrite at_col_upd_eq, at_col_upd_eq. unfold strip_marker.
  rewrite at_col_double_check_ne by (vm_compute; discriminate).
  repeat other_column. reflexivity.
Qed.

Lemma normalise_row_title (r : row) :
  at_col (normalise_row r) "title" = strip_ads (at_col r "title").
Proof.
  unfold normalise_row. rewrite at_col_upd_eq. repeat other_column.
  rewrite at_col_double_check_ne by (vm_compute; discriminate).
  repeat other_column. reflexivity.
Qed.

Lemma strip_ads_null (x : cell) :
  isnull (strip_ads x) = false
  <-> exists s, x = Str s /\ strip (sub ad_regex [32] s) <> [].
Proof.
  destruct x as [|s|t b]; cbn.
  - split; [discriminate | intros (s & Hs & _); discriminate].
  - destruct (strip (sub ad_regex [32] s)) eqn:Hs; cbn.
    + split; [discriminate | intros (s0 & [= <-] & Hne); congruence].
    + split; [|reflexivity]. intros _. exists s. split; [reflexivity|].
      rewrite Hs. discriminate.
  - split; [discriminate | intros (s & Hs & _); discriminate].
Qed.

Lemma before_no_sep (sep : N) (s : pystr) : ~ In sep (before sep s).
Proof.
  induction s as [|c s IH]; simpl; [tauto|].
  destruct (c =? sep) eqn:Hc; [simpl; tauto|].
  apply N.eqb_neq in Hc. intros [->|Hin]; [congruence | exact (IH Hin)].
Qed.

End WithPython.
End NormaliseMore.

(** ** More about the catalog and the generated sheet *)
Module GenerateMore.
Import Frame Organizer FrameFacts NormaliseFacts MonadFacts Scenarios.

Section WithPython.
Context {U : Python}.

Lemma read_musics_disk (w w1 : World) (addrs : list pystr) :
  disk w1 = disk w -> read_musics w1 addrs = read_musics w addrs.
Proof. intros Hd. unfold read_musics. rewrite Hd. reflexivity. Qed.

Lemma read_musics_length (w : World) (addrs : list pystr) :
  length (read_musics w addrs) = length (filter (fun a => readable w a = true) addrs).
Proof.
  induction addrs as [|a addrs IH]; [reflexivity|].
  change (read_musics w (a :: addrs))
    with (match disk w !! Paths.Path_of_str a with
          | Some (Audio tags bitrate len) => [music_record a tags bitrate len]
          | _ => []
          end ++ read_musics w addrs).
  rewrite filter_cons, length_app, IH.
  destruct (decide (readable w a = true)) as [Hr|Hr]; unfold readable in Hr;
    destruct (disk w !! Paths.Path_of_str a) as [[tags bitrate len| |]|];
    try discriminate; try (exfalso; apply Hr; reflexivity); reflexivity.
Qed.

Lemma read_musics_nil (w : World) (addrs : list pystr) :
  existsb (readable w) addrs = false -> read_musics w addrs = [].
Proof.
  induction addrs as [|a addrs IH]; [reflexivity|].
  cbn [existsb]. intros Hex. apply orb_false_elim in Hex as [Ha Hrest].
  change (read_musics w (a :: addrs))
    with (match disk w !! Paths.Path_of_str a with
          | Some (Audio tags bitrate len) => [music_record a tags bitrate len]
          | _ => []
          end ++ read_musics w addrs).
  rewrite (IH Hrest). unfold readable in Ha.
  destruct (disk w !! Paths.Path_of_str a) as [[tags bitrate len| |]|];
    [discriminate|reflexivity..].
Qed.

Lemma read_musics_cons (w : World) (addrs : list pystr) :
  existsb (readable w) addrs = true -> read_musics w addrs <> [].
Proof.
  intros Hex Hnil. apply (f_equal length) in Hnil.
  rewrite read_musics_length in Hnil.
  apply existsb_exists in Hex as (a & Ha & Hr).
  assert (Hin : a ∈ filter (fun a => readable w a = true) addrs).
  { apply list_elem_of_filter. split; [exact Hr | apply list_elem_of_In; exact Ha]. }
  destruct (filter _ addrs); [inversion Hin | discriminate].
Qed.

(** The records of a run are those of the readable files, by address. *)
Lemma read_musics_elem (w : World) (addrs : list pystr) (r : row) :
  r ∈ read_musics w addrs ->
  exists file tags bitrate len,
    r = music_record file tags bitrate len /\
    file ∈ addrs /\ readable w file = true.
Proof.
  unfold read_musics. intros Hr.
  apply list_elem_of_In, in_flat_map in Hr as (file & Hfile & Hr).
  destruct (disk w !! Paths.Path_of_str file) as [[tags bitrate len| |]|] eqn:Hd;
    [|destruct Hr..].
  destruct Hr as [<-|[]]. exists file, tags, bitrate, len.
  split; [reflexivity|]. split; [apply list_elem_of_In; exact Hfile|].
  unfold readable. rewrite Hd. reflexivity.
Qed.

Lemma read_musics_has (w : World) (addrs : list pystr) (file : pystr) :
  file ∈ addrs -> readable w file = true ->
  exists tags bitrate len, music_record file tags bitrate len ∈ read_musics w addrs.
Proof.
  intros Hin Hr. unfold readable in Hr.
  destruct (disk w !! Paths.Path_of_str file) as [[tags bitrate len| |]|] eqn:Hd;
    try discriminate.
  exists tags, bitrate, len. unfold read_musics.
  apply list_elem_of_In, in_flat_map. exists file.
  split; [apply list_elem_of_In; exact Hin|]. rewrite Hd. left. reflexivity.
Qed.

Lemma music_record_file (file : pystr) (tags : gmap pystr (list cell))
    (bitrate : N) (len : pystr) :
  music_record file tags bitrate len !! py "file" = Some (Str file).
Proof.
  unfold music_record. cbv zeta. cbn [must_have_keys app foldl].
  repeat (rewrite lookup_insert_ne by (vm_compute; discriminate)).
  apply lookup_insert_eq.
Qed.

(** A row of [from_records] holds what its record holds. *)
Lemma fill_lookup (cols : list pystr) (r : row) (k : pystr) (v : cell) :
  r !! k = Some v ->
  foldr (fun k m => match m !! k with
                    | Some _ => m
                    | None => <[k := Null]> m
                    end) r cols !! k = Some v.
Proof.
  intros Hr. induction cols as [|c cols IH]; [exact Hr|].
  cbn [foldr]. destruct (foldr _ r cols !! c) eqn:Hc; [exact IH|].
  rewrite lookup_insert_ne; [exact IH|]. intros ->. congruence.
Qed.

Lemma from_records_elem (records : list row) (i : nat) (r0 : row) :
  (i, r0) ∈ rows (from_records records) ->
  exists r, records !! i = Some r /\ forall k v, r !! k = Some v -> r0 !! k = Some v.
Proof.
  unfold from_records. cbn [rows]. intros Hin.
  apply elem_of_lookup_imap in Hin as (j & r & [= -> ->] & Hj).
  exists r. split; [exact Hj|]. intros k v. apply fill_lookup.
Qed.

Lemma from_records_has (records : list row) (i : nat) (r : row) :
  records !! i = Some r ->
  exists r0, (i, r0) ∈ rows (from_records records) /\
             forall k v, r !! k = Some v -> r0 !! k = Some v.
Proof.
  intros Hi. unfold from_records. cbn [rows]. eexists. split.
  - apply elem_of_lookup_imap. exists i, r. split; [reflexivity | exact Hi].
  - intros k v. apply fill_lookup.
Qed.

Lemma normalise_row_file (r : row) (v : cell) :
  r !! py "file" = Some v -> at_col (normalise_row r) "file" = v.
Proof.
  intros Hr. unfold at_col. rewrite lookup_total_alt.
  rewrite NormaliseMore.normalise_row_other, Hr; [reflexivity|].
  apply (bool_decide_unpack _). vm_compute. exact I.
Qed.

(** What a run that returns has done. *)
Lemma generate_music_info_run (w : World) (sheet : Sheet) (w' : World) :
  generate_music_info w = Ok sheet w' ->
  let addrs := walk_addrs (tree w) in
  let musics := from_records (read_musics w addrs) in
  let w1 := set_music_info_before_file musics (set_addrs_file addrs w) in
  _do_highlight (normalise musics) w1 = Ok sheet w1 /\
  w' = set_music_info_file sheet w1 /\
  read_musics w addrs <> [].
Proof.
  intros Hrun. cbv zeta. unfold generate_music_info in Hrun.
  rewrite (bind_run _ _ _ _ _ (get_music_addrs_walk w)) in Hrun.
  unfold bind at 1 in Hrun. rewrite read_files_run in Hrun.
  destruct (existsb _ (walk_addrs (tree w))); [discriminate|].
  cbn [app] in Hrun. unfold bind at 1, modify at 1 in Hrun.
  rewrite (read_musics_disk w) in Hrun by reflexivity.
  destruct (has_column "originaldate" _) eqn:Hcol; [|discriminate].
  apply bind_Ok in Hrun as (sheet' & w5 & Hhl & Hrun).
  apply bind_Ok in Hrun as ([] & w6 & Hex & Hrun).
  unfold ret in Hrun. injection Hrun as <- <-.
  unfold to_excel, modify in Hex. injection Hex as <-.
  pose proof (_do_highlight_Ok _ _ _ _ Hhl) as (-> & _).
  split; [exact Hhl|]. split; [reflexivity|].
  intros Hnil. rewrite Hnil in Hcol. discriminate.
Qed.

(** A stream info without a bitrate ends the run, after the listing. *)
Lemma generate_music_info_info (w : World) :
  existsb (info_raises w) (walk_addrs (tree w)) = true ->
  generate_music_info w
  = Raise AttributeError (set_addrs_file (walk_addrs (tree w)) w).
Proof.
  intros Hinfo. unfold generate_music_info.
  rewrite (bind_run _ _ _ _ _ (get_music_addrs_walk w)).
  unfold bind at 1. rewrite read_files_run.
  change (existsb (info_raises (set_addrs_file (walk_addrs (tree w)) w))
                  (walk_addrs (tree w)))
    with (existsb (info_raises w) (walk_addrs (tree w))).
  rewrite Hinfo. reflexivity.
Qed.

Lemma generate_music_info_empty (w : World) :
  existsb (info_raises w) (walk_addrs (tree w)) = false ->
  read_musics w (walk_addrs (tree w)) = [] ->
  generate_music_info w
  = Raise KeyError
      (set_music_info_before_file (from_records [])
         (set_addrs_file (walk_addrs (tree w)) w)).
Proof.
  intros Hinfo Hnil. unfold generate_music_info.
  rewrite (bind_run _ _ _ _ _ (get_music_addrs_walk w)).
  unfold bind at 1. rewrite read_files_run.
  change (existsb (info_raises (set_addrs_file (walk_addrs (tree w)) w))
                  (walk_addrs (tree w)))
    with (existsb (info_raises w) (walk_addrs (tree w))).
  rewrite Hinfo. cbn [app]. unfold bind at 1, modify at 1.
  rewrite (read_musics_disk w) by reflexivity. rewrite Hnil. reflexivity.
Qed.

Lemma generate_music_info_readable (w : World) :
  existsb (info_raises w) (walk_addrs (tree w)) = false ->
  existsb (readable w) (walk_addrs (tree w)) = true ->
  exists sheet w', generate_music_info w = Ok sheet w'.
Proof.
  intros Hinfo Hex. apply generate_music_info_returns; [exact Hinfo|].
  rewrite (read_musics_disk w) by reflexivity.
  apply read_musics_cons. exact Hex.
Qed.

Lemma sheet_rows_permutation (musics : DataFrame) (w : World) (sheet : Sheet)
    (w' : World) :
  NoDup (map fst (rows musics)) ->
  _do_highlight musics w = Ok sheet w' ->
  rows (data sheet) ≡ₚ rows musics.
Proof.
  intros Hnd Hhl.
  destruct (_do_highlight_partition musics w sheet w' Hnd Hhl) as [_ ->].
  apply filter_app_complement.
Qed.

End WithPython.
End GenerateMore.

(** ** More about the apply phase *)
Module ApplyMore.
Import Frame Organizer MonadFacts ApplyFacts.

Section WithPython.
Context {U : Python}.

(** What [os.remove] inside its [try] leaves of the world. *)
Lemma after_os_remove_disk (file : Path) (w : World) :
  disk (after_os_remove file w)
  = match disk w !! file with
    | Some _ => if remove_fails (faults w) file then disk w else delete file (disk w)
    | None => disk w
    end.
Proof.
  unfold after_os_remove. destruct (disk w !! file); [|reflexivity].
  destruct (remove_fails (faults w) file); reflexivity.
Qed.

Lemma after_os_remove_rest (file : Path) (w : World) :
  stdin (after_os_remove file w) = stdin w /\
  faults (after_os_remove file w) = faults w /\
  tree (after_os_remove file w) = tree w /\
  addrs_file (after_os_remove file w) = addrs_file w /\
  music_info_before_file (after_os_remove file w) = music_info_before_file w /\
  music_info_file (after_os_remove file w) = music_info_file w.
Proof.
  unfold after_os_remove. destruct (disk w !! file); [|repeat split].
  destruct (remove_fails (faults w) file); repeat split.
Qed.

Lemma after_os_remove_lookup (file : Path) (w : World) (p : Path) :
  disk (after_os_remove file w) !! p = None \/
  disk (after_os_remove file w) !! p = disk w !! p.
Proof.
  rewrite after_os_remove_disk. destruct (disk w !! file); [|auto].
  destruct (remove_fails (faults w) file); [auto|].
  destruct (decide (p = file)) as [->|Hne].
  - left. apply lookup_delete_eq.
  - right. apply lookup_delete_ne. congruence.
Qed.

Lemma after_os_remove_other (file : Path) (w : World) (p : Path) :
  p <> file -> disk (after_os_remove file w) !! p = disk w !! p.
Proof.
  intros Hne. rewrite after_os_remove_disk. destruct (disk w !! file); [|reflexivity].
  destruct (remove_fails (faults w) file); [reflexivity|].
  apply lookup_delete_ne. congruence.
Qed.

Lemma after_os_remove_gone (file : Path) (w : World) :
  remove_fails (faults w) file = false ->
  disk (after_os_remove file w) !! file = None.
Proof.
  intros Hok. rewrite after_os_remove_disk.
  destruct (disk w !! file) eqn:Hd; [|exact Hd].
  rewrite Hok. apply lookup_delete_eq.
Qed.

(** Under "no to all" the loop over the orphans does nothing. *)
Lemma remove_orphans_na (orphans : list pystr) (w : World) :
  remove_orphans orphans (Some (py "na")) w = Ok (Some (py "na")) w.
Proof.
  induction orphans as [|f rest IH]; [reflexivity|].
  cbn [remove_orphans].
  rewrite (bind_run _ _ _ _ _
             (remove_sticky (Paths.Path_of_str f) (py "na") w
                ltac:(apply (bool_decide_unpack _); vm_compute; exact I))).
  exact IH.
Qed.

(** Under "yes to all" it removes every orphan it can, asking nothing. *)
Lemma remove_orphans_ya (orphans : list pystr) : forall w : World,
  exists w',
    remove_orphans orphans (Some (py "ya")) w = Ok (Some (py "ya")) w' /\
    stdin w' = stdin w /\ faults w' = faults w /\
    log w' = log w ++ map (fun f => OsRemove (Paths.Path_of_str f)) orphans /\
    (forall p, disk w' !! p = None \/ disk w' !! p = disk w !! p) /\
    (forall p, p ∉ map Paths.Path_of_str orphans -> disk w' !! p = disk w !! p) /\
    (forall f, f ∈ orphans ->
               remove_fails (faults w) (Paths.Path_of_str f) = false ->
               disk w' !! Paths.Path_of_str f = None).
Proof.
  induction orphans as [|f rest IH]; intros w.
  - exists w. cbn [remove_orphans map]. rewrite app_nil_r.
    repeat split; auto. intros f Hf. inversion Hf.
  - cbn [remove_orphans].
    rewrite (bind_run _ _ _ _ _
               (remove_sticky (Paths.Path_of_str f) (py "ya") w
                  ltac:(apply (bool_decide_unpack _); vm_compute; exact I))).
    change (startswith_y (py "ya")) with true. cbv iota.
    set (w1 := after_os_remove (Paths.Path_of_str f) w).
    destruct (IH w1) as (w' & Hrun & Hin & Hfaults & Hlog & Hmono & Hother & Hgone).
    destruct (after_os_remove_rest (Paths.Path_of_str f) w) as (Hin1 & Hf1 & _).
    fold w1 in Hin1, Hf1.
    exists w'. split; [exact Hrun|].
    split; [congruence|]. split; [congruence|]. split; [|split; [|split]].
    + rewrite Hlog. unfold w1. rewrite after_os_remove_log.
      cbn [map]. rewrite <- app_assoc. reflexivity.
    + intros p. destruct (Hmono p) as [Hn|He]; [auto|].
      rewrite He. apply after_os_remove_lookup.
    + intros p Hp. cbn [map] in Hp. apply not_elem_of_cons in Hp as [Hne Hp].
      rewrite (Hother p Hp). apply after_os_remove_other. exact Hne.
    + intros g Hg Hok. apply elem_of_cons in Hg as [->|Hg].
      * destruct (Hmono (Paths.Path_of_str f)) as [Hn|He]; [exact Hn|].
        rewrite He. apply after_os_remove_gone. exact Hok.
      * apply Hgone; [exact Hg|]. rewrite Hf1. exact Hok.
Qed.

(** The name chosen for a record is the name of its file or a name no
    file has. *)
Lemma choose_file_name_free (i : nat) (f : Path) (music : row) (l l1 : Loop)
    (new_file_name : Path) :
  choose_file_name i f music l = Ok (Some new_file_name) l1 ->
  l1 = l /\ (new_file_name = f \/ disk (world l) !! new_file_name = None).
Proof.
  assert (Hfree : forall c : Path,
            bool_decide (c <> f) && bool_decide (is_Some (disk (world l) !! c)) = false ->
            c = f \/ disk (world l) !! c = None).
  { intros c Hc. apply andb_false_iff in Hc as [Hc|Hc].
    - left. apply bool_decide_eq_false in Hc.
      destruct (decide (c = f)) as [?|Hne]; [assumption | contradiction].
    - right. apply bool_decide_eq_false in Hc. apply eq_None_not_Some. exact Hc. }
  intros Hrun.
  destruct (music !! py "title") as [title|] eqn:Ht.
  2: { unfold choose_file_name in Hrun. unfold bind at 1 in Hrun.
       unfold item in Hrun. rewrite Ht in Hrun. discriminate. }
  destruct (truthy title) eqn:Htt.
  2: { unfold choose_file_name in Hrun.
       rewrite (bind_run _ _ _ _ _ (item_Some music "title" title l Ht)) in Hrun.
       rewrite Htt in Hrun. unfold bind, ret in Hrun. injection Hrun as <- <-. auto. }
  destruct (music !! py "artist") as [artist|] eqn:Ha.
  2: { unfold choose_file_name in Hrun.
       rewrite (bind_run _ _ _ _ _ (item_Some music "title" title l Ht)) in Hrun.
       rewrite Htt in Hrun. unfold bind at 1 in Hrun. unfold bind at 1 in Hrun.
       unfold item in Hrun. rewrite Ha in Hrun. discriminate. }
  destruct (truthy artist) eqn:Hta.
  2: { rewrite (choose_file_name_keep i f music l title artist Ht Ha) in Hrun
         by (rewrite Htt, Hta; reflexivity).
       injection Hrun as <- <-. auto. }
  rewrite (choose_file_name_eq i f music l title artist Ht Ha Htt Hta) in Hrun.
  cbv zeta in Hrun.
  match type of Hrun with
  | (if ?b then _ else _) = _ => destruct b eqn:H1
  end.
  - match type of Hrun with
    | (if ?b then _ else _) = _ => destruct b eqn:H2
    end.
    + destruct (_remove_file_with_permission f _ (world l)); discriminate.
    + injection Hrun as <- <-. split; [reflexivity | apply Hfree; exact H2].
  - injection Hrun as <- <-. split; [reflexivity | apply Hfree; exact H1].
Qed.

Lemma rename_file_eq (i : nat) (f new_file_name : Path) (l : Loop) :
  rename_file i f new_file_name l
  = let w1 := add_log (OsRename f new_file_name) (world l) in
    match disk (world l) !! f with
    | Some content =>
        if rename_fails (faults (world l)) f new_file_name
        then Ok f (set_world w1 l)
        else Ok new_file_name
               (set_musics
                  (alter (fun m => <[py "file" := Str (Paths.str_of_Path new_file_name)]> m)
                         i (musics l))
                  (set_world
                     (set_disk (fun d => <[new_file_name := content]> (delete f d)) w1)
                     l))
    | None => Ok f (set_world w1 l)
    end.
Proof.
  unfold rename_file, bind, lift, modify, get, music_update, ret.
  cbn [world set_world disk faults add_log].
  destruct (disk (world l) !! f) as [content|]; [|reflexivity].
  destruct (rename_fails (faults (world l)) f new_file_name); reflexivity.
Qed.

(** The loop over a list that starts with [xs]. *)
Lemma for_each_app {S A : Type} (xs ys : list A) (body : A -> M S unit) (s : S) :
  for_each (xs ++ ys) body s
  = bind (for_each xs body) (fun _ => for_each ys body) s.
Proof.
  revert s. induction xs as [|x xs IH]; intros s; [reflexivity|].
  cbn [app for_each]. unfold bind.
  destruct (body x s) as [[] s1|e s1]; [|reflexivity].
  rewrite IH. reflexivity.
Qed.

End WithPython.
End ApplyMore.

(** ** File names *)
Module NameFacts.
Import Re Paths Organizer.

(** The greedy star, with nothing to come after it, takes the longest run
    of characters of its class. *)
Lemma star_greedy (p : N -> bool) (s : pystr) :
  exists pre rest,
    s = pre ++ rest /\ forallb p pre = true /\ star p s Some = Some rest /\
    match rest with
    | c :: _ => p c = false
    | [] => True
    end.
Proof.
  induction s as [|c s IH].
  - exists [], []. repeat split.
  - cbn [star]. destruct (p c) eqn:Hc.
    + destruct IH as (pre & rest & -> & Hpre & -> & Hrest).
      exists (c :: pre), rest. cbn [forallb]. rewrite Hc, Hpre. repeat split.
      exact Hrest.
    + exists [], (c :: s). repeat split. exact Hc.
Qed.

(** Replacing every run of a class by nothing removes the characters of
    the class. *)
Lemma sub_star_filter (p : N -> bool) (s : pystr) : forall skip : nat,
  forallb p (take skip s) = true -> (skip <= length s)%nat ->
  sub_from (Star p) [] skip s = filter (fun c => p c = false) s.
Proof.
  induction s as [|c s IH]; intros skip Hskip Hlen.
  - cbn in Hlen. assert (skip = 0%nat) as -> by lia. reflexivity.
  - destruct skip as [|n].
    + cbn [sub_from]. unfold match_at. cbn [bt].
      destruct (star_greedy p (c :: s)) as (pre & rest & Heq & Hpre & Hstar & Hrest).
      rewrite Hstar.
      assert (Hdiff : (length (c :: s) - length rest)%nat = length pre).
      { rewrite Heq, length_app. lia. }
      rewrite Hdiff. destruct pre as [|x pre].
      * cbn [length]. cbn [app] in Heq. subst rest.
        unfold match_nonempty_at. cbn [bt star]. rewrite Hrest.
        rewrite Nat.ltb_irrefl. cbn [app].
        rewrite filter_cons, decide_True by exact Hrest.
        f_equal. apply IH; [reflexivity | lia].
      * cbn [length]. cbn [app] in Heq. injection Heq as <- ->.
        cbn [forallb] in Hpre. apply andb_prop in Hpre as [Hc Hpre].
        cbn [app]. rewrite filter_cons, decide_False by congruence.
        apply IH.
        -- rewrite take_app_length. exact Hpre.
        -- rewrite length_app. lia.
    + cbn [sub_from]. cbn [take forallb] in Hskip.
      apply andb_prop in Hskip as [Hc Hskip].
      rewrite filter_cons, decide_False by congruence.
      apply IH; [exact Hskip | cbn in Hlen; lia].
Qed.

(** A string without a slash is one component. *)
Lemma split_on_one (sep : N) (s : pystr) : ~ In sep s -> split_on sep s = [s].
Proof.
  induction s as [|c s IH]; [reflexivity|].
  intros Hin. cbn [split_on].
  destruct (c =? sep) eqn:Hc.
  - apply N.eqb_eq in Hc. exfalso. apply Hin. left. exact Hc.
  - rewrite IH; [reflexivity|]. intros Hs. apply Hin. right. exact Hs.
Qed.

Lemma Path_of_str_one (s : pystr) :
  ~ In 47 s ->
  Path_of_str s = ([], if bool_decide (s = [] \/ s = [46]) then [] else [s]).
Proof.
  intros Hin. unfold Path_of_str. rewrite (split_on_one 47 s Hin).
  f_equal.
  - destruct s as [|c s]; [reflexivity|].
    destruct (N.eq_dec c 47) as [->|Hne]; [exfalso; apply Hin; left; reflexivity|].
    destruct c as [|c]; [reflexivity|].
    do 6 (destruct c as [c|c|]; try reflexivity); congruence.
  - rewrite filter_cons, filter_nil.
    destruct (decide (s <> [] /\ s <> [46])) as [[H1 H2]|Hd].
    + rewrite bool_decide_eq_false_2; [reflexivity|]. intros [?|?]; congruence.
    + rewrite bool_decide_eq_true_2; [reflexivity|].
      destruct (decide (s = [])) as [?|H1]; [auto|].
      destruct (decide (s = [46])) as [?|H2]; [auto|].
      exfalso. apply Hd. auto.
Qed.

Lemma cleaned_has_no_slash (s : pystr) :
  ~ In 47 (filter (fun c => illegal c = false) s).
Proof.
  intros Hin. apply list_elem_of_In, list_elem_of_filter in Hin as [Hill _].
  vm_compute in Hill. discriminate.
Qed.

Lemma _gen_new_file_name_eq (file : Path) (new_name : pystr) :
  let cleaned := filter (fun c => illegal c = false) (new_name ++ suffix file) in
  _gen_new_file_name file new_name
  = (if bool_decide (cleaned = [] \/ cleaned = [46]) then parent file
     else (fst file, List.removelast (snd file) ++ [cleaned])).
Proof.
  cbv zeta. unfold _gen_new_file_name, sub.
  rewrite sub_star_filter by (reflexivity || (cbn; lia)).
  unfold joinpath. rewrite Path_of_str_one by apply cleaned_has_no_slash.
  destruct (bool_decide _); [|reflexivity].
  unfold parent. cbn [fst snd]. rewrite app_nil_r. reflexivity.
Qed.

End NameFacts.

(** ** What the loop leaves alone *)
Module FootprintFacts.
Import Frame Organizer MonadFacts ApplyFacts Footprint.

Lemma untouched_refl (w : World) : untouched w w.
Proof. repeat split. Qed.

Lemma untouched_trans (w1 w2 w3 : World) :
  untouched w1 w2 -> untouched w2 w3 -> untouched w1 w3.
Proof.
  unfold untouched. intros (A1 & A2 & A3 & A4 & A5) (B1 & B2 & B3 & B4 & B5).
  repeat split; congruence.
Qed.

Lemma loop_untouched_refl (l : Loop) : loop_untouched l l.
Proof. split; [apply untouched_refl | reflexivity]. Qed.

Lemma loop_untouched_trans (l1 l2 l3 : Loop) :
  loop_untouched l1 l2 -> loop_untouched l2 l3 -> loop_untouched l1 l3.
Proof.
  intros [A1 A2] [B1 B2]. split; [eapply untouched_trans; eassumption | congruence].
Qed.

Lemma keeps_ret {A : Type} (a : A) : keeps (ret a).
Proof. intros l. apply loop_untouched_refl. Qed.

Lemma keeps_raise {A : Type} (e : exn) : keeps (@raise Loop A e).
Proof. intros l. apply loop_untouched_refl. Qed.

Lemma keeps_get : keeps (@get Loop).
Proof. intros l. apply loop_untouched_refl. Qed.

Lemma keeps_bind {A B : Type} (m : M Loop A) (f : A -> M Loop B) :
  keeps m -> (forall a, keeps (f a)) -> keeps (bind m f).
Proof.
  intros Hm Hf l. unfold bind. specialize (Hm l).
  destruct (m l) as [a l1|e l1]; [|exact Hm].
  eapply loop_untouched_trans; [exact Hm | apply Hf].
Qed.

Lemma keeps_modify (f : Loop -> Loop) :
  (forall l, loop_untouched l (f l)) -> keeps (modify f).
Proof. intros Hf l. apply Hf. Qed.

Lemma keeps_lift {A : Type} (m : M World A) : world_keeps m -> keeps (lift m).
Proof.
  intros Hm l. unfold lift. specialize (Hm (world l)).
  destruct (m (world l)) as [a w|e w]; split; try exact Hm; reflexivity.
Qed.

Lemma keeps_try_pass (m : M Loop unit) : keeps m -> keeps (try_pass m).
Proof.
  intros Hm l. unfold try_pass. specialize (Hm l).
  destruct (m l) as [a l1|e l1]; exact Hm.
Qed.

Lemma keeps_for_each {A : Type} (xs : list A) (body : A -> M Loop unit) :
  (forall x, keeps (body x)) -> keeps (for_each xs body).
Proof.
  intros Hbody. induction xs as [|x xs IH]; [apply keeps_ret|].
  cbn [for_each]. apply keeps_bind; [apply Hbody | intros _; exact IH].
Qed.

Lemma keeps_item (music : row) (k : string) : keeps (item music k).
Proof. unfold item. destruct (music !! py k); [apply keeps_ret | apply keeps_raise]. Qed.

Lemma keeps_Path_of_cell (x : cell) : keeps (Path_of_cell x).
Proof. destruct x; [apply keeps_raise | apply keeps_ret | apply keeps_raise]. Qed.

Lemma keeps_music_at (i : nat) : keeps (music_at i).
Proof.
  unfold music_at. apply keeps_bind; [apply keeps_get|]. intros l.
  destruct (musics l !! i); [apply keeps_ret | apply keeps_raise].
Qed.

Lemma keeps_music_update (i : nat) (f : row -> row) : keeps (music_update i f).
Proof.
  unfold music_update. apply keeps_modify. intros l.
  split; [apply untouched_refl|]. cbn [set_musics musics]. apply length_alter.
Qed.

Lemma world_keeps_modify (f : World -> World) :
  (forall w, untouched w (f w)) -> world_keeps (modify f).
Proof. intros Hf w. apply Hf. Qed.

Lemma world_keeps_os_path_exists (f : Path) : world_keeps (os_path_exists f).
Proof. intros w. apply untouched_refl. Qed.

Lemma untouched_after_os_remove (file : Path) (w : World) :
  untouched w (after_os_remove file w).
Proof.
  destruct (ApplyMore.after_os_remove_rest file w) as (_ & H2 & H3 & H4 & H5 & H6).
  repeat split; assumption.
Qed.

Lemma world_keeps_remove (file : Path) (permission : option pystr) :
  world_keeps (_remove_file_with_permission file permission).
Proof.
  intros w.
  destruct (remove_cases file permission w)
    as [(p & w1 & -> & Hw1)|[-> _]]; [|apply untouched_refl].
  cbn [final].
  assert (H1 : untouched w w1).
  { destruct Hw1 as [->|(rest & _ & ->)]; [apply untouched_refl | repeat split]. }
  destruct (startswith_y p); [|exact H1].
  eapply untouched_trans; [exact H1 | apply untouched_after_os_remove].
Qed.

Ltac keeps_step :=
  lazymatch goal with
  | |- keeps (ret _) => apply keeps_ret
  | |- keeps (raise _) => apply keeps_raise
  | |- keeps get => apply keeps_get
  | |- keeps (item _ _) => apply keeps_item
  | |- keeps (Path_of_cell _) => apply keeps_Path_of_cell
  | |- keeps (music_at _) => apply keeps_music_at
  | |- keeps (music_update _ _) => apply keeps_music_update
  | |- keeps (lift (os_path_exists _)) =>
      apply keeps_lift, world_keeps_os_path_exists
  | |- keeps (lift (_remove_file_with_permission _ _)) =>
      apply keeps_lift, world_keeps_remove
  | |- keeps (lift (modify _)) =>
      apply keeps_lift, world_keeps_modify; intros ?; repeat split
  | |- keeps (modify _) => apply keeps_modify; intros ?; repeat split
  | |- keeps (bind _ _) => apply keeps_bind; [|intros ?]
  | |- keeps (if ?b then _ else _) => destruct b
  | |- keeps (match ?x with _ => _ end) => destruct x
  | |- keeps (let _ := _ in _) => cbv zeta
  end.

Section WithPython.
Context {U : Python}.

Lemma keeps_merge_miscellaneous (i : nat) : keeps (merge_miscellaneous i).
Proof. unfold merge_miscellaneous. repeat keeps_step. Qed.

Lemma keeps_choose_file_name (i : nat) (f : Path) (music : row) :
  keeps (choose_file_name i f music).
Proof. unfold choose_file_name. repeat keeps_step. Qed.

Lemma keeps_rename_file (i : nat) (f new_file_name : Path) :
  keeps (rename_file i f new_file_name).
Proof. unfold rename_file. repeat keeps_step. Qed.

Lemma keeps_write_tags (i : nat) (f : Path) : keeps (write_tags i f).
Proof. unfold write_tags. repeat keeps_step. Qed.

Lemma keeps_process (allow_miscellaneous : bool) (i : nat) :
  keeps (process allow_miscellaneous i).
Proof.
  unfold process.
  repeat lazymatch goal with
         | |- keeps (merge_miscellaneous _) => apply keeps_merge_miscellaneous
         | |- keeps (choose_file_name _ _ _) => apply keeps_choose_file_name
         | |- keeps (rename_file _ _ _) => apply keeps_rename_file
         | |- keeps (write_tags _ _) => apply keeps_write_tags
         | |- _ => keeps_step
         end.
Qed.

Lemma run_loop_untouched (allow_miscellaneous : bool) (start : Loop) :
  loop_untouched start (run_loop allow_miscellaneous start).
Proof.
  unfold run_loop.
  pose proof (keeps_try_pass _
                (keeps_for_each (seq 0 (length (musics start)))
                   (process allow_miscellaneous)
                   (keeps_process allow_miscellaneous)) start) as Hk.
  destruct (try_pass _ start); exact Hk.
Qed.

End WithPython.
End FootprintFacts.

(** ** The outcomes of the apply phase *)
Module OutcomeFacts.
Import Frame Organizer MonadFacts FrameFacts NormaliseFacts ApplyFacts Footprint
  FootprintFacts.

Section WithPython.
Context {U : Python}.

Lemma _highlighted_rows_cases (musics : DataFrame) (w : World) :
  _highlighted_rows musics w
  = if has_column "artist" musics && has_column "title" musics
    then Ok (map fst (filter flagged (rows musics))) w
    else Raise KeyError w.
Proof. unfold _highlighted_rows. destruct (_ && _); reflexivity. Qed.

Lemma _do_highlight_Raise (musics : DataFrame) (w : World) (e : exn) (w' : World) :
  _do_highlight musics w = Raise e w' ->
  e = KeyError /\ w' = w /\
  (has_column "artist" musics = false \/ has_column "title" musics = false \/
   (has_column "file" musics = false /\ filter flagged (rows musics) <> [])).
Proof.
  unfold _do_highlight, bind. rewrite _highlighted_rows_cases.
  destruct (has_column "artist" musics) eqn:Ha;
    [|intros [= <- <-]; auto].
  destruct (has_column "title" musics) eqn:Ht;
    [|intros [= <- <-]; auto].
  cbn [andb]. destruct (filter flagged (rows musics)) as [|x xs] eqn:Hf;
    [discriminate|].
  cbn [map].
  destruct (has_column "file" _) eqn:Hfile; [discriminate|].
  intros [= <- <-]. split; [reflexivity|]. split; [reflexivity|].
  right. right. split; [|discriminate].
  destruct (has_column "file" musics) eqn:Hfm; [|reflexivity].
  rewrite <- Hfile. symmetry. apply has_column_elem. unfold append. cbn [columns loc].
  apply elem_of_app. left. apply has_column_elem. exact Hfm.
Qed.

Lemma read_music_info_cases (w : World) :
  read_music_info w
  = match music_info_file w with
    | None => Raise FileNotFoundError w
    | Some sheet =>
        if has_column "artist" (data sheet) && has_column "title" (data sheet)
        then Ok (data sheet) w
        else Raise KeyError w
    end.
Proof.
  unfold read_music_info, bind, get.
  destruct (music_info_file w) as [sheet|]; [|reflexivity].
  rewrite _highlighted_rows_cases. destruct (_ && _); reflexivity.
Qed.

(** The loop over the orphans raises only when the input has ended. *)
Lemma remove_orphans_run (orphans : list pystr) :
  forall (permission : option pystr) (w : World),
    match remove_orphans orphans permission w with
    | Ok _ w' => untouched w w'
    | Raise e w' => e = EOFError /\ stdin w' = [] /\ untouched w w'
    end.
Proof.
  induction orphans as [|f rest IH]; intros permission w.
  - apply untouched_refl.
  - cbn [remove_orphans]. unfold bind.
    pose proof (world_keeps_remove (Paths.Path_of_str f) permission w) as Hk.
    destruct (_remove_file_with_permission (Paths.Path_of_str f) permission w)
      as [p w1|e w1] eqn:Hrun.
    + cbn [final] in Hk. specialize (IH (Some p) w1).
      destruct (remove_orphans rest (Some p) w1) as [q w2|e w2].
      * eapply untouched_trans; eassumption.
      * destruct IH as (-> & Hin & Hu). repeat split; try assumption.
        all: destruct Hk as (K1 & K2 & K3 & K4 & K5);
          destruct Hu as (V1 & V2 & V3 & V4 & V5); congruence.
    + apply remove_raises in Hrun as (-> & -> & Hin).
      split; [reflexivity|]. split; [exact Hin | apply untouched_refl].
Qed.

(** A sheet that could be made has a row. *)
Lemma _do_highlight_not_empty (records : list row) (w : World) (sheet : Sheet)
    (w' : World) :
  _do_highlight (from_records records) w = Ok sheet w' ->
  rows (data sheet) <> [] /\ length (rows (data sheet)) = length records.
Proof.
  intros Hhl.
  pose proof (GenerateMore.sheet_rows_permutation _ _ _ _
                (from_records_NoDup records) Hhl) as Hperm.
  assert (Hlen : length (rows (data sheet)) = length records).
  { rewrite (Permutation_length Hperm), <- (length_map fst), from_records_labels.
    apply length_seq. }
  split; [|exact Hlen].
  destruct records as [|r records].
  - exfalso. clear -Hhl. unfold _do_highlight, bind in Hhl.
    rewrite _highlighted_rows_cases in Hhl. cbn in Hhl. discriminate.
  - intros Hnil. rewrite Hnil in Hlen. discriminate.
Qed.

End WithPython.
End OutcomeFacts.

(** ** The columns of the generated sheet *)
Module SchemaFacts.
Import Frame Organizer MonadFacts FrameFacts NormaliseFacts.

Lemma fill_is_Some (cols : list pystr) (r : row) (c : pystr) :
  is_Some (foldr (fun k m => match m !! k with
                             | Some _ => m
                             | None => <[k := Null]> m
                             end) r cols !! c)
  <-> is_Some (r !! c) \/ c ∈ cols.
Proof.
  induction cols as [|k cols IH]; cbn [foldr].
  - rewrite elem_of_nil. tauto.
  - rewrite elem_of_cons.
    destruct (foldr _ r cols !! k) eqn:Hk.
    + rewrite IH. split; [tauto|]. intros [?|[ ->|?]]; auto.
      apply IH. rewrite Hk. eauto.
    + rewrite lookup_insert_is_Some', IH. split; [intros [ ->|[?|?]]|]; auto.
      intros [?|[ ->|?]]; auto.
Qed.

Lemma from_records_columns (records : list row) (c : pystr) :
  c ∈ columns (from_records records)
  <-> exists r, r ∈ records /\ is_Some (r !! c).
Proof.
  unfold from_records. cbn [columns]. rewrite elem_of_remove_dups.
  rewrite list_elem_of_In, in_flat_map. split.
  - intros (r & Hr & Hc). exists r. split; [apply list_elem_of_In; exact Hr|].
    apply in_map_iff in Hc as ([k v] & <- & Hkv).
    apply list_elem_of_In, elem_of_map_to_list in Hkv. cbn. eauto.
  - intros (r & Hr & [v Hv]). exists r. split; [apply list_elem_of_In; exact Hr|].
    apply in_map_iff. exists (c, v). split; [reflexivity|].
    apply list_elem_of_In, elem_of_map_to_list. exact Hv.
Qed.

Lemma from_records_row_columns (records : list row) (i : nat) (r0 : row) (c : pystr) :
  (i, r0) ∈ rows (from_records records) ->
  is_Some (r0 !! c) <-> c ∈ columns (from_records records).
Proof.
  intros Hin. pose proof Hin as Hrow.
  unfold from_records in Hin. cbn [rows] in Hin.
  apply elem_of_lookup_imap in Hin as (j & r & [= -> ->] & Hj).
  rewrite fill_is_Some. fold (columns (from_records records)).
  split; [|auto]. intros [Hc|Hc]; [|exact Hc].
  apply from_records_columns. exists r. split; [|exact Hc].
  apply list_elem_of_lookup_2 with j. exact Hj.
Qed.

Lemma columns_assign_iff (k : string) (f : row -> cell) (df : DataFrame) (c : pystr) :
  c ∈ columns (assign k f df) <-> c ∈ columns df \/ c = py k.
Proof.
  unfold assign. cbn [columns].
  destruct (bool_decide (py k ∈ columns df)) eqn:Hk.
  - apply bool_decide_eq_true in Hk. split; [auto|]. intros [?| ->]; assumption.
  - rewrite elem_of_app, list_elem_of_singleton. reflexivity.
Qed.

Lemma insert_is_Some (k : pystr) (v : cell) (r : row) (c : pystr) :
  is_Some (<[k := v]> r !! c) <-> c = k \/ is_Some (r !! c).
Proof. rewrite lookup_insert_is_Some'. split; intros [?|?]; auto. Qed.

Lemma upd_is_Some (k : string) (f : row -> cell) (r : row) (c : pystr) :
  is_Some (upd k f r !! c) <-> c = py k \/ is_Some (r !! c).
Proof. unfold upd. apply insert_is_Some. Qed.

Lemma columns_map_rows (f : row -> row) (df : DataFrame) :
  columns (map_rows f df) = columns df.
Proof. reflexivity. Qed.

Section WithPython.
Context {U : Python}.

Lemma columns_normalise_iff (musics : DataFrame) (c : pystr) :
  c ∈ columns (normalise musics)
  <-> c ∈ columns musics \/
      c ∈ map py ["date"; "bpm"; "discnumber"; "tracknumber"; "genre";
                  "albumartist"; "album"; "artist"; "title"]%string.
Proof.
  unfold normalise. cbv zeta.
  rewrite !columns_assign_iff, columns_map_rows, !columns_assign_iff.
  cbn [map]. rewrite !elem_of_cons, elem_of_nil. tauto.
Qed.

Lemma normalise_row_is_Some (r : row) (c : pystr) :
  is_Some (normalise_row r !! c)
  <-> is_Some (r !! c) \/
      c ∈ map py ["date"; "bpm"; "discnumber"; "tracknumber"; "genre";
                  "albumartist"; "album"; "artist"; "title"]%string.
Proof.
  unfold normalise_row. rewrite !upd_is_Some.
  unfold double_check. cbv zeta. rewrite !insert_is_Some.
  rewrite !upd_is_Some.
  cbn [map]. rewrite !elem_of_cons, elem_of_nil. tauto.
Qed.

Lemma music_record_is_Some (file : pystr) (tags : gmap pystr (list cell))
    (bitrate : N) (len : pystr) (c : pystr) :
  is_Some (music_record file tags bitrate len !! c)
  <-> c ∈ map py ["file"; "title"; "artist"; "album"; "albumartist"; "genre";
                  "date"; "bpm"; "tracknumber"; "discnumber"; "originaldate";
                  "bitrate"; "length"; "miscellaneous"]%string.
Proof.
  unfold music_record. cbv zeta. cbn [must_have_keys app foldl].
  rewrite !insert_is_Some, lookup_empty.
  cbn [map]. rewrite !elem_of_cons, elem_of_nil.
  assert (Hnone : ~ is_Some (@None cell)) by (intros [? ?]; discriminate).
  tauto.
Qed.

Lemma _do_highlight_columns_iff (musics : DataFrame) (w : World) (sheet : Sheet)
    (w' : World) (c : pystr) :
  _do_highlight musics w = Ok sheet w' ->
  c ∈ columns (data sheet) <-> c ∈ columns musics.
Proof.
  intros Hhl. split; [|apply (_do_highlight_columns _ _ _ _ _ Hhl)].
  unfold _do_highlight, bind in Hhl.
  destruct (_highlighted_rows musics w) as [h w1|e w1]; [|discriminate].
  assert (Hdata : columns (data sheet)
                  = columns (append (loc h musics) (Frame.drop h musics))).
  { destruct h as [|x h]; [injection Hhl as <- _; reflexivity|].
    destruct (has_column "file" _); [|discriminate].
    injection Hhl as <- _. reflexivity. }
  rewrite Hdata. unfold append. cbn [columns loc Frame.drop].
  intros Hin. apply elem_of_app in Hin as [Hin|Hin]; [exact Hin|].
  apply list_elem_of_filter in Hin as [_ Hin]. exact Hin.
Qed.

(** The columns of the sheet of a run, and the cells of its rows. *)
Lemma generated_sheet_schema (w : World) (sheet : Sheet) (w' : World) :
  generate_music_info w = Ok sheet w' ->
  let names :=
    map py ["file"; "title"; "artist"; "album"; "albumartist"; "genre";
            "date"; "bpm"; "tracknumber"; "discnumber"; "originaldate";
            "bitrate"; "length"; "miscellaneous"]%string in
  (forall c, c ∈ columns (data sheet) <-> c ∈ names) /\
  (forall i r, (i, r) ∈ rows (data sheet) ->
               forall c, is_Some (r !! c) <-> c ∈ names).
Proof.
  intros Hrun names.
  destruct (GenerateMore.generate_music_info_run w sheet w' Hrun) as (Hhl & _ & Hne).
  set (records := read_musics w (walk_addrs (tree w))) in *.
  assert (Hrec : forall r, r ∈ records -> forall c, is_Some (r !! c) <-> c ∈ names).
  { intros r Hr c.
    apply read_musics_records in Hr as (file & tags & bitrate & len & ->).
    apply music_record_is_Some. }
  assert (Hnine : forall c,
            c ∈ map py ["date"; "bpm"; "discnumber"; "tracknumber"; "genre";
                        "albumartist"; "album"; "artist"; "title"]%string ->
            c ∈ names).
  { intros c Hc. unfold names. cbn [map] in *.
    rewrite !elem_of_cons, elem_of_nil in *.
    repeat destruct Hc as [Hc|Hc]; subst; auto 20. }
  assert (Hcols : forall c, c ∈ columns (from_records records) <-> c ∈ names).
  { intros c. rewrite from_records_columns. split.
    - intros (r & Hr & Hc). apply (Hrec r Hr). exact Hc.
    - intros Hc. destruct records as [|r rest]; [contradiction|].
      exists r. split; [left|]. apply (Hrec r); [left | exact Hc]. }
  split.
  - intros c. rewrite (_do_highlight_columns_iff _ _ _ _ c Hhl).
    rewrite columns_normalise_iff, Hcols. split; [|auto].
    intros [Hc|Hc]; [exact Hc | apply Hnine; exact Hc].
  - intros i r Hin c.
    apply (_do_highlight_rows _ _ _ _ Hhl) in Hin.
    apply NormaliseMore.normalise_elem in Hin as (r0 & Hr0 & ->).
    rewrite normalise_row_is_Some.
    rewrite (from_records_row_columns records i r0 c Hr0), Hcols.
    split; [|auto]. intros [Hc|Hc]; [exact Hc | apply Hnine; exact Hc].
Qed.

End WithPython.
End SchemaFacts.

Module Extras.
Import Frame Organizer Examples Scenarios.

Ltac by_compute := apply (bool_decide_unpack _); vm_compute; exact I.
Ltac outcome :=
  repeat match goal with
         | |- _ /\ _ => split
         | |- _ <-> _ => split
         | |- _ -> _ => intros ?
         end;
  try reflexivity; try discriminate; try assumption; try congruence;
  try (apply list_elem_of_In; cbn; tauto).
Ltac refute_by_compute :=
  apply (bool_decide_eq_false_1 _); vm_compute; reflexivity.

(** X1. What the ad-text stripping returns for a cell is null or a string
    that is not empty, neither starts nor ends with whitespace, and in
    which no URL-like token and no handle is left; a cell that is not a
    string comes back null. *)
Theorem stripped_cell_is_clean `{Python} (x : cell) (r : pystr) :
  Utils.remove_websites_and_tags_cell x = Str r ->
  (exists s, x = Str s) /\
  r <> [] /\
  (forall c rest, r = c :: rest -> Char.is_space c = false) /\
  (forall init c, r = init ++ [c] -> Char.is_space c = false) /\
  (forall before tok rest, r = before ++ tok ++ rest -> ~ Re.lang Utils.token tok).
Proof.
  intros Hr. destruct x as [|s|t b]; try discriminate.
  apply StripFacts.remove_websites_and_tags_cell_Str in Hr as [-> Hne].
  split; [eauto|]. split; [exact Hne|]. split; [|split].
  - intros c rest Heq. exact (StripFacts.strip_head _ _ _ Heq).
  - intros init c Heq. exact (StripFacts.rstrip_last _ _ _ Heq).
  - intros before tok rest Heq Htok.
    apply (UtilsFacts.no_token_strip _ (UtilsFacts.sub_no_token s 0)
             before (tok ++ rest) Heq).
    exists tok, rest. auto.
Qed.

Lemma stripped_cell_is_clean_witness :
  Utils.remove_websites_and_tags_cell (Str (py "Pop [test.com] Rock"))
    = Str (py "Pop Rock") /\
  py "Pop Rock" <> [] /\
  forall before tok rest,
    py "Pop Rock" = before ++ tok ++ rest -> ~ Re.lang Utils.token tok.
Proof.
  assert (Hrun : Utils.remove_websites_and_tags_cell (Str (py "Pop [test.com] Rock"))
                 = Str (py "Pop Rock")) by (vm_compute; reflexivity).
  split; [exact Hrun|].
  destruct (@stripped_cell_is_clean ascii_only _ _ Hrun) as (_ & Hne & _ & _ & Htok).
  split; [exact Hne | exact Htok].
Defined.

(** X2. A string with no dot and no at sign is only trimmed: the text
    between its first and last non-blank characters comes back as it is,
    and null when there is none. *)
Theorem text_without_dot_or_at_is_only_trimmed `{Python} (s : pystr) :
  ~ In 46 s -> ~ In 64 s ->
  Utils.remove_websites_and_tags_cell (Str s)
  = match PyStr.strip s with
    | [] => Null
    | r => Str r
    end.
Proof.
  intros Hdot Hat. unfold Utils.remove_websites_and_tags_cell.
  rewrite UtilsFacts.sub_fixes_no_token; [reflexivity|].
  apply StripFacts.no_dot_no_at_no_token; assumption.
Qed.

Lemma text_without_dot_or_at_is_only_trimmed_witness :
  ~ In 46 (py "  Hello [World]  ") /\ ~ In 64 (py "  Hello [World]  ") /\
  Utils.remove_websites_and_tags_cell (Str (py "  Hello [World]  "))
    = Str (py "Hello [World]").
Proof.
  assert (Hdot : ~ In 46 (py "  Hello [World]  "))
    by (rewrite <- list_elem_of_In; refute_by_compute).
  assert (Hat : ~ In 64 (py "  Hello [World]  "))
    by (rewrite <- list_elem_of_In; refute_by_compute).
  split; [exact Hdot|]. split; [exact Hat|].
  rewrite (@text_without_dot_or_at_is_only_trimmed ascii_only _ Hdot Hat).
  vm_compute. reflexivity.
Defined.

(** X3. The stripping never invents text: every character of the result
    is a character of the input or a space, and the result is no longer
    than the input. *)
Theorem stripping_adds_no_text `{Python} (s r : pystr) :
  Utils.remove_websites_and_tags_cell (Str s) = Str r ->
  (length r <= length s)%nat /\ forall c, In c r -> c = 32 \/ In c s.
Proof.
  intros Hr. apply StripFacts.remove_websites_and_tags_cell_Str in Hr as [-> _].
  split.
  - etransitivity; [apply StripFacts.strip_length|].
    apply StripFacts.sub_from_length.
  - intros c Hc. apply StripFacts.strip_chars in Hc.
    exact (StripFacts.sub_from_chars _ _ _ Hc).
Qed.

Lemma stripping_adds_no_text_witness :
  Utils.remove_websites_and_tags_cell
    (Str (py "Telegram Channel: @foo_bar Song")) = Str (py "Song") /\
  (length (py "Song") <= length (py "Telegram Channel: @foo_bar Song"))%nat.
Proof.
  assert (Hrun : Utils.remove_websites_and_tags_cell
                   (Str (py "Telegram Channel: @foo_bar Song")) = Str (py "Song"))
    by (vm_compute; reflexivity).
  split; [exact Hrun|].
  exact (proj1 (@stripping_adds_no_text ascii_only _ _ Hrun)).
Defined.

(** X4. In every row of the normalised frame the numeric columns are
    null or numeric: a bpm that is not null reads as a numeric string; a
    date, disc number or track number that is not null is a string that is
    numeric once its separators ('-' for the date, '/' for the two
    numbers) are removed, and the date holds no 'T'. *)
Theorem numeric_columns_are_numeric_or_null `{Python} (musics : DataFrame)
    (i : nat) (r' : row) :
  (i, r') ∈ rows (normalise musics) ->
  (at_col r' "bpm" <> Null ->
     PyStr.isnumeric (py_str (at_col r' "bpm")) = true) /\
  (at_col r' "date" <> Null ->
     exists v, at_col r' "date" = Str v /\
               PyStr.isnumeric (PyStr.remove_char 45 v) = true /\ ~ In 84 v) /\
  (at_col r' "discnumber" <> Null ->
     exists v, at_col r' "discnumber" = Str v /\
               PyStr.isnumeric (PyStr.remove_char 47 v) = true) /\
  (at_col r' "tracknumber" <> Null ->
     exists v, at_col r' "tracknumber" = Str v /\
               PyStr.isnumeric (PyStr.remove_char 47 v) = true).
Proof.
  intros Hin. apply NormaliseMore.normalise_elem in Hin as (r & _ & ->).
  assert (Hslash : forall x : cell,
            keep_if (numeric_mask_without 47 x) x <> Null ->
            exists v, keep_if (numeric_mask_without 47 x) x = Str v /\
                      PyStr.isnumeric (PyStr.remove_char 47 v) = true).
  { intros x Hx. apply NormaliseMore.keep_if_not_null in Hx as [Hm ->].
    destruct x as [|v|t b]; try discriminate. exists v. auto. }
  split; [|split; [|split]].
  - rewrite NormaliseMore.normalise_row_bpm. intros Hx.
    apply NormaliseMore.keep_if_not_null in Hx as [Hm ->]. exact Hm.
  - rewrite NormaliseMore.normalise_row_date. intros Hx.
    apply NormaliseMore.keep_if_not_null in Hx as [Hm ->].
    unfold consolidate_date in *.
    destruct (fillna (at_col r "originaldate") (at_col r "date")) as [|v|t b];
      try discriminate.
    exists (PyStr.before 84 v). split; [reflexivity|]. split; [exact Hm|].
    apply NormaliseMore.before_no_sep.
  - rewrite NormaliseMore.normalise_row_discnumber. apply Hslash.
  - rewrite NormaliseFacts.normalise_row_tracknumber. apply Hslash.
Qed.

Lemma numeric_columns_are_numeric_or_null_witness :
  let musics := from_records [third_of_twelve] in
  let r' := normalise_row third_of_twelve in
  (0%nat, r') ∈ rows (normalise musics) /\
  at_col r' "tracknumber" <> Null /\
  exists v, at_col r' "tracknumber" = Str v /\
            PyStr.isnumeric (PyStr.remove_char 47 v) = true.
Proof.
  intros musics r'.
  assert (Hin : (0%nat, r') ∈ rows (normalise musics)) by by_compute.
  assert (Hne : at_col r' "tracknumber" <> Null) by (vm_compute; discriminate).
  split; [exact Hin|]. split; [exact Hne|].
  exact (proj2 (proj2 (proj2
    (@numeric_columns_are_numeric_or_null ascii_only musics 0%nat r' Hin))) Hne).
Defined.

(** X5. The date of a normalised row is read from originaldate whenever
    that cell is not null, and from date only otherwise; of the cell read,
    what stands before the first 'T' is kept if it is numeric once the
    dashes are removed, and the date is null in every other case.  So a
    valid date is lost when the original date is there and is not
    numeric. *)
Theorem originaldate_takes_the_place_of_date `{Python} (musics : DataFrame)
    (n i : nat) (r : row) :
  rows musics !! n = Some (i, r) ->
  exists r',
    rows (normalise musics) !! n = Some (i, r') /\
    at_col r' "date" =
      match (if isnull (at_col r "originaldate")
             then at_col r "date" else at_col r "originaldate") with
      | Str v =>
          if PyStr.isnumeric (PyStr.remove_char 45 (PyStr.before 84 v))
          then Str (PyStr.before 84 v) else Null
      | _ => Null
      end.
Proof.
  intros Hn. exists (normalise_row r).
  split; [apply NormaliseMore.normalise_lookup; exact Hn|].
  rewrite NormaliseMore.normalise_row_date.
  unfold consolidate_date, fillna, numeric_mask_without, keep_if.
  destruct (isnull (at_col r "originaldate"));
    [destruct (at_col r "date") as [|v|t b]
    |destruct (at_col r "originaldate") as [|v|t b]]; reflexivity.
Qed.

Lemma originaldate_takes_the_place_of_date_witness :
  let r0 := <[py "originaldate" := Null]>
              (<[py "date" := Str (py "2020-05-01T10:00:00")]> third_of_twelve) in
  let r1 := <[py "originaldate" := Str (py "soon")]>
              (<[py "date" := Str (py "2020")]> third_of_twelve) in
  let musics := from_records [r0; r1] in
  rows musics !! 0%nat = Some (0%nat, r0) /\
  rows musics !! 1%nat = Some (1%nat, r1) /\
  exists r0' r1',
    rows (normalise musics) !! 0%nat = Some (0%nat, r0') /\
    rows (normalise musics) !! 1%nat = Some (1%nat, r1') /\
    at_col r0' "date" = Str (py "2020-05-01") /\
    at_col r1' "date" = Null.
Proof.
  intros r0 r1 musics.
  assert (H0 : rows musics !! 0%nat = Some (0%nat, r0)) by (vm_compute; reflexivity).
  assert (H1 : rows musics !! 1%nat = Some (1%nat, r1)) by (vm_compute; reflexivity).
  split; [exact H0|]. split; [exact H1|].
  destruct (@originaldate_takes_the_place_of_date ascii_only musics 0%nat 0%nat r0 H0)
    as (r0' & Hr0' & Hd0).
  destruct (@originaldate_takes_the_place_of_date ascii_only musics 1%nat 1%nat r1 H1)
    as (r1' & Hr1' & Hd1).
  exists r0', r1'. split; [exact Hr0'|]. split; [exact Hr1'|].
  split; [rewrite Hd0 | rewrite Hd1]; vm_compute; reflexivity.
Defined.

(** X6. An album or an album artist is left in a normalised row only when
    the row came with both as strings, the album matching none of the
    album placeholders and the album artist none of its own; what is left
    is then the two strings with the promotional text removed. *)
Theorem album_and_albumartist_survive_only_clean `{Python} (musics : DataFrame)
    (i : nat) (r' : row) :
  (i, r') ∈ rows (normalise musics) ->
  at_col r' "album" <> Null \/ at_col r' "albumartist" <> Null ->
  exists r a b,
    (i, r) ∈ rows musics /\
    at_col r "album" = Str a /\ at_col r "albumartist" = Str b /\
    album_regex a = false /\ albumartist_regex b = false /\
    at_col r' "album" = Utils.remove_websites_and_tags_cell (Str a) /\
    at_col r' "albumartist" = Utils.remove_websites_and_tags_cell (Str b) /\
    at_col r' "album" <> Null /\ at_col r' "albumartist" <> Null.
Proof.
  intros Hin Hsome. apply NormaliseMore.normalise_elem in Hin as (r & Hr & ->).
  destruct (NormaliseMore.normalise_row_album_pair r) as [Ha Hb].
  cbv zeta in Ha, Hb. rewrite Ha, Hb in *. clear Ha Hb.
  set (b' := strip_ads (null_if (isnull (at_col r "album")
                || contains albumartist_regex (at_col r "albumartist"))
                (at_col r "albumartist"))) in *.
  set (a' := strip_ads (null_if (isnull b' || contains album_regex (at_col r "album"))
                (at_col r "album"))) in *.
  assert (Hboth : isnull a' = false /\ isnull b' = false).
  { destruct (isnull a'), (isnull b'); cbn in Hsome; try tauto;
      exfalso; destruct Hsome as [Hx|Hx]; apply Hx; reflexivity. }
  destruct Hboth as [Hna Hnb]. rewrite Hna, Hnb. cbn [orb null_if].
  destruct (NormaliseMore.strip_ads_not_null _ Hnb) as [b Hb]. fold b' in Hb.
  apply NormaliseMore.null_if_Str in Hb as [Hmb Hcb].
  destruct (NormaliseMore.strip_ads_not_null _ Hna) as [a Ha]. fold a' in Ha.
  apply NormaliseMore.null_if_Str in Ha as [Hma Hca].
  apply orb_false_elim in Hmb as [_ Hrb]. apply orb_false_elim in Hma as [_ Hra].
  rewrite Hcb, NormaliseMore.contains_Str in Hrb.
  rewrite Hca, NormaliseMore.contains_Str in Hra.
  exists r, a, b.
  assert (Hb' : b' = Utils.remove_websites_and_tags_cell (Str b)).
  { unfold b'. rewrite Hcb, Hca, NormaliseMore.contains_Str, Hrb. reflexivity. }
  assert (Ha' : a' = Utils.remove_websites_and_tags_cell (Str a)).
  { unfold a'. rewrite Hnb, Hca, NormaliseMore.contains_Str, Hra. reflexivity. }
  repeat split; try assumption.
  - intros Hx. rewrite Hx in Hna. discriminate.
  - intros Hx. rewrite Hx in Hnb. discriminate.
Qed.

Lemma album_and_albumartist_survive_only_clean_witness :
  let r := <[py "albumartist" := Str (py "Band [band.com]")]>
             (<[py "album" := Str (py "Hits")]> third_of_twelve) in
  let musics := from_records [r] in
  let r' := normalise_row r in
  (0%nat, r') ∈ rows (normalise musics) /\
  at_col r' "album" = Str (py "Hits") /\
  at_col r' "albumartist" = Str (py "Band") /\
  exists r0 a b,
    (0%nat, r0) ∈ rows musics /\
    at_col r0 "album" = Str a /\ at_col r0 "albumartist" = Str b /\
    album_regex a = false /\ albumartist_regex b = false.
Proof.
  intros r musics r'.
  assert (Hin : (0%nat, r') ∈ rows (normalise musics)) by by_compute.
  assert (Ha : at_col r' "album" = Str (py "Hits")) by (vm_compute; reflexivity).
  split; [exact Hin|]. split; [exact Ha|].
  split; [vm_compute; reflexivity|].
  assert (Hsome : at_col r' "album" <> Null \/ at_col r' "albumartist" <> Null).
  { left. rewrite Ha. discriminate. }
  destruct (@album_and_albumartist_survive_only_clean ascii_only musics 0%nat r' Hin Hsome)
    as (r0 & a & b & Hr0 & Hca & Hcb & Hra & Hrb & _).
  exists r0, a, b. auto.
Defined.

(** X7. A genre left in a normalised row holds no question mark and no
    "unknown" in any letter case: the removal of promotional text, which
    runs after the placeholder test, brings neither in.  (The digits-only
    test is different: a genre that is all digits only after that removal
    is kept.) *)
Theorem surviving_genre_is_not_a_placeholder `{Python} (musics : DataFrame)
    (i : nat) (r' : row) (g : pystr) :
  (i, r') ∈ rows (normalise musics) ->
  at_col r' "genre" = Str g ->
  Re.search (Re.Alt (Re.lit_i (py "unknown")) (Re.Chr (N.eqb 63))) g = false /\
  ~ In 63 g /\
  (forall before w rest, g = before ++ w ++ rest ->
                         ~ Re.lang (Re.lit_i (py "unknown")) w).
Proof.
  intros Hin Hg. apply NormaliseMore.normalise_elem in Hin as (r & _ & ->).
  rewrite NormaliseMore.normalise_row_genre in Hg.
  destruct (NormaliseMore.strip_ads_Str _ _ Hg) as (s & Hnull & _).
  apply NormaliseMore.null_if_Str in Hnull as [Hmask Hcell].
  rewrite Hcell in Hmask, Hg. rewrite Hmask in Hg. cbn [null_if] in Hg.
  rewrite NormaliseMore.contains_Str in Hmask.
  unfold genre_regex in Hmask. apply orb_false_elim in Hmask as [Hsearch _].
  pose proof (NormaliseMore.strip_ads_keeps_no_placeholder s g Hsearch Hg) as Hclean.
  split; [exact Hclean|]. split.
  - apply NormaliseMore.no_placeholder_no_question_mark. exact Hclean.
  - intros before w rest -> Hw.
    rewrite (NormaliseMore.search_complete _ w before rest) in Hclean;
      [discriminate | left; exact Hw].
Qed.

Lemma surviving_genre_is_not_a_placeholder_witness :
  let r := <[py "genre" := Str (py "Pop [test.com] Rock")]> third_of_twelve in
  let digits := <[py "genre" := Str (py "123 @channel")]> third_of_twelve in
  let musics := from_records [r; digits] in
  (0%nat, normalise_row r) ∈ rows (normalise musics) /\
  at_col (normalise_row r) "genre" = Str (py "Pop Rock") /\
  ~ In 63 (py "Pop Rock") /\
  (1%nat, normalise_row digits) ∈ rows (normalise musics) /\
  at_col (normalise_row digits) "genre" = Str (py "123").
Proof.
  intros r digits musics.
  assert (Hin : (0%nat, normalise_row r) ∈ rows (normalise musics)) by by_compute.
  assert (Hg : at_col (normalise_row r) "genre" = Str (py "Pop Rock"))
    by (vm_compute; reflexivity).
  split; [exact Hin|]. split; [exact Hg|].
  split; [|split; [by_compute | vm_compute; reflexivity]].
  exact (proj1 (proj2
    (@surviving_genre_is_not_a_placeholder ascii_only musics 0%nat _ _ Hin Hg))).
Defined.

(** X8. Normalisation keeps the rows, their labels and their order, and in
    each row it changes no cell outside the nine tag columns it filters:
    file, bitrate, length, miscellaneous, originaldate and any other column
    hold what they held. *)
Theorem other_columns_are_left_alone `{Python} (musics : DataFrame) :
  map fst (rows (normalise musics)) = map fst (rows musics) /\
  forall n i r,
    rows musics !! n = Some (i, r) ->
    exists r',
      rows (normalise musics) !! n = Some (i, r') /\
      forall c : pystr,
        c ∉ map py ["date"; "bpm"; "discnumber"; "tracknumber"; "genre";
                    "albumartist"; "album"; "artist"; "title"]%string ->
        r' !! c = r !! c.
Proof.
  split; [apply FrameFacts.normalise_labels|].
  intros n i r Hn. exists (normalise_row r).
  split; [apply NormaliseMore.normalise_lookup; exact Hn|].
  intros c Hc. apply NormaliseMore.normalise_row_other. exact Hc.
Qed.

Lemma other_columns_are_left_alone_witness :
  let musics := from_records [third_of_twelve] in
  rows musics !! 0%nat = Some (0%nat, third_of_twelve) /\
  exists r',
    rows (normalise musics) !! 0%nat = Some (0%nat, r') /\
    r' !! py "file" = third_of_twelve !! py "file".
Proof.
  intros musics.
  assert (Hn : rows musics !! 0%nat = Some (0%nat, third_of_twelve))
    by (vm_compute; reflexivity).
  split; [exact Hn|].
  destruct (proj2 (@other_columns_are_left_alone ascii_only musics) 0%nat 0%nat _ Hn)
    as (r' & Hr' & Hsame).
  exists r'. split; [exact Hr'|]. apply Hsame. by_compute.
Defined.



(** X10. How a run of [generate_music_info] ends.  When a cataloged file
    opens and its stream info has no bitrate, the run raises
    [AttributeError] once the listing is in the cache, and writes no
    sheet.  Otherwise it returns a sheet exactly when one cataloged file
    can be read; the sheet is then stored and has one row for each such
    file.  When none can be read (an empty directory, for one) it raises
    [KeyError] after it has written the address cache and an empty
    before-sheet, and the review sheet is left as it was. *)
Theorem generate_music_info_outcomes `{Python} (w : World) :
  let addrs := walk_addrs (tree w) in
  if existsb (info_raises w) addrs
  then generate_music_info w = Raise AttributeError (set_addrs_file addrs w)
  else
    if existsb (readable w) addrs
    then exists sheet w',
           generate_music_info w = Ok sheet w' /\
           music_info_file w' = Some sheet /\
           length (rows (data sheet))
           = length (filter (fun a => readable w a = true) addrs)
    else generate_music_info w
         = Raise KeyError
             (set_music_info_before_file (from_records []) (set_addrs_file addrs w)).
Proof.
  cbv zeta. destruct (existsb (info_raises w) (walk_addrs (tree w))) eqn:Hinfo;
    [apply GenerateMore.generate_music_info_info; exact Hinfo|].
  destruct (existsb (readable w) (walk_addrs (tree w))) eqn:Hex.
  - destruct (GenerateMore.generate_music_info_readable w Hinfo Hex)
      as (sheet & w' & Hrun).
    exists sheet, w'. split; [exact Hrun|].
    destruct (GenerateMore.generate_music_info_run w sheet w' Hrun) as (Hhl & -> & _).
    split; [reflexivity|].
    rewrite (Permutation_length
               (GenerateMore.sheet_rows_permutation _ _ _ _
                  (eq_ind_r (fun l => NoDup l)
                     (FrameFacts.from_records_NoDup _)
                     (FrameFacts.normalise_labels _)) Hhl)).
    rewrite <- (length_map fst), FrameFacts.normalise_labels,
      FrameFacts.from_records_labels, length_seq.
    apply GenerateMore.read_musics_length.
  - apply GenerateMore.generate_music_info_empty;
      [exact Hinfo | apply GenerateMore.read_musics_nil, Hex].
Qed.

Lemma generate_music_info_outcomes_witness :
  generate_music_info (song_alone no_bitrate)
  = Raise AttributeError (set_addrs_file [py "m/Song.mp3"] (song_alone no_bitrate)) /\
  music_info_before_file (final (generate_music_info (song_alone no_bitrate))) = None /\
  exists sheet w',
    generate_music_info (song_alone no_faults) = Ok sheet w' /\
    length (rows (data sheet)) = 1%nat.
Proof.
  pose proof (@generate_music_info_outcomes ascii_only (song_alone no_bitrate)) as Hno.
  pose proof (@generate_music_info_outcomes ascii_only (song_alone no_faults)) as Hok.
  cbv zeta in Hno, Hok.
  assert (H1 : existsb (info_raises (song_alone no_bitrate))
                       (walk_addrs (tree (song_alone no_bitrate))) = true)
    by (vm_compute; reflexivity).
  assert (H2 : existsb (info_raises (song_alone no_faults))
                       (walk_addrs (tree (song_alone no_faults))) = false)
    by (vm_compute; reflexivity).
  assert (H3 : existsb (readable (song_alone no_faults))
                       (walk_addrs (tree (song_alone no_faults))) = true)
    by (vm_compute; reflexivity).
  rewrite H1 in Hno. rewrite H2, H3 in Hok.
  split; [exact Hno|]. split; [rewrite Hno; reflexivity|].
  destruct Hok as (sheet & w' & Hrun & _ & Hlen).
  exists sheet, w'. split; [exact Hrun|]. rewrite Hlen. vm_compute. reflexivity.
Defined.

(** X11. The sheet a run returns holds the normalised records of the
    readable files, each once, and flags those that need attention; the
    records as read are in the before-sheet and the listing is in the
    cache.  The run removes, renames and rewrites no file, and asks
    nothing. *)
Theorem sheet_is_the_normalised_records `{Python} (w : World) (sheet : Sheet)
    (w' : World) :
  generate_music_info w = Ok sheet w' ->
  let addrs := walk_addrs (tree w) in
  let musics := from_records (read_musics w addrs) in
  rows (data sheet) ≡ₚ rows (normalise musics) /\
  red sheet = map fst (filter flagged (rows (normalise musics))) /\
  music_info_file w' = Some sheet /\
  music_info_before_file w' = Some musics /\
  addrs_file w' = Some addrs /\
  disk w' = disk w /\ stdin w' = stdin w /\ log w' = log w /\ tree w' = tree w.
Proof.
  intros Hrun. cbv zeta.
  destruct (GenerateMore.generate_music_info_run w sheet w' Hrun) as (Hhl & -> & _).
  assert (Hnd : NoDup (map fst (rows (normalise
                  (from_records (read_musics w (walk_addrs (tree w)))))))).
  { rewrite FrameFacts.normalise_labels. apply FrameFacts.from_records_NoDup. }
  split; [exact (GenerateMore.sheet_rows_permutation _ _ _ _ Hnd Hhl)|].
  split; [exact (proj1 (FrameFacts._do_highlight_partition _ _ _ _ Hnd Hhl))|].
  repeat split; reflexivity.
Qed.

Lemma sheet_is_the_normalised_records_witness :
  exists sheet w',
    generate_music_info one_file = Ok sheet w' /\
    rows (data sheet)
    ≡ₚ rows (normalise (from_records
                         (read_musics one_file (walk_addrs (tree one_file))))) /\
    disk w' = disk one_file /\ log w' = log one_file.
Proof.
  assert (Hinfo : existsb (info_raises one_file) (walk_addrs (tree one_file)) = false)
    by (vm_compute; reflexivity).
  assert (Hex : existsb (readable one_file) (walk_addrs (tree one_file)) = true)
    by (vm_compute; reflexivity).
  pose proof (@GenerateMore.generate_music_info_readable ascii_only one_file Hinfo Hex)
    as (sheet & w' & Hrun).
  exists sheet, w'. split; [exact Hrun|].
  pose proof (@sheet_is_the_normalised_records ascii_only one_file sheet w' Hrun)
    as (Hrows & _ & _ & _ & _ & Hdisk & _ & Hlog & _).
  split; [exact Hrows|]. split; [exact Hdisk | exact Hlog].
Defined.

(** X12. After a run that returns, the file column of the sheet names
    exactly the cataloged files that could be read.  So the cataloged files
    that no row of the sheet names, which [apply_tags] takes for deleted
    records and offers to remove, are the files that could not be read. *)
Theorem unread_files_are_the_orphans `{Python} (w : World) (sheet : Sheet)
    (w' : World) :
  generate_music_info w = Ok sheet w' ->
  let addrs := walk_addrs (tree w) in
  let files := map (fun ir : nat * row => at_col ir.2 "file") (rows (data sheet)) in
  (forall a, Str a ∈ files <-> a ∈ addrs /\ readable w a = true) /\
  filter (fun a => Str a ∉ files) addrs
  = filter (fun a => readable w a = false) addrs.
Proof.
  intros Hrun. cbv zeta.
  destruct (GenerateMore.generate_music_info_run w sheet w' Hrun) as (Hhl & _ & _).
  assert (Hnd : NoDup (map fst (rows (normalise
                  (from_records (read_musics w (walk_addrs (tree w)))))))).
  { rewrite FrameFacts.normalise_labels. apply FrameFacts.from_records_NoDup. }
  pose proof (GenerateMore.sheet_rows_permutation _ _ _ _ Hnd Hhl) as Hperm.
  assert (Hfiles : forall a,
            Str a ∈ map (fun ir : nat * row => at_col ir.2 "file") (rows (data sheet))
            <-> a ∈ walk_addrs (tree w) /\ readable w a = true).
  { intros a. split.
    - intros Hin. apply list_elem_of_In, in_map_iff in Hin as ([i r'] & Hcell & Hin).
      apply list_elem_of_In in Hin. rewrite Hperm in Hin.
      apply NormaliseMore.normalise_elem in Hin as (r0 & Hr0 & ->).
      apply GenerateMore.from_records_elem in Hr0 as (r & Hi & Hsub).
      apply list_elem_of_lookup_2, GenerateMore.read_musics_elem in Hi
        as (file & tags & bitrate & len & -> & Hfile & Hread).
      cbn [snd] in Hcell.
      rewrite (GenerateMore.normalise_row_file r0 (Str file)) in Hcell
        by (apply Hsub, GenerateMore.music_record_file).
      injection Hcell as ->. auto.
    - intros [Hin Hread].
      destruct (GenerateMore.read_musics_has w _ a Hin Hread)
        as (tags & bitrate & len & Hrec).
      apply list_elem_of_lookup_1 in Hrec as [i Hi].
      apply GenerateMore.from_records_has in Hi as (r0 & Hr0 & Hsub).
      assert (Hrow : (i, normalise_row r0)
                     ∈ rows (normalise (from_records
                               (read_musics w (walk_addrs (tree w)))))).
      { rewrite NormaliseFacts.rows_normalise.
        apply list_elem_of_In,
          (in_map (fun ir : nat * row => (ir.1, normalise_row ir.2)) _ (i, r0)),
          list_elem_of_In, Hr0. }
      rewrite <- Hperm in Hrow.
      apply list_elem_of_In, in_map_iff. exists (i, normalise_row r0).
      split; [|apply list_elem_of_In; exact Hrow].
      apply GenerateMore.normalise_row_file, Hsub, GenerateMore.music_record_file. }
  split; [exact Hfiles|].
  apply FrameFacts.filter_same. intros a Ha. rewrite Hfiles.
  destruct (readable w a); split.
  - intros Hx. exfalso. apply Hx. auto.
  - discriminate.
  - reflexivity.
  - intros _ [_ Hx]. discriminate.
Qed.

Lemma unread_files_are_the_orphans_witness :
  exists sheet w',
    generate_music_info one_file = Ok sheet w' /\
    filter (fun a => Str a ∉ map (fun ir : nat * row => at_col ir.2 "file")
                                 (rows (data sheet)))
           (walk_addrs (tree one_file))
    = [py "m/trackmp3"].
Proof.
  assert (Hinfo : existsb (info_raises one_file) (walk_addrs (tree one_file)) = false)
    by (vm_compute; reflexivity).
  assert (Hex : existsb (readable one_file) (walk_addrs (tree one_file)) = true)
    by (vm_compute; reflexivity).
  pose proof (@GenerateMore.generate_music_info_readable ascii_only one_file Hinfo Hex)
    as (sheet & w' & Hrun).
  exists sheet, w'. split; [exact Hrun|].
  rewrite (proj2 (@unread_files_are_the_orphans ascii_only one_file sheet w' Hrun)).
  vm_compute. reflexivity.
Defined.

(** X13. The sticky answers are never asked again.  With "na" the loop
    over the orphans leaves the world as it is, whatever the orphans.
    With "ya" it asks nothing, calls [os.remove] once on each orphan in
    turn, leaves no orphan that can be removed, and touches no other
    file. *)
Theorem sticky_answers_are_not_asked_again `{Python} (orphans : list pystr)
    (w : World) :
  remove_orphans orphans (Some (py "na")) w = Ok (Some (py "na")) w /\
  exists w',
    remove_orphans orphans (Some (py "ya")) w = Ok (Some (py "ya")) w' /\
    stdin w' = stdin w /\
    log w' = log w ++ map (fun f => OsRemove (Paths.Path_of_str f)) orphans /\
    (forall f, f ∈ orphans ->
               remove_fails (faults w) (Paths.Path_of_str f) = false ->
               disk w' !! Paths.Path_of_str f = None) /\
    (forall p, p ∉ map Paths.Path_of_str orphans -> disk w' !! p = disk w !! p).
Proof.
  split; [apply ApplyMore.remove_orphans_na|].
  destruct (ApplyMore.remove_orphans_ya orphans w)
    as (w' & Hrun & Hin & _ & Hlog & _ & Hother & Hgone).
  exists w'. auto.
Qed.

(** X14. Only the two sticky answers are taken from the permission given:
    any other one ("y" and "n" too) is as good as none, and the user is
    asked.  The answer typed is what comes back and decides; it is used up
    from the input, and with no input left the call raises [EOFError] and
    changes nothing. *)
Theorem plain_answers_are_asked_again `{Python} (file : Path) (p : pystr)
    (w : World) :
  p ∉ [py "na"; py "ya"] ->
  _remove_file_with_permission file (Some p) w
  = _remove_file_with_permission file None w /\
  match stdin w with
  | [] => _remove_file_with_permission file (Some p) w = Raise EOFError w
  | answer :: rest =>
      exists w',
        _remove_file_with_permission file (Some p) w = Ok answer w' /\
        stdin w' = rest /\ Prompt file ∈ log w' /\
        (startswith_y answer = false -> disk w' = disk w)
  end.
Proof.
  intros Hp.
  rewrite (ApplyFacts.remove_asked file (Some p) w) by (intros p' [= <-]; exact Hp).
  rewrite (ApplyFacts.remove_asked file None w) by discriminate.
  split; [reflexivity|].
  destruct (stdin w) as [|answer rest]; [reflexivity|].
  eexists. split; [reflexivity|].
  destruct (startswith_y answer).
  - destruct (ApplyMore.after_os_remove_rest file (after_prompt file rest w))
      as (-> & _).
    split; [reflexivity|]. split; [|discriminate].
    rewrite ApplyFacts.after_os_remove_log. cbn [after_prompt add_log log set_stdin].
    apply elem_of_app. left. apply elem_of_app. right. left.
  - split; [reflexivity|]. split; [|reflexivity].
    cbn [after_prompt add_log log set_stdin]. apply elem_of_app. right. left.
Qed.

Lemma plain_answers_are_asked_again_witness :
  let file := Paths.Path_of_str (py "m/Song.mp3") in
  let w := set_stdin [py "n"] (song_alone no_faults) in
  exists w',
    _remove_file_with_permission file (Some (py "y")) w = Ok (py "n") w' /\
    stdin w' = [] /\ disk w' = disk w.
Proof.
  intros file w.
  assert (Hp : py "y" ∉ [py "na"; py "ya"]) by by_compute.
  destruct (proj2 (@plain_answers_are_asked_again ascii_only file (py "y") w Hp))
    as (w' & Hrun & Hin & _ & Hdisk).
  exists w'. split; [exact Hrun|]. split; [exact Hin|]. apply Hdisk. reflexivity.
Defined.

(** X15. The candidate name is the new name followed by the suffix of
    the file, without the characters a file name cannot hold, in the
    directory of the file.  When nothing or a single dot is left of it the
    candidate is the directory itself. *)
Theorem new_file_name_is_sanitised (file : Path) (new_name : pystr) :
  let cleaned :=
    filter (fun c => illegal c = false) (new_name ++ Paths.suffix file) in
  _gen_new_file_name file new_name
  = (if bool_decide (cleaned = [] \/ cleaned = [46]) then Paths.parent file
     else (fst file, List.removelast (snd file) ++ [cleaned])) /\
  (cleaned <> [] -> cleaned <> [46] ->
   Paths.parent (_gen_new_file_name file new_name) = Paths.parent file /\
   Paths.name (_gen_new_file_name file new_name) = cleaned /\
   Forall (fun c => illegal c = false)
          (Paths.name (_gen_new_file_name file new_name))).
Proof.
  cbv zeta. rewrite NameFacts._gen_new_file_name_eq. cbv zeta.
  split; [reflexivity|]. intros H1 H2.
  rewrite bool_decide_eq_false_2 by (intros [?|?]; congruence).
  unfold Paths.parent, Paths.name. cbn [fst snd].
  rewrite removelast_last, last_last.
  repeat split. apply Forall_forall. intros c Hc.
  apply list_elem_of_filter in Hc as [Hc _]. exact Hc.
Qed.

Lemma new_file_name_is_sanitised_witness :
  let file := Paths.Path_of_str (py "m/old.mp3") in
  Paths.parent (_gen_new_file_name file (py "What? (Live): 1/2")) = Paths.parent file /\
  Paths.name (_gen_new_file_name file (py "What? (Live): 1/2"))
  = py "What (Live) 12.mp3" /\
  _gen_new_file_name file (py "???") = Paths.Path_of_str (py "m/.mp3") /\
  _gen_new_file_name (Paths.Path_of_str (py "m/old")) (py "???")
  = Paths.Path_of_str (py "m").
Proof.
  intros file.
  destruct (proj2 (new_file_name_is_sanitised file (py "What? (Live): 1/2")))
    as (Hparent & Hname & _); [vm_compute; discriminate..|].
  split; [exact Hparent|]. split; [rewrite Hname|split]; vm_compute; reflexivity.
Defined.

(** X16. How a run of [apply_tags] can end.  When it returns, the review
    sheet has been rewritten and holds at least one row.  When it raises,
    the review sheet is as it was, and the exception is one of four:
    [FileNotFoundError] when there is no review sheet (nothing has been
    done then), [EOFError] when the input ended at a question about an
    orphan, [IndexError] from the removal of the marked records, and
    [KeyError].  Whatever happens in the loop over the records is not
    among the causes.  In every case the directory is listed anew and no
    other file of the organizer changes. *)
Theorem apply_tags_outcomes `{Python} (permissions : Permissions)
    (allow_miscellaneous : bool) (w : World) :
  match apply_tags permissions allow_miscellaneous w with
  | Ok _ w' =>
      (exists sheet, music_info_file w' = Some sheet /\ rows (data sheet) <> []) /\
      addrs_file w' = Some (walk_addrs (tree w)) /\
      music_info_before_file w' = music_info_before_file w
  | Raise e w' =>
      music_info_file w' = music_info_file w /\
      music_info_before_file w' = music_info_before_file w /\
      e ∈ [FileNotFoundError; KeyError; EOFError; IndexError] /\
      (e = FileNotFoundError <-> music_info_file w = None) /\
      (e = FileNotFoundError -> w' = w) /\
      (e = EOFError -> stdin w' = [])
  end.
Proof.
  unfold apply_tags. unfold bind at 1.
  rewrite OutcomeFacts.read_music_info_cases.
  destruct (music_info_file w) as [sheet0|] eqn:Hstore.
  2: { outcome. }
  destruct (has_column "artist" (data sheet0) && has_column "title" (data sheet0)).
  2: { rewrite Hstore.
       outcome. }
  rewrite (MonadFacts.bind_run _ _ _ _ _ (NormaliseFacts.get_music_addrs_walk w)).
  set (addrs := walk_addrs (tree w)). set (w1 := set_addrs_file addrs w).
  assert (H1 : music_info_file w1 = Some sheet0) by exact Hstore.
  destruct (negb (has_column "file" (data sheet0))).
  { unfold raise.
    outcome. }
  cbv zeta. unfold bind at 1.
  pose proof (OutcomeFacts.remove_orphans_run
                (filter (fun a => Str a ∉ map (fun ir : nat * row => at_col ir.2 "file")
                                              (rows (data sheet0))) addrs)
                (remove_deleted permissions) w1) as Hro.
  destruct (remove_orphans _ (remove_deleted permissions) w1) as [pd w2|e w2].
  2: { destruct Hro as (-> & Hin & (_ & _ & _ & Hb & Hs)).
       rewrite Hs, Hb, H1.
       outcome. }
  unfold bind at 1, get at 1. cbv zeta. unfold bind at 1, modify at 1.
  match goal with
  | |- context [run_loop allow_miscellaneous ?start] =>
      pose proof (FootprintFacts.run_loop_untouched allow_miscellaneous start) as Hloop;
      set (l := run_loop allow_miscellaneous start) in *
  end.
  destruct Hloop as [(_ & _ & La & Lb & Ls) _]. cbn [world] in La, Lb, Ls.
  destruct Hro as (_ & _ & Ra & Rb & Rs).
  assert (Hs : music_info_file (world l) = Some sheet0) by congruence.
  assert (Hb : music_info_before_file (world l) = music_info_before_file w)
    by (rewrite Lb, Rb; reflexivity).
  assert (Ha : addrs_file (world l) = Some addrs) by (rewrite La, Ra; reflexivity).
  destruct (pop_all (to_pop l) (musics l)) as [popped|].
  2: { unfold raise.
       outcome. }
  unfold bind.
  destruct (_do_highlight (from_records popped) (world l)) as [sheet w3|e w3] eqn:Hhl.
  - unfold to_excel, modify.
    pose proof (FrameFacts._do_highlight_Ok _ _ _ _ Hhl) as (-> & _).
    split; [|split; assumption].
    exists sheet. split; [reflexivity|].
    exact (proj1 (OutcomeFacts._do_highlight_not_empty _ _ _ _ Hhl)).
  - apply OutcomeFacts._do_highlight_Raise in Hhl as (-> & -> & _).
    outcome.
Qed.


(** X18. An exception raised while a record is processed ends the loop
    at once: the state at the end of the loop is the state at the raise,
    so no later record is looked at.  (The exception itself is swallowed:
    the marked records are then removed and the sheet is rewritten as
    after a full loop.) *)
Theorem an_error_in_the_loop_ends_it `{Python} (allow_miscellaneous : bool)
    (start l l' : Loop) (i : nat) (e : exn) :
  (i < length (musics start))%nat ->
  for_each (seq 0 i) (process allow_miscellaneous) start = Ok tt l ->
  process allow_miscellaneous i l = Raise e l' ->
  run_loop allow_miscellaneous start = l'.
Proof.
  intros Hi Hbefore Hraise. unfold run_loop, try_pass.
  replace (length (musics start)) with (i + S (length (musics start) - S i))%nat by lia.
  rewrite seq_app, ApplyMore.for_each_app.
  rewrite (MonadFacts.bind_run _ _ _ _ _ Hbefore).
  cbn [seq for_each Nat.add].
  rewrite (MonadFacts.bind_raise _ _ _ _ _ Hraise). reflexivity.
Qed.

Lemma an_error_in_the_loop_ends_it_witness :
  let begin := start (song_alone unwritable) two_songs in
  let l' := final (process false 0 begin) in
  process false 0 begin = Raise OtherException l' /\
  run_loop false begin = l' /\
  stdin (world l') = [py "y"] /\ to_pop l' = [] /\
  disk (world l') = disk (song_alone unwritable).
Proof.
  intros begin l'.
  assert (Hraise : process false 0 begin = Raise OtherException l')
    by (vm_compute; reflexivity).
  split; [exact Hraise|]. split; [|repeat split; vm_compute; reflexivity].
  apply (@an_error_in_the_loop_ends_it ascii_only false begin begin l' 0%nat
           OtherException); [cbn; lia | reflexivity | exact Hraise].
Defined.

(** X19. A rename never overwrites a file.  The name chosen for a record
    is the name its file has or a name no file has; and the rename to a
    new name, when it succeeds, puts the content of the file under the new
    name, leaves nothing under the old one and touches no other file; when
    it fails it changes no file, and it never raises. *)
Theorem a_rename_never_overwrites `{Python} (i : nat) (f : Path) (music : row)
    (l l1 : Loop) (new_file_name : Path) :
  choose_file_name i f music l = Ok (Some new_file_name) l1 ->
  new_file_name <> f ->
  l1 = l /\ disk (world l) !! new_file_name = None /\
  exists f' l2,
    rename_file i f new_file_name l = Ok f' l2 /\
    (forall p, p <> f -> p <> new_file_name ->
               disk (world l2) !! p = disk (world l) !! p) /\
    ((f' = new_file_name /\ is_Some (disk (world l) !! f) /\
      disk (world l2) !! new_file_name = disk (world l) !! f /\
      disk (world l2) !! f = None) \/
     (f' = f /\ disk (world l2) = disk (world l))).
Proof.
  intros Hchosen Hne.
  destruct (ApplyMore.choose_file_name_free i f music l l1 new_file_name Hchosen)
    as [-> [Heq|Hfree]]; [contradiction|].
  split; [reflexivity|]. split; [exact Hfree|].
  rewrite ApplyMore.rename_file_eq. cbv zeta.
  destruct (disk (world l) !! f) as [content|] eqn:Hf.
  - destruct (rename_fails (faults (world l)) f new_file_name).
    + eexists _, _. split; [reflexivity|]. split; [reflexivity|]. right. auto.
    + eexists _, _. split; [reflexivity|].
      cbn [world set_musics set_world set_disk disk add_log]. split; [|left].
      * intros p Hp1 Hp2.
        rewrite lookup_insert_ne by congruence. apply lookup_delete_ne. congruence.
      * split; [reflexivity|]. split; [eauto|].
        split; [apply lookup_insert_eq|].
        rewrite lookup_insert_ne by congruence. apply lookup_delete_eq.
  - eexists _, _. split; [reflexivity|]. split; [reflexivity|]. right. auto.
Qed.

Lemma a_rename_never_overwrites_witness :
  let f := Paths.Path_of_str (py "m/old.mp3") in
  let new_file_name := Paths.Path_of_str (py "m/Song.mp3") in
  let l := start old_alone [song] in
  choose_file_name 0 f song l = Ok (Some new_file_name) l /\
  disk (world l) !! new_file_name = None /\
  exists l2,
    rename_file 0 f new_file_name l = Ok new_file_name l2 /\
    disk (world l2) !! f = None /\
    disk (world l2) !! new_file_name = disk (world l) !! f.
Proof.
  intros f new_file_name l.
  assert (Hchosen : choose_file_name 0 f song l = Ok (Some new_file_name) l)
    by (vm_compute; reflexivity).
  assert (Hne : new_file_name <> f) by (vm_compute; discriminate).
  split; [exact Hchosen|].
  destruct (@a_rename_never_overwrites ascii_only 0%nat f song l l new_file_name
              Hchosen Hne)
    as (_ & Hfree & f' & l2 & Hrun & _ & [(-> & _ & Hnew & Hold)|(-> & Hsame)]).
  - split; [exact Hfree|]. exists l2. auto.
  - exfalso. apply (f_equal returned) in Hrun. vm_compute in Hrun. discriminate.
Defined.

(** X20. The review sheet is never left empty.  When the sheet has one
    record, the file of that record is gone and the removal of missing
    files is granted for all, the loop marks the record, the list of
    records is empty after the pops, and the frame made of it has no
    artist column: [apply_tags] raises [KeyError] at the flagging, after
    the call of [os.remove], and the sheet still holds the record. *)
Theorem removing_the_only_record_raises `{Python} (permissions : Permissions)
    (allow_miscellaneous : bool) (w : World) (sheet : Sheet) (i : nat) (r : row)
    (file : pystr) :
  music_info_file w = Some sheet ->
  has_column "artist" (data sheet) = true ->
  has_column "title" (data sheet) = true ->
  has_column "file" (data sheet) = true ->
  rows (data sheet) = [(i, r)] ->
  r !! py "file" = Some (Str file) ->
  disk w !! Paths.Path_of_str file = None ->
  remove_deleted permissions = Some (py "na") ->
  remove_not_found permissions = Some (py "ya") ->
  exists w',
    apply_tags permissions allow_miscellaneous w = Raise KeyError w' /\
    music_info_file w' = Some sheet /\
    log w' = log w ++ [OsRemove (Paths.Path_of_str file)] /\
    disk w' = disk w /\ stdin w' = stdin w.
Proof.
  intros Hstore Hartist Htitle Hfile Hrows Hcell Hgone Hdeleted Hfound.
  unfold apply_tags.
  assert (Hread : read_music_info w = Ok (data sheet) w).
  { rewrite OutcomeFacts.read_music_info_cases, Hstore, Hartist, Htitle. reflexivity. }
  rewrite (MonadFacts.bind_run _ _ _ _ _ Hread).
  rewrite (MonadFacts.bind_run _ _ _ _ _ (NormaliseFacts.get_music_addrs_walk w)).
  rewrite Hfile. cbn [negb]. cbv zeta. rewrite Hdeleted.
  rewrite (MonadFacts.bind_run _ _ _ _ _ (ApplyMore.remove_orphans_na _ _)).
  unfold bind at 1, get at 1. cbv zeta. unfold bind at 1, modify at 1.
  unfold to_dict_records. rewrite Hrows, Hfound. cbn [map snd].
  set (w1 := set_addrs_file (walk_addrs (tree w)) w).
  set (begin := {| world := w1;
                   permission_remove_deleted := Some (py "na");
                   permission_remove_not_found := Some (py "ya");
                   permission_remove_rename_error := remove_rename_error permissions;
                   permission_remove_edit_error := remove_edit_error permissions;
                   musics := [r]; to_pop := [] |}).
  set (l1 := to_pop_append 0
               (set_permission_remove_not_found (py "ya")
                  (set_world (after_os_remove (Paths.Path_of_str file) w1) begin))).
  assert (Hproc : process allow_miscellaneous 0 begin = Ok tt l1).
  { rewrite (ApplyFacts.process_not_found allow_miscellaneous 0 begin r file
               eq_refl Hcell Hgone).
    cbn [permission_remove_not_found world begin].
    rewrite (ApplyFacts.remove_sticky (Paths.Path_of_str file) (py "ya") w1)
      by (apply (bool_decide_unpack _); vm_compute; exact I).
    reflexivity. }
  assert (Hloop : run_loop allow_miscellaneous begin = l1).
  { unfold run_loop, try_pass. cbn [musics begin length seq for_each].
    unfold bind. rewrite Hproc. reflexivity. }
  rewrite Hloop. cbn [to_pop musics l1 to_pop_append set_permission_remove_not_found
                       set_world begin app pop_all length Nat.ltb Nat.leb].
  exists (after_os_remove (Paths.Path_of_str file) w1).
  split; [reflexivity|].
  destruct (ApplyMore.after_os_remove_rest (Paths.Path_of_str file) w1)
    as (Hin & _ & _ & _ & _ & Hs).
  split; [rewrite Hs; exact Hstore|].
  split; [rewrite ApplyFacts.after_os_remove_log; reflexivity|].
  split; [|exact Hin].
  rewrite ApplyMore.after_os_remove_disk.
  change (disk w1) with (disk w). rewrite Hgone. reflexivity.
Qed.

Lemma removing_the_only_record_raises_witness :
  exists w',
    apply_tags yes_to_all_but_orphans false last_record = Raise KeyError w' /\
    music_info_file w' = music_info_file last_record /\
    log w' = [OsRemove (Paths.Path_of_str (py "m/gone.mp3"))].
Proof.
  assert (Hrows : exists r, rows (from_records [gone]) = [(0%nat, r)] /\
                            r !! py "file" = Some (Str (py "m/gone.mp3"))).
  { exists gone. split; vm_compute; reflexivity. }
  destruct Hrows as (r & Hrows & Hcell).
  destruct (@removing_the_only_record_raises ascii_only yes_to_all_but_orphans false
              last_record {| data := from_records [gone]; red := [] |} 0%nat r
              (py "m/gone.mp3"))
    as (w' & Hrun & Hstore & Hlog & _);
    try reflexivity; try exact Hrows; try exact Hcell;
    try (vm_compute; reflexivity).
  exists w'. split; [exact Hrun|]. split; [exact Hstore | exact Hlog].
Defined.

(** X21. The sheet of a run always has the same fourteen columns,
    whatever the tags of the files: file, the nine tags that are filtered,
    originaldate, bitrate, length and miscellaneous; and every row has a
    cell in each of them and in no other.  A tag of a file that is not
    among them becomes no column. *)
Theorem sheet_has_the_fourteen_columns `{Python} (w : World) (sheet : Sheet)
    (w' : World) :
  generate_music_info w = Ok sheet w' ->
  let names :=
    map py ["file"; "title"; "artist"; "album"; "albumartist"; "genre";
            "date"; "bpm"; "tracknumber"; "discnumber"; "originaldate";
            "bitrate"; "length"; "miscellaneous"]%string in
  (forall c, c ∈ columns (data sheet) <-> c ∈ names) /\
  (forall i r, (i, r) ∈ rows (data sheet) ->
               forall c, is_Some (r !! c) <-> c ∈ names).
Proof. exact (SchemaFacts.generated_sheet_schema w sheet w'). Qed.

Lemma sheet_has_the_fourteen_columns_witness :
  exists sheet w',
    generate_music_info one_file = Ok sheet w' /\
    py "originaldate" ∈ columns (data sheet) /\
    py "comment" ∉ columns (data sheet).
Proof.
  assert (Hinfo : existsb (info_raises one_file) (walk_addrs (tree one_file)) = false)
    by (vm_compute; reflexivity).
  assert (Hex : existsb (readable one_file) (walk_addrs (tree one_file)) = true)
    by (vm_compute; reflexivity).
  pose proof (@GenerateMore.generate_music_info_readable ascii_only one_file Hinfo Hex)
    as (sheet & w' & Hrun).
  exists sheet, w'. split; [exact Hrun|].
  pose proof (proj1 (@sheet_has_the_fourteen_columns ascii_only one_file sheet w' Hrun))
    as Hcols.
  split; [apply Hcols; by_compute|].
  intros Hin. apply Hcols in Hin. revert Hin. refute_by_compute.
Defined.

(** X22. The promotional marker is taken from the artist only as the
    source file spells it, with the code point 201E in it: an artist
    without that code point goes through the marker removal as it is, and
    is then only stripped of the promotional text as every other tag. *)
Theorem marker_is_removed_only_as_spelled `{Python} (r : row) (s : pystr) :
  at_col r "artist" = Str s -> ~ In 0x201E s ->
  Re.sub rf_marker [] s = s /\
  at_col (normalise_row r) "artist" = Utils.remove_websites_and_tags_cell (Str s).
Proof.
  intros Hcell Hno.
  pose proof (NormaliseMore.sub_rf_marker_same s Hno) as Hsame.
  split; [exact Hsame|].
  rewrite NormaliseMore.normalise_row_artist, Hcell. cbn [str_map].
  rewrite Hsame. reflexivity.
Qed.

Lemma marker_is_removed_only_as_spelled_witness :
  let trademark := py "Band (RF" ++ [0x2122; 41] in
  let as_spelled := py "Band (RF" ++ [0xE2; 0x201E; 0xA2; 41] in
  let r := <[py "artist" := Str trademark]> third_of_twelve in
  let r2 := <[py "artist" := Str as_spelled]> third_of_twelve in
  at_col (normalise_row r) "artist" = Str trademark /\
  at_col (normalise_row r2) "artist" = Str (py "Band").
Proof.
  intros trademark as_spelled r r2. split; [|vm_compute; reflexivity].
  assert (Hcell : at_col r "artist" = Str trademark) by (vm_compute; reflexivity).
  assert (Hno : ~ In 0x201E trademark) by (vm_compute; intuition discriminate).
  rewrite (proj2 (@marker_is_removed_only_as_spelled ascii_only r trademark Hcell Hno)).
  vm_compute. reflexivity.
Defined.

(** X23. A row of the normalised frame is left unflagged exactly when the
    record came with an artist and a title that are strings and of which
    something other than whitespace is left once the marker (for the
    artist) and the promotional text are removed.  So a record whose title
    is only a link is flagged for review. *)
Theorem a_record_is_flagged_when_nothing_is_left `{Python} (musics : DataFrame)
    (n i : nat) (r : row) :
  rows musics !! n = Some (i, r) ->
  exists r',
    rows (normalise musics) !! n = Some (i, r') /\
    (needs_attention r' = false <->
     exists artist title,
       at_col r "artist" = Str artist /\ at_col r "title" = Str title /\
       PyStr.strip (Re.sub Utils.ad_regex [32] (Re.sub rf_marker [] artist)) <> [] /\
       PyStr.strip (Re.sub Utils.ad_regex [32] title) <> []).
Proof.
  intros Hn. exists (normalise_row r).
  split; [apply NormaliseMore.normalise_lookup; exact Hn|].
  unfold needs_attention.
  rewrite NormaliseMore.normalise_row_artist, NormaliseMore.normalise_row_title.
  rewrite orb_false_iff, !NormaliseMore.strip_ads_null. split.
  - intros [(a & Ha & Hane) (t & Ht & Htne)].
    destruct (at_col r "artist") as [|artist|? ?]; try discriminate.
    cbn [str_map] in Ha. injection Ha as <-.
    exists artist, t. repeat split; assumption || reflexivity.
  - intros (artist & title & -> & -> & Hane & Htne). cbn [str_map].
    split; eexists; (split; [reflexivity | assumption]).
Qed.

Lemma a_record_is_flagged_when_nothing_is_left_witness :
  let r := mk_music "m/a.mp3" (Str (py "www.site.com")) (Str (py "Band")) in
  let musics := from_records [r] in
  rows musics !! 0%nat = Some (0%nat, r) /\
  exists r',
    rows (normalise musics) !! 0%nat = Some (0%nat, r') /\
    needs_attention r' = true.
Proof.
  intros r musics.
  assert (Hn : rows musics !! 0%nat = Some (0%nat, r)) by (vm_compute; reflexivity).
  split; [exact Hn|].
  destruct (@a_record_is_flagged_when_nothing_is_left ascii_only musics 0%nat 0%nat r Hn)
    as (r' & Hr' & Hiff).
  exists r'. split; [exact Hr'|].
  destruct (needs_attention r'); [reflexivity|]. exfalso.
  destruct (proj1 Hiff eq_refl) as (artist & title & _ & Ht & _ & Hleft).
  assert (Htitle : title = py "www.site.com").
  { vm_compute in Ht. injection Ht as <-. reflexivity. }
  subst title. apply Hleft. vm_compute. reflexivity.
Defined.

(** X24. The mask of the album-artist placeholders has one entry for each
    cell, and the entry is true exactly for the strings in which
    "unknown" or "various" stands somewhere, in any letter case; a cell
    that is not a string gives false. *)
Theorem placeholder_test_is_a_caseless_substring_test `{Python} (data : Series) :
  length (Utils.mask_containing_regex data albumartist_regex) = length data /\
  forall i,
    Utils.mask_containing_regex data albumartist_regex !! i = Some true <->
    exists s before w rest,
      data !! i = Some (Str s) /\ s = before ++ w ++ rest /\
      (Forall2 (fun l c => Char.ci_eq l c = true) (py "unknown") w \/
       Forall2 (fun l c => Char.ci_eq l c = true) (py "various") w).
Proof.
  unfold Utils.mask_containing_regex. split; [apply length_map|].
  intros i.
  change (map ?f data) with (f <$> data). rewrite list_lookup_fmap.
  destruct (data !! i) as [x|]; cbn [fmap option_fmap option_map].
  2: { split; [discriminate | intros (? & ? & ? & ? & ? & _); discriminate]. }
  destruct x as [|s|t b].
  - split; [discriminate | intros (? & ? & ? & ? & ? & _); discriminate].
  - unfold albumartist_regex. split.
    + intros [= Hs]. apply NormaliseMore.search_sound in Hs as (a & w & b & -> & Hw).
      exists (a ++ w ++ b), a, w, b. split; [reflexivity|]. split; [reflexivity|].
      destruct Hw as [Hw|Hw]; [left | right]; apply NormaliseMore.lang_lit_i; exact Hw.
    + intros (s0 & a & w & b & [= <-] & -> & Hw). f_equal.
      apply NormaliseMore.search_complete.
      destruct Hw as [Hw|Hw]; [left | right]; apply NormaliseMore.lang_lit_i; exact Hw.
  - split; [discriminate | intros (? & ? & ? & ? & ? & _); discriminate].
Qed.

(** X25. Of a row of the generated sheet only the tag columns are written
    back to the file: the tags to write have their names among the nine
    filtered tags and originaldate, and each holds the one value of its
    cell.  So a tag of the file outside these columns, which went to
    miscellaneous, is not among the tags the file is left with when its
    tags are rewritten. *)
Theorem only_the_tag_columns_are_written_back `{Python} (w : World) (sheet : Sheet)
    (w' : World) (i : nat) (r : row) :
  generate_music_info w = Ok sheet w' ->
  (i, r) ∈ rows (data sheet) ->
  forall k vs,
    new_tags_of r !! k = Some vs ->
    k ∈ map py ["title"; "artist"; "album"; "albumartist"; "genre"; "date";
                "bpm"; "tracknumber"; "discnumber"; "originaldate"]%string /\
    exists v, vs = [v] /\ r !! k = Some v /\ truthy v = true.
Proof.
  intros Hrun Hin k vs Hk.
  apply ApplyFacts.new_tags_of_lookup in Hk as (v & -> & Hv & Hnot & Htruthy).
  split; [|exists v; auto].
  pose proof (proj1 (proj2 (SchemaFacts.generated_sheet_schema w sheet w' Hrun)
                       i r Hin k) (ex_intro _ v Hv)) as Hname.
  cbn [map] in Hname, Hnot |- *.
  rewrite !elem_of_cons, elem_of_nil in Hname.
  rewrite !not_elem_of_cons in Hnot. destruct Hnot as (N1 & N2 & N3 & N4 & _).
  rewrite !elem_of_cons, elem_of_nil.
  repeat destruct Hname as [Hname|Hname]; try contradiction; auto 20.
Qed.

Lemma only_the_tag_columns_are_written_back_witness :
  let musics := from_records (read_musics one_file (walk_addrs (tree one_file))) in
  let r := match rows (normalise musics) with
           | (_, r) :: _ => r
           | [] => ∅
           end in
  exists sheet w',
    generate_music_info one_file = Ok sheet w' /\
    (0%nat, r) ∈ rows (data sheet) /\
    (forall vs, new_tags_of r !! py "comment" = Some vs -> False) /\
    new_tags_of r !! py "title" = Some [Str (py "Song")].
Proof.
  intros musics r.
  assert (Hinfo : existsb (info_raises one_file) (walk_addrs (tree one_file)) = false)
    by (vm_compute; reflexivity).
  assert (Hex : existsb (readable one_file) (walk_addrs (tree one_file)) = true)
    by (vm_compute; reflexivity).
  pose proof (@GenerateMore.generate_music_info_readable ascii_only one_file Hinfo Hex)
    as (sheet & w' & Hrun).
  destruct (@GenerateMore.generate_music_info_run ascii_only one_file sheet w' Hrun)
    as (Hhl & _ & _).
  assert (Hnd : NoDup (map fst (rows (normalise musics)))).
  { rewrite FrameFacts.normalise_labels. apply FrameFacts.from_records_NoDup. }
  pose proof (GenerateMore.sheet_rows_permutation _ _ _ _ Hnd Hhl) as Hperm.
  assert (Hin : (0%nat, r) ∈ rows (data sheet)) by (rewrite Hperm; by_compute).
  exists sheet, w'. split; [exact Hrun|]. split; [exact Hin|].
  split; [|vm_compute; reflexivity].
  intros vs Hvs.
  destruct (@only_the_tag_columns_are_written_back ascii_only one_file sheet w' 0%nat r
              Hrun Hin _ _ Hvs) as [Hname _].
  revert Hname. refute_by_compute.
Defined.

End Extras.
